(** * CallSession: a shallow embedding of the softphone call session

  The development follows the class [CallSession] (an [EventEmitter]
  owning one UDP socket and sharing one signaling channel): its
  constructor, [send], [transfer], [hangup], [sendDTMF],
  [startLocalServices] with its two closures, and [dispose].

  JavaScript strings are taken as sequences of 8-bit code units, a
  [Buffer] as a list of bytes, objects used as maps as [gmap]. The port
  [parseInt] returns is a double ([JsNumber]); the other numbers of the
  class are integers far below 2^53 and are taken as [Z]. *)

From Stdlib Require Import ZArith Ascii String List Bool Lia.
From stdpp Require Import base option list strings gmap.

Local Open Scope Z_scope.

(** ** Numbers *)

(** A JavaScript number whose value is an integer or [Infinity]: what
    [parseInt] gives on a non-empty run of decimal digits. *)
Inductive JsNumber :=
| Integer (z : Z)
| Infinity.

Coercion Integer : Z >-> JsNumber.

(** ** JavaScript string primitives used by the session *)

Module JsString.

(** [s.startsWith(p)] *)
Fixpoint startsWith (s p : string) {struct p} : bool :=
  match p with
  | EmptyString => true
  | String a p' =>
      match s with
      | EmptyString => false
      | String b s' => if Ascii.eqb a b then startsWith s' p' else false
      end
  end.

(** [s.endsWith(suf)]: some suffix of [s] is [suf]. *)
Fixpoint endsWith (s suf : string) : bool :=
  String.eqb s suf ||
  match s with
  | EmptyString => false
  | String _ s' => endsWith s' suf
  end.

(** White space as [String.prototype.trim] sees it, within 8-bit code
    units: TAB, LF, VT, FF, CR, SPACE and NBSP. *)
Definition isWhite (c : ascii) : bool :=
  let n := nat_of_ascii c in
  ((9 <=? n)%nat && (n <=? 13)%nat) || (n =? 32)%nat || (n =? 160)%nat.

Fixpoint trimStart (s : string) : string :=
  match s with
  | EmptyString => EmptyString
  | String c s' => if isWhite c then trimStart s' else s
  end.

(** Drops trailing white space: a character is kept when it is not white
    or when something survives after it. *)
Fixpoint trimEnd (s : string) : string :=
  match s with
  | EmptyString => EmptyString
  | String c s' =>
      match trimEnd s' with
      | EmptyString => if isWhite c then EmptyString else String c EmptyString
      | r => String c r
      end
  end.

(** [s.trim()] *)
Definition trim (s : string) : string := trimEnd (trimStart s).

(** The rest of [s] after the literal [p], when [s] starts with it. *)
Fixpoint stripPrefix (p s : string) : option string :=
  match p with
  | EmptyString => Some s
  | String a p' =>
      match s with
      | EmptyString => None
      | String b s' => if Ascii.eqb a b then stripPrefix p' s' else None
      end
  end.

(** The longest prefix of [s] in the character class [f], and the rest:
    what a greedy [[...]+] consumes. *)
Fixpoint span (f : ascii -> bool) (s : string) : string * string :=
  match s with
  | EmptyString => (EmptyString, EmptyString)
  | String c s' =>
      if f c then let '(a, b) := span f s' in (String c a, b)
      else (EmptyString, s)
  end.

(** [\d] *)
Definition isDigit (c : ascii) : bool :=
  let n := nat_of_ascii c in (48 <=? n)%nat && (n <=? 57)%nat.

(** [[\d.]] *)
Definition isDigitOrDot (c : ascii) : bool :=
  isDigit c || Ascii.eqb c "."%char.

(** An unanchored regular expression tries every start position from the
    left and returns the first match. *)
Fixpoint search {A} (at_start : string -> option A) (s : string) : option A :=
  match at_start s with
  | Some r => Some r
  | None =>
      match s with
      | EmptyString => None
      | String _ s' => search at_start s'
      end
  end.

Definition allChars (f : ascii -> bool) (s : string) : bool :=
  forallb f (list_ascii_of_string s).

(** The integer a string of decimal digits denotes. *)
Definition digitValue (c : ascii) : Z := Z.of_nat (nat_of_ascii c) - 48.

Fixpoint parseDigits (acc : Z) (s : string) : Z :=
  match s with
  | EmptyString => acc
  | String c s' => parseDigits (10 * acc + digitValue c) s'
  end.

(** The number value of an integer [n >= 0]: the nearest double, ties to
    the even significand of 53 bits, [Infinity] when that is 2^1024 or
    more. Below 2^53 every integer is its own number value. *)
Definition toDouble (n : Z) : JsNumber :=
  if n <? 2 ^ 53 then Integer n
  else
    let e := Z.log2 n - 52 in
    let q := Z.shiftr n e in
    let r := Z.land n (Z.ones e) in
    let half := Z.shiftl 1 (e - 1) in
    let q' := if (half <? r) || ((r =? half) && Z.odd q) then q + 1 else q in
    if 2 ^ 1024 <=? Z.shiftl q' e then Infinity else Integer (Z.shiftl q' e).

(** [parseInt(s, 10)] on a non-empty string of decimal digits: the number
    value of the integer the digits denote. (From the 21st significant
    digit on the language lets an implementation read a digit as 0; the
    exact value is rounded here, as V8 does.) *)
Definition parseInt10 (s : string) : JsNumber := toDouble (parseDigits 0 s).

End JsString.


(** ** Data of the media and signaling layers *)

Definition Buffer := list Byte.byte.

(** What [socket.send] is given: [send(data: string | Buffer)]. *)
Inductive Datagram :=
| Text (s : string)
| Bytes (b : Buffer).

(** The header fields [sendDTMF] passes to [new RtpHeader({...})]. *)
Record RtpHeader := mkRtpHeader {
  version : Z;
  padding : bool;
  paddingSize : Z;
  extension : bool;
  marker : bool;
  payloadOffset : Z;
  payloadType : Z;
  sequenceNumber : Z;
  timestamp : Z;
  ssrc : Z;
  csrcLength : Z;
  csrc : list Z;
  extensionProfile : Z;
  extensionLength : option Z;
  extensions : list Buffer
}.

Record RtpPacket := mkRtpPacket {
  header : RtpHeader;
  payload : Buffer
}.

(** An inbound SIP message: status or request line, header map, body. *)
Record InboundMessage := mkInbound {
  subject : string;
  headers : gmap string string;
  body : string
}.

(** Outbound SIP messages, kept as the constructor calls of the source:
    [new RequestMessage(subject, headers)] with the object literal in key
    order (a value may be [undefined]), [new ResponseMessage(inbound, code)]. *)
Inductive OutboundMessage :=
| RequestMessage (subject : string) (headers : list (string * option string))
| ResponseMessage (inboundMessage : InboundMessage) (responseCode : Z).

(** Exceptions. For the [async] methods a thrown exception is the
    rejection of the returned promise. *)
Inductive Exn :=
| TypeError
| ERR_SOCKET_DGRAM_NOT_RUNNING
| ERR_SOCKET_BAD_PORT
| InvalidDtmfChar
| CollaboratorError (who : string).

Inductive Result (A : Type) :=
| Ok (a : A)
| Throw (e : Exn).
Arguments Ok {A} a.
Arguments Throw {A} e.

(** Events the session emits, with the name given to [emit]. *)
Inductive Event :=
| EvRtpPacket (p : RtpPacket)
| EvDtmfPacket (p : RtpPacket)
| EvDtmf (char : string)
| EvAudioPacket (p : RtpPacket)
| EvBusy
| EvDisposed.

Definition eventName (e : Event) : string :=
  match e with
  | EvRtpPacket _ => "rtpPacket"
  | EvDtmfPacket _ => "dtmfPacket"
  | EvDtmf _ => "dtmf"
  | EvAudioPacket _ => "audioPacket"
  | EvBusy => "busy"
  | EvDisposed => "disposed"
  end.

(** Operations invoked on the [dgram.Socket], in program order. *)
Inductive SocketCall :=
| SockBind
| SockSend (data : Datagram) (port : JsNumber) (address : string)
| SockClose.

(** The UDP socket as the session uses it: whether the ['message']
    listener of [startLocalServices] is attached, whether the handle is
    still open, and the operations invoked so far, whether they returned
    or raised. A closed [dgram.Socket] raises
    [ERR_SOCKET_DGRAM_NOT_RUNNING] from [send] and [close]. *)
Record Socket := mkSocket {
  messageListener : bool;
  running : bool;
  calls : list SocketCall
}.

(** The closures the session registers on the softphone's ['message']
    event; each closure created by a call has its own identity. The
    listeners of other sessions and of the application are not part of the
    model. *)
Inductive Closure :=
| ByeHandler (id : nat)
| NotifyHandler (id : nat).

#[global] Instance Closure_eq_dec : EqDecision Closure.
Proof. solve_decision. Defined.

(** Modelled from the spec: the softphone (signaling collaborator, source
    file [softphone] not available). Section 6: "a [send(message)] operation
    plus the ability to register/unregister a callback on every inbound
    message". It is an event emitter for ['message']; [fakeDomain] and
    [sipInfo.domain] are the two fields the session reads. *)
Record Softphone := mkSoftphone {
  fakeDomain : string;
  sipInfo_domain : string;
  messageListeners : list Closure;
  sent : list OutboundMessage
}.

(** Collaborators outside the class: the SRTP context and RTP
    (de)serializer of the RTP library, the Opus decoder, and the helpers
    imported from [../dtmf] and [../utils]. [None] stands for a raised
    exception. The SRTP context is stateful, so both directions return the
    context they leave behind. Random helpers are read from a stream indexed
    by the number of values drawn so far. *)
Class Collaborators := {
  SrtpSession : Type;
  srtp_encrypt : SrtpSession -> Buffer -> RtpHeader -> option Buffer * SrtpSession;
  srtp_decrypt : SrtpSession -> Buffer -> option Buffer * SrtpSession;
  deSerialize : Buffer -> option RtpPacket;
  opus_decode : Buffer -> option Buffer;
  payloadToChar : Buffer -> option string;
  eventPayloads : Z -> list Buffer;
  extractAddress : option string -> option string;
  branch : nat -> string;
  randomInt : nat -> Z
}.

(** ** The session object and the world it runs in *)

Section Session.
Context `{C : Collaborators}.

(** The fields of [CallSession]. [socket], [srtpSession], [localPeer] and
    [remotePeer] are declared without initializer and stay [undefined]
    ([None]) until assigned; [listeners] is the listener table of the
    [EventEmitter] base class: (event name, listener identity) in
    registration order. *)
Record CallSession := mkCallSession {
  sipMessage : InboundMessage;
  socket : option Socket;
  localPeer : option string;
  remotePeer : option string;
  remoteIP : string;
  remotePort : JsNumber;
  disposed : bool;
  srtpSession : option SrtpSession;
  listeners : list (string * nat)
}.

(** Everything outside the session object: the shared softphone, the
    trace of [emit] calls made by the session and of listener invocations
    they caused, the number of sockets created and of [encrypt]/[decrypt]
    calls made so far, the clock, the number of random values and closure
    identities handed out, and the datagrams a socket has accepted for
    transmission (the [send] calls that returned normally), in order. *)
Record Env := mkEnv {
  softphone : Softphone;
  emitted : list Event;
  delivered : list (nat * Event);
  socketsCreated : nat;
  cryptoCalls : nat;
  now : Z;
  draws : nat;
  closures : nat;
  wire : list (Datagram * JsNumber * string)
}.

Record World := mkWorld {
  self : CallSession;
  env : Env
}.

(** [get callId()] *)
Definition callId (s : CallSession) : option string :=
  headers (sipMessage s) !! "Call-ID".

(** *** State and exception monad *)

Definition M (A : Type) : Type := World -> Result A * World.

#[global] Instance M_ret : MRet M := fun A a w => (Ok a, w).

#[global] Instance M_bind : MBind M := fun A B f m w =>
  match m w with
  | (Ok a, w') => f a w'
  | (Throw e, w') => (Throw e, w')
  end.

Definition throw {A} (e : Exn) : M A := fun w => (Throw e, w).
Definition gets {A} (f : World -> A) : M A := fun w => (Ok (f w), w).
Definition modify (f : World -> World) : M unit := fun w => (Ok tt, f w).

Definition orThrow {A} (e : Exn) (o : option A) : M A :=
  match o with
  | Some a => mret a
  | None => throw e
  end.

Definition exec {A} (m : M A) (w : World) : World := snd (m w).
Definition outcome {A} (m : M A) (w : World) : Result A := fst (m w).

(** *** Field updates *)

Definition withSelf (f : CallSession -> CallSession) (w : World) : World :=
  mkWorld (f (self w)) (env w).

Definition withEnv (f : Env -> Env) (w : World) : World :=
  mkWorld (self w) (f (env w)).

Definition setDisposed (b : bool) (s : CallSession) : CallSession :=
  mkCallSession (sipMessage s) (socket s) (localPeer s) (remotePeer s)
    (remoteIP s) (remotePort s) b (srtpSession s) (listeners s).

Definition setSocket (k : option Socket) (s : CallSession) : CallSession :=
  mkCallSession (sipMessage s) k (localPeer s) (remotePeer s)
    (remoteIP s) (remotePort s) (disposed s) (srtpSession s) (listeners s).

Definition setSrtpSession (k : option SrtpSession) (s : CallSession) : CallSession :=
  mkCallSession (sipMessage s) (socket s) (localPeer s) (remotePeer s)
    (remoteIP s) (remotePort s) (disposed s) k (listeners s).

Definition setListeners (l : list (string * nat)) (s : CallSession) : CallSession :=
  mkCallSession (sipMessage s) (socket s) (localPeer s) (remotePeer s)
    (remoteIP s) (remotePort s) (disposed s) (srtpSession s) l.

Definition setSoftphone (p : Softphone) (e : Env) : Env :=
  mkEnv p (emitted e) (delivered e) (socketsCreated e) (cryptoCalls e) (now e)
    (draws e) (closures e) (wire e).

Definition setTrace (em : list Event) (dl : list (nat * Event)) (e : Env) : Env :=
  mkEnv (softphone e) em dl (socketsCreated e) (cryptoCalls e) (now e) (draws e)
    (closures e) (wire e).

Definition setSocketsCreated (n : nat) (e : Env) : Env :=
  mkEnv (softphone e) (emitted e) (delivered e) n (cryptoCalls e) (now e) (draws e)
    (closures e) (wire e).

Definition setCryptoCalls (n : nat) (e : Env) : Env :=
  mkEnv (softphone e) (emitted e) (delivered e) (socketsCreated e) n (now e)
    (draws e) (closures e) (wire e).

Definition setDraws (n : nat) (e : Env) : Env :=
  mkEnv (softphone e) (emitted e) (delivered e) (socketsCreated e) (cryptoCalls e)
    (now e) n (closures e) (wire e).

Definition setClosures (n : nat) (e : Env) : Env :=
  mkEnv (softphone e) (emitted e) (delivered e) (socketsCreated e) (cryptoCalls e)
    (now e) (draws e) n (wire e).

Definition setWire (l : list (Datagram * JsNumber * string)) (e : Env) : Env :=
  mkEnv (softphone e) (emitted e) (delivered e) (socketsCreated e) (cryptoCalls e)
    (now e) (draws e) (closures e) l.

(** *** EventEmitter of the session *)

(** Identities of the listeners registered for an event name, in order. *)
Definition listenersOf (name : string) (l : list (string * nat)) : list nat :=
  map snd (filter (fun p => String.eqb (fst p) name) l).

(** [this.emit(name, ...)]: every listener registered for the name is
    invoked once, in registration order. Listeners are application code;
    they are recorded by identity and do not call back into the session. *)
Definition emit (ev : Event) : M unit :=
  modify (fun w =>
    withEnv (setTrace
      (emitted (env w) ++ [ev])
      (delivered (env w) ++
         map (fun l => (l, ev)) (listenersOf (eventName ev) (listeners (self w)))))
      w).

(** [this.on(name, listener)], called by the application. *)
Definition on (name : string) (listener : nat) : M unit :=
  modify (withSelf (fun s => setListeners (listeners s ++ [(name, listener)]) s)).

(** [this.removeAllListeners()] *)
Definition removeAllListeners : M unit :=
  modify (withSelf (setListeners [])).

(** *** The softphone as seen from the session *)

(** Modelled from the spec: [softphone.send(message)] hands the message to
    the signaling channel (section 6, "a [send(message)] operation"). *)
Definition softphone_send (m : OutboundMessage) : M unit :=
  modify (withEnv (fun e =>
    let p := softphone e in
    setSoftphone (mkSoftphone (fakeDomain p) (sipInfo_domain p)
                    (messageListeners p) (sent p ++ [m])) e)).

(** Modelled from the spec: [softphone.on('message', h)] registers a
    callback on every inbound message (section 6). *)
Definition softphone_on (h : Closure) : M unit :=
  modify (withEnv (fun e =>
    let p := softphone e in
    setSoftphone (mkSoftphone (fakeDomain p) (sipInfo_domain p)
                    (messageListeners p ++ [h]) (sent p)) e)).

(** Removes the most recently added occurrence of [h], as
    [removeListener] does. *)
Fixpoint removeLast (h : Closure) (l : list Closure) : list Closure :=
  match l with
  | [] => []
  | x :: r =>
      if bool_decide (h ∈ r) then x :: removeLast h r
      else if bool_decide (x = h) then r else x :: r
  end.

(** Modelled from the spec: [softphone.off('message', h)] unregisters the
    callback (section 6). *)
Definition softphone_off (h : Closure) : M unit :=
  modify (withEnv (fun e =>
    let p := softphone e in
    setSoftphone (mkSoftphone (fakeDomain p) (sipInfo_domain p)
                    (removeLast h (messageListeners p)) (sent p)) e)).

(** A fresh closure identity. *)
Definition newClosure : M nat :=
  fun w => (Ok (closures (env w)), withEnv (fun e => setClosures (S (closures e)) e) w).

(** The next value of a random helper. *)
Definition draw {A} (f : nat -> A) : M A :=
  fun w => (Ok (f (draws (env w))), withEnv (fun e => setDraws (S (draws e)) e) w).

(** Template-literal interpolation of a [string | undefined]. *)
Definition interp (v : option string) : string := default "undefined" v.

(** *** The UDP socket as seen from the session *)

Definition logCall (c : SocketCall) (k : Socket) : Socket :=
  mkSocket (messageListener k) (running k) (calls k ++ [c]).

(** [this.socket = dgram.createSocket('udp4')] *)
Definition createSocket : M unit :=
  modify (fun w =>
    withEnv (fun e => setSocketsCreated (S (socketsCreated e)) e)
      (withSelf (setSocket (Some (mkSocket false true []))) w)).

(** A method call on [this.socket]; the field is [undefined] until
    [startLocalServices] has run. *)
Definition onSocket (f : Socket -> Socket * Result unit) : M unit :=
  fun w =>
    match socket (self w) with
    | None => (Throw TypeError, w)
    | Some k => let '(k', r) := f k in (r, withSelf (setSocket (Some k')) w)
    end.

(** [this.socket.on('message', ...)] *)
Definition socket_onMessage : M unit :=
  onSocket (fun k => (mkSocket true (running k) (calls k), Ok tt)).

(** [this.socket.removeAllListeners()] *)
Definition socket_removeAllListeners : M unit :=
  onSocket (fun k => (mkSocket false (running k) (calls k), Ok tt)).

(** [this.socket.bind()] *)
Definition socket_bind : M unit :=
  onSocket (fun k => (logCall SockBind k, Ok tt)).

(** What [send] accepts as a port: an integer from 1 to 65535. *)
Definition validPort (port : JsNumber) : bool :=
  match port with
  | Integer p => (0 <? p) && (p <=? 65535)
  | Infinity => false
  end.

(** [this.socket.send(data, port, address)]: the port is validated first
    ([ERR_SOCKET_BAD_PORT]), then the handle is checked
    ([ERR_SOCKET_DGRAM_NOT_RUNNING]); a call that passes both returns and
    the datagram is accepted for transmission. *)
Definition socket_send (data : Datagram) (port : JsNumber) (address : string)
  : M unit :=
  onSocket (fun k =>
    (logCall (SockSend data port address) k,
     if negb (validPort port) then Throw ERR_SOCKET_BAD_PORT
     else if running k then Ok tt
     else Throw ERR_SOCKET_DGRAM_NOT_RUNNING));;
  modify (withEnv (fun e => setWire (wire e ++ [(data, port, address)]) e)).

(** [this.socket.close()] *)
Definition socket_close : M unit :=
  onSocket (fun k =>
    (mkSocket (messageListener k) false (calls k ++ [SockClose]),
     if running k then Ok tt else Throw ERR_SOCKET_DGRAM_NOT_RUNNING)).

(** *** Construction *)

(** [/c=IN IP4 ([\d.]+)/] tried at the start of [s]: the capture. *)
Definition connectionAt (s : string) : option string :=
  match JsString.stripPrefix "c=IN IP4 " s with
  | None => None
  | Some r =>
      match fst (JsString.span JsString.isDigitOrDot r) with
      | EmptyString => None
      | cap => Some cap
      end
  end.

(** [/m=audio (\d+) /] tried at the start of [s]: the capture. The greedy
    digit run must be followed by a space; giving digits back cannot help,
    since the character after a shorter run is a digit. *)
Definition audioAt (s : string) : option string :=
  match JsString.stripPrefix "m=audio " s with
  | None => None
  | Some r =>
      match JsString.span JsString.isDigit r with
      | (EmptyString, _) => None
      | (cap, String " " _) => Some cap
      | _ => None
      end
  end.

(** [constructor(softphone, sipMessage)]: [match(...)![1]] on a body without
    a match indexes [null] and raises a [TypeError]. The softphone reference
    is the shared object of the environment. *)
Definition constructor (sipMessage : InboundMessage) (e : Env)
  : Result CallSession * Env :=
  match JsString.search connectionAt (body sipMessage) with
  | None => (Throw TypeError, e)
  | Some ip =>
      match JsString.search audioAt (body sipMessage) with
      | None => (Throw TypeError, e)
      | Some port =>
          (Ok (mkCallSession sipMessage None None None ip
                 (JsString.parseInt10 port) false None []), e)
      end
  end.

(** *** Methods *)

(** [send(data)] *)
Definition send (data : Datagram) : M unit :=
  s ← gets self;
  socket_send data (remotePort s) (remoteIP s).

(** The closure [notifyHandler] of [transfer]. *)
Definition notifyHandler (id : nat) (inboundMessage : InboundMessage) : M unit :=
  if negb (JsString.startsWith (subject inboundMessage) "NOTIFY ") then mret tt
  else
    softphone_send (ResponseMessage inboundMessage 200);;
    if String.eqb (JsString.trim (body inboundMessage)) "SIP/2.0 200 OK"
    then softphone_off (NotifyHandler id)
    else mret tt.

(** [transfer(target)] *)
Definition transfer (target : string) : M unit :=
  s ← gets self;
  p ← gets (softphone ∘ env);
  remoteAddress ← orThrow (CollaboratorError "extractAddress") (extractAddress (remotePeer s));
  b ← draw branch;
  localAddress ← orThrow (CollaboratorError "extractAddress") (extractAddress (localPeer s));
  softphone_send
    (RequestMessage ("REFER sip:" +:+ remoteAddress +:+ " SIP/2.0")
       [("Call-ID", callId s);
        ("From", localPeer s);
        ("To", remotePeer s);
        ("Via", Some ("SIP/2.0/TLS " +:+ fakeDomain p +:+ ";branch=" +:+ b));
        ("Refer-To", Some ("sip:" +:+ target +:+ "@sip.ringcentral.com"));
        ("Referred-By", Some ("<" +:+ localAddress +:+ ">"))]);;
  id ← newClosure;
  softphone_on (NotifyHandler id).

(** [hangup()] *)
Definition hangup : M unit :=
  s ← gets self;
  p ← gets (softphone ∘ env);
  b ← draw branch;
  softphone_send
    (RequestMessage ("BYE sip:" +:+ sipInfo_domain p +:+ " SIP/2.0")
       [("Call-ID", callId s);
        ("From", localPeer s);
        ("To", remotePeer s);
        ("Via", Some ("SIP/2.0/TLS " +:+ fakeDomain p +:+ ";branch=" +:+ b))]).
(** The keypad characters, in event-code order: ['0'..'9'] are 0..9,
    ['*'] is 10, ['#'] is 11. *)
Definition phoneChars : list string :=
  ["0"; "1"; "2"; "3"; "4"; "5"; "6"; "7"; "8"; "9"; "*"; "#"].

Fixpoint indexOf (x : string) (l : list string) : option nat :=
  match l with
  | [] => None
  | y :: r => if String.eqb x y then Some O else S <$> indexOf x r
  end.

(** Modelled from the spec: [DTMF.charToPayloads] (source file [dtmf] not
    available). Section 4.1: "input restricted to [{0-9,*,#}]; produces a
    short, fixed-length sequence of telephone-event payloads encoding that
    character"; section 7: "InvalidDtmfChar: called with an out-of-range
    character, rejected before any I/O". The payload bytes of an event code
    are the collaborator table [eventPayloads]. *)
Definition charToPayloads (char : string) : M (list Buffer) :=
  match indexOf char phoneChars with
  | Some code => mret (eventPayloads (Z.of_nat code))
  | None => throw InvalidDtmfChar
  end.

(** [this.srtpSession.encrypt(payload, header)]; the field is [undefined]
    until the remote key has been set. *)
Definition encrypt (data : Buffer) (h : RtpHeader) : M Buffer :=
  fun w =>
    match srtpSession (self w) with
    | None => (Throw TypeError, w)
    | Some ctx =>
        let '(r, ctx') := srtp_encrypt ctx data h in
        (match r with
         | Some b => Ok b
         | None => Throw (CollaboratorError "encrypt")
         end,
         withEnv (fun e => setCryptoCalls (S (cryptoCalls e)) e)
           (withSelf (setSrtpSession (Some ctx')) w))
    end.

(** [this.srtpSession.decrypt(message)] *)
Definition decrypt (message : Buffer) : M Buffer :=
  fun w =>
    match srtpSession (self w) with
    | None => (Throw TypeError, w)
    | Some ctx =>
        let '(r, ctx') := srtp_decrypt ctx message in
        (match r with
         | Some b => Ok b
         | None => Throw (CollaboratorError "decrypt")
         end,
         withEnv (fun e => setCryptoCalls (S (cryptoCalls e)) e)
           (withSelf (setSrtpSession (Some ctx')) w))
    end.

Definition setSequenceNumber (n : Z) (h : RtpHeader) : RtpHeader :=
  mkRtpHeader (version h) (padding h) (paddingSize h) (extension h) (marker h)
    (payloadOffset h) (payloadType h) n (timestamp h) (ssrc h) (csrcLength h)
    (csrc h) (extensionProfile h) (extensionLength h) (extensions h).

(** The [for (const payload of ...)] loop of [sendDTMF]: the one header
    object gets the next sequence number, the packet is encrypted and sent. *)
Fixpoint sendPayloads (rtpHeader : RtpHeader) (sequenceNumber : Z)
    (payloads : list Buffer) : M unit :=
  match payloads with
  | [] => mret tt
  | p :: rest =>
      let rtpHeader := setSequenceNumber sequenceNumber rtpHeader in
      let rtpPacket := mkRtpPacket rtpHeader p in
      data ← encrypt (payload rtpPacket) (header rtpPacket);
      send (Bytes data);;
      sendPayloads rtpHeader (sequenceNumber + 1) rest
  end.

(** [sendDTMF(char)]. The parameter type of the source is the union of the
    twelve keypad literals; at run time the argument is a string. *)
Definition sendDTMF (char : string) : M unit :=
  ms ← gets (now ∘ env);
  let timestamp := ms / 1000 in
  let sequenceNumber := Z.rem timestamp 65536 in
  random ← draw randomInt;
  let rtpHeader :=
    mkRtpHeader 2 false 0 false false 12 101 sequenceNumber timestamp random
      0 [] 48862 None [] in
  payloads ← charToPayloads char;
  sendPayloads rtpHeader sequenceNumber payloads.

(** [dispose()] *)
Definition dispose : M unit :=
  modify (withSelf (setDisposed true));;
  emit EvDisposed;;
  removeAllListeners;;
  socket_removeAllListeners;;
  socket_close.

(** The ['message'] listener [startLocalServices] attaches to the socket.
    [if (char)] is false for [undefined] and for the empty string; in the
    audio branch the payload of the same packet object is replaced by the
    decoded audio before ['audioPacket'] is emitted. *)
Definition onMessage (message : Buffer) : M unit :=
  plain ← decrypt message;
  rtpPacket ← orThrow (CollaboratorError "deSerialize") (deSerialize plain);
  emit (EvRtpPacket rtpPacket);;
  if Z.eqb (payloadType (header rtpPacket)) 101 then
    emit (EvDtmfPacket rtpPacket);;
    match payloadToChar (payload rtpPacket) with
    | Some (String c r) => emit (EvDtmf (String c r))
    | _ => mret tt
    end
  else
    decoded ← orThrow (CollaboratorError "decode") (opus_decode (payload rtpPacket));
    emit (EvAudioPacket (mkRtpPacket (header rtpPacket) decoded)).

(** The closure [byeHandler] of [startLocalServices]. Reading [.endsWith]
    of a missing [CSeq] header raises a [TypeError]. *)
Definition byeHandler (id : nat) (inboundMessage : InboundMessage) : M unit :=
  s ← gets self;
  if negb (bool_decide (headers inboundMessage !! "Call-ID" = callId s)) then mret tt
  else if JsString.endsWith (subject inboundMessage) "486 Busy Here" then
    softphone_off (ByeHandler id);;
    emit EvBusy;;
    dispose
  else
    cseq ← orThrow TypeError (headers inboundMessage !! "CSeq");
    if JsString.endsWith cseq " BYE" then
      softphone_off (ByeHandler id);;
      dispose
    else mret tt.

(** [startLocalServices()] *)
Definition startLocalServices : M unit :=
  createSocket;;
  socket_onMessage;;
  socket_bind;;
  send (Text "hello");;
  id ← newClosure;
  softphone_on (ByeHandler id).

(** *** The event loop *)

Definition runClosure (h : Closure) (m : InboundMessage) : M unit :=
  match h with
  | ByeHandler id => byeHandler id m
  | NotifyHandler id => notifyHandler id m
  end.

Fixpoint callEach (hs : list Closure) (m : InboundMessage) : M unit :=
  match hs with
  | [] => mret tt
  | h :: r => runClosure h m;; callEach r m
  end.

(** Modelled from the spec: the softphone emitting ['message'] for an
    inbound SIP message (section 6, "an event stream of inbound structured
    SIP messages"). As an event emitter does, it calls the listeners
    registered when the emission starts, in order. *)
Definition softphone_message (m : InboundMessage) : M unit :=
  hs ← gets (messageListeners ∘ softphone ∘ env);
  callEach hs m.

(** The socket emitting ['message'] for an inbound datagram: a closed
    socket or one without listener delivers nothing. *)
Definition socket_message (message : Buffer) : M unit :=
  k ← gets (socket ∘ self);
  match k with
  | Some k => if messageListener k && running k then onMessage message else mret tt
  | None => mret tt
  end.

(** What can happen to a started session: the application calls a public
    method or attaches a listener, the signaling channel delivers a SIP
    message, the socket delivers a datagram. *)
Inductive Action :=
| CallSend (data : Datagram)
| CallTransfer (target : string)
| CallHangup
| CallSendDTMF (char : string)
| CallOn (name : string) (listener : nat)
| InboundSip (m : InboundMessage)
| InboundDatagram (message : Buffer).

Definition perform (a : Action) : M unit :=
  match a with
  | CallSend data => send data
  | CallTransfer target => transfer target
  | CallHangup => hangup
  | CallSendDTMF char => sendDTMF char
  | CallOn name listener => on name listener
  | InboundSip m => softphone_message m
  | InboundDatagram message => socket_message message
  end.

(** A run of actions; an exception of one action (a rejected promise, an
    exception reported by the host) leaves the state as it is at that point
    and the next action goes on from there. *)
Fixpoint performAll (l : list Action) (w : World) : World :=
  match l with
  | [] => w
  | a :: r => performAll r (exec (perform a) w)
  end.

(** The host's default for an exception escaping a listener is to stop:
    datagrams are handled in order until one handler raises. *)
Fixpoint receiveAll (l : list Buffer) : M unit :=
  match l with
  | [] => mret tt
  | message :: r => socket_message message;; receiveAll r
  end.

End Session.

(** ** What the specification calls a session-description line *)

(** The body has a [c=IN IP4 <ip>] line: the literal followed by at least
    one digit or dot. *)
Definition hasConnectionLine (body : string) : Prop :=
  ∃ pre ip post,
    body = pre +:+ "c=IN IP4 " +:+ ip +:+ post ∧
    ip ≠ "" ∧ JsString.allChars JsString.isDigitOrDot ip = true.

(** The body has an [m=audio <port> ] line: the literal, at least one
    digit, a space. *)
Definition hasAudioLine (body : string) : Prop :=
  ∃ pre port post,
    body = pre +:+ "m=audio " +:+ port +:+ " " +:+ post ∧
    port ≠ "" ∧ JsString.allChars JsString.isDigit port = true.

(** ** Observations on a world *)

Section Observations.
Context `{C : Collaborators}.

Definition registry (w : World) : list Closure :=
  messageListeners (softphone (env w)).

Definition outbox (w : World) : list OutboundMessage :=
  sent (softphone (env w)).

Definition socketCalls (w : World) : list SocketCall :=
  match socket (self w) with
  | Some k => calls k
  | None => []
  end.

Definition isClose (c : SocketCall) : bool :=
  match c with
  | SockClose => true
  | _ => false
  end.

Definition closeCount (w : World) : nat := length (filter isClose (socketCalls w)).

Definition isBye (h : Closure) : bool :=
  match h with
  | ByeHandler _ => true
  | NotifyHandler _ => false
  end.

(** A session that has not started its local services: not disposed and
    without a teardown listener on the signaling channel. *)
Definition fresh (w : World) : Prop :=
  disposed (self w) = false ∧ filter isBye (registry w) = [].

(** The socket as the host sees it: whether the datagram listener is
    attached and whether the handle is open; [None] before the socket
    exists. *)
Definition socketState (w : World) : option (bool * bool) :=
  (fun k => (messageListener k, running k)) <$> socket (self w).

(** The state a disposed session is in: no teardown listener left on the
    signaling channel, the socket closed and without datagram listener. *)
Definition quiet (w : World) : Prop :=
  filter isBye (registry w) = [] ∧ socketState w = Some (false, false).

(** What a step that neither disposes nor emits leaves as it was. *)
Definition frame (w w1 : World) : Prop :=
  disposed (self w1) = disposed (self w) ∧
  filter isBye (registry w1) = filter isBye (registry w) ∧
  socketState w1 = socketState w ∧
  emitted (env w1) = emitted (env w) ∧
  delivered (env w1) = delivered (env w).

(** The socket exists, at most one teardown listener is registered, and a
    disposed session is quiet. *)
Definition wellFormed (w : World) : Prop :=
  (length (filter isBye (registry w)) ≤ 1)%nat ∧
  is_Some (socketState w) ∧
  (disposed (self w) = true → quiet w).

(** The request [hangup()] builds. *)
Definition byeRequest (w : World) : OutboundMessage :=
  RequestMessage ("BYE sip:" +:+ sipInfo_domain (softphone (env w)) +:+ " SIP/2.0")
    [("Call-ID", callId (self w));
     ("From", localPeer (self w));
     ("To", remotePeer (self w));
     ("Via", Some ("SIP/2.0/TLS " +:+ fakeDomain (softphone (env w)) +:+
                   ";branch=" +:+ branch (draws (env w))))].

(** The request [transfer(target)] builds, given the two extracted
    addresses. *)
Definition referRequest (w : World) (target remoteAddress localAddress : string)
  : OutboundMessage :=
  RequestMessage ("REFER sip:" +:+ remoteAddress +:+ " SIP/2.0")
    [("Call-ID", callId (self w));
     ("From", localPeer (self w));
     ("To", remotePeer (self w));
     ("Via", Some ("SIP/2.0/TLS " +:+ fakeDomain (softphone (env w)) +:+
                   ";branch=" +:+ branch (draws (env w))));
     ("Refer-To", Some ("sip:" +:+ target +:+ "@sip.ringcentral.com"));
     ("Referred-By", Some ("<" +:+ localAddress +:+ ">"))].

(** The datagram cannot be turned into a packet: decryption with the
    session's context fails, or deserializing the plain text does. *)
Definition undecodable (ctx : SrtpSession) (message : Buffer) : Prop :=
  fst (srtp_decrypt ctx message) = None ∨
  ∃ plain, fst (srtp_decrypt ctx message) = Some plain ∧ deSerialize plain = None.

(** The signaling channel got nothing but responses: [after] extends
    [before] by [ResponseMessage]s only, so by no request such as a BYE. *)
Definition answersOnly (before after : list OutboundMessage) : Prop :=
  ∃ rs, after = before ++ rs ∧
        Forall (fun x => ∃ n code, x = ResponseMessage n code) rs.

(** An operation that stays within the frame from every world. *)
Definition framed {A} (m : M A) : Prop := ∀ w, frame w (exec m w).

(** Calling the listeners registered at the start of an emission: [hs] is
    what remains to be called. *)
Definition pending (hs : list Closure) (w : World) : Prop :=
  wellFormed w ∧
  (length (filter isBye hs) ≤ 1)%nat ∧
  (disposed (self w) = true → filter isBye hs = []) ∧
  (∀ h, h ∈ filter isBye hs → h ∈ filter isBye (registry w)).

End Observations.

(** ** A concrete setting for examples *)

Module Demo.

(** Collaborators for worked examples: the SRTP context counts the packets
    it has seen and refuses an empty datagram; the first byte of a packet is
    its payload type; decoding doubles the payload; a telephone event is a
    two-payload burst; an address is the peer string itself. *)
#[local] Instance collaborators : Collaborators := {|
  SrtpSession := nat;
  srtp_encrypt := fun ctx data _ => (Some data, S ctx);
  srtp_decrypt := fun ctx data =>
    match data with
    | [] => (None, S ctx)
    | _ => (Some data, S ctx)
    end;
  deSerialize := fun data =>
    match data with
    | [] => None
    | b :: r =>
        Some (mkRtpPacket
                (mkRtpHeader 2 false 0 false false 12 (Z.of_N (Byte.to_N b)) 0 0 0
                   0 [] 0 None [])
                r)
    end;
  opus_decode := fun data => Some (data ++ data);
  payloadToChar := fun data =>
    match data with
    | b :: _ => phoneChars !! N.to_nat (Byte.to_N b)
    | [] => None
    end;
  eventPayloads := fun code =>
    match Byte.of_N (Z.to_N code) with
    | Some b => [[b; Byte.x00; Byte.x00; Byte.xa0]; [b; Byte.x80; Byte.x01; Byte.x40]]
    | None => []
    end;
  extractAddress := fun peer => peer;
  branch := fun _ => "z9hG4bK";
  randomInt := fun n => Z.of_nat n
|}.

Definition invite : InboundMessage :=
  mkInbound "SIP/2.0 200 OK"
    {[ "Call-ID" := "call-A"; "CSeq" := "1 INVITE" ]}
    ("v=0" +:+ String "010" ("c=IN IP4 10.0.0.7" +:+ String "010"
       ("m=audio 40002 RTP/SAVP 0 101" +:+ String "010" ""))).

Definition phone : Softphone := mkSoftphone "fake.example" "sip.example" [] [].

Definition env0 : Env := mkEnv phone [] [] 0 0 1700000000123 0 0 [].

(** The session built from [invite], with peers and remote key set as a
    concrete subclass does, and one application listener (number 7) on
    ['disposed']. *)
Definition session0 : CallSession :=
  match fst (constructor invite env0) with
  | Ok s =>
      mkCallSession (sipMessage s) (socket s) (Some "alice@sip.example")
        (Some "bob@sip.example") (remoteIP s) (remotePort s) (disposed s)
        (Some O) [("disposed", 7%nat)]
  | Throw _ => mkCallSession invite None None None "" 0 false None []
  end.

Definition world0 : World := mkWorld session0 env0.

(** [world0] after [startLocalServices()]. *)
Definition started : World := exec startLocalServices world0.

Definition bye : InboundMessage :=
  mkInbound "BYE sip:alice@sip.example SIP/2.0"
    {[ "Call-ID" := "call-A"; "CSeq" := "2 BYE" ]} "".

Definition busyHere : InboundMessage :=
  mkInbound "SIP/2.0 486 Busy Here"
    {[ "Call-ID" := "call-A"; "CSeq" := "1 INVITE" ]} "".

(** A final transfer notification that belongs to another call. *)
Definition foreignNotify : InboundMessage :=
  mkInbound "NOTIFY sip:carol@sip.example SIP/2.0"
    {[ "Call-ID" := "call-B"; "CSeq" := "3 NOTIFY" ]} "SIP/2.0 200 OK".

Definition audio1 : Buffer := [Byte.x00; Byte.x11; Byte.x22].
Definition undecryptable : Buffer := [].
Definition audio2 : Buffer := [Byte.x00; Byte.x33].

(** An offer without an audio media line. *)
Definition offerWithoutAudio : InboundMessage :=
  mkInbound "INVITE sip:alice@sip.example SIP/2.0"
    {[ "Call-ID" := "call-C" ]}
    ("v=0" +:+ String "010" ("c=IN IP4 10.0.0.7" +:+ String "010" "")).

(** What [audio1] deserializes to. *)
Definition packet1 : RtpPacket :=
  mkRtpPacket (mkRtpHeader 2 false 0 false false 12 0 0 0 0 0 [] 0 None [])
    [Byte.x11; Byte.x22].

(** [started] after the peer's BYE has been handled: the session is
    disposed. *)
Definition ended : World := exec (softphone_message bye) started.

(** [started] after [transfer("18005551212")]. *)
Definition transferring : World := exec (transfer "18005551212") started.

End Demo.

(** * More of the class *)

(** ** The remote key *)

(** What [new SrtpSession({profile, keys})] is given. *)
Record SrtpConfig := mkSrtpConfig {
  profile : Z;
  localMasterKey : Buffer;
  localMasterSalt : Buffer;
  remoteMasterKey : Buffer;
  remoteMasterSalt : Buffer
}.

(** Collaborators of the key setter: [Buffer.from(s, 'base64')], the
    process-wide [localKey] imported from [../utils], and the constructor
    of the SRTP context ([None] when it raises). *)
Class KeyCollaborators `{C : Collaborators} := {
  fromBase64 : string -> Buffer;
  localKey : string;
  newSrtpSession : SrtpConfig -> option SrtpSession
}.

(** [buffer.subarray(start, end)] for [0 <= start <= end]: an index beyond
    the length is clamped to it. *)
Definition subarray (start stop : nat) (b : Buffer) : Buffer :=
  take (stop - start) (drop start b).

Section KeySetter.
Context `{K : KeyCollaborators}.

(** The argument object of [new SrtpSession] in the setter. *)
Definition keyConfig (key : string) : SrtpConfig :=
  let localKeyBuffer := fromBase64 localKey in
  let remoteKeyBuffer := fromBase64 key in
  mkSrtpConfig 1
    (subarray 0 16 localKeyBuffer) (subarray 16 30 localKeyBuffer)
    (subarray 0 16 remoteKeyBuffer) (subarray 16 30 remoteKeyBuffer).

(** [set remoteKey(key)] *)
Definition set_remoteKey (key : string) : M unit :=
  match newSrtpSession (keyConfig key) with
  | Some ctx => modify (withSelf (setSrtpSession (Some ctx)))
  | None => throw (CollaboratorError "SrtpSession")
  end.

End KeySetter.

(** ** More observations *)

(** No match of an unanchored expression starts inside [pre] when [post]
    follows it. *)
Definition leftmost {A} (at_start : string -> option A) (pre post : string) : Prop :=
  ∀ p1 p2, pre = p1 +:+ p2 → p2 ≠ "" → at_start (p2 +:+ post) = None.

(** A greedy character class stopped at [rest]: the end of the string or a
    character outside the class. *)
Definition stopsAt (f : ascii -> bool) (rest : string) : Prop :=
  match rest with
  | EmptyString => True
  | String c _ => f c = false
  end.

Section MoreObservations.
Context `{C : Collaborators}.

Definition isDisposedEvent (e : Event) : bool :=
  match e with
  | EvDisposed => true
  | _ => false
  end.

(** How often ['disposed'] has been emitted. *)
Definition disposals (w : World) : nat :=
  length (filter isDisposedEvent (emitted (env w))).

(** Disposal has happened exactly as often as the flag says: not at all, or
    once. *)
Definition once (w : World) : Prop :=
  closeCount w = Nat.b2n (disposed (self w)) ∧
  disposals w = Nat.b2n (disposed (self w)).

(** A socket operation other than a send to an endpoint different from
    [(address, port)]. *)
Definition addressedTo (address : string) (port : JsNumber) (c : SocketCall)
  : Prop :=
  match c with
  | SockSend _ p a => p = port ∧ a = address
  | _ => True
  end.

Definition isSend (c : SocketCall) : bool :=
  match c with
  | SockSend _ _ _ => true
  | _ => false
  end.

(** A request carries exactly one Call-ID header, with value [cid]; a
    response is built from the inbound message it answers. *)
Definition carriesCallId (cid : option string) (m : OutboundMessage) : Prop :=
  match m with
  | RequestMessage _ hs => filter (fun p => fst p = "Call-ID") hs = [("Call-ID", cid)]
  | ResponseMessage _ _ => True
  end.

(** From [w] to [w1] the identity of the call is kept (the message the
    session was built from, the remote endpoint), the socket has only seen
    further operations, all sends going to that endpoint, and the signaling
    channel has only got further messages, all requests carrying the
    session's Call-ID. *)
Definition extends (w w1 : World) : Prop :=
  sipMessage (self w1) = sipMessage (self w) ∧
  remoteIP (self w1) = remoteIP (self w) ∧
  remotePort (self w1) = remotePort (self w) ∧
  (∃ cs, socketCalls w1 = socketCalls w ++ cs ∧
         Forall (addressedTo (remoteIP (self w)) (remotePort (self w))) cs) ∧
  (∃ ms, outbox w1 = outbox w ++ ms ∧
         Forall (carriesCallId (callId (self w))) ms).

(** A step that extends the world without disposing: the flag, the number
    of closes and the number of ['disposed'] emissions are as before. *)
Definition keeps (w w1 : World) : Prop :=
  extends w w1 ∧
  disposed (self w1) = disposed (self w) ∧
  closeCount w1 = closeCount w ∧
  disposals w1 = disposals w.

Definition keeping {A} (m : M A) : Prop := ∀ w, keeps w (exec m w).

(** One step of a run: the world is extended, and disposal stays
    exactly-once. *)
Definition advances (w w1 : World) : Prop :=
  extends w w1 ∧ (once w → once w1).

(** The packets [sendDTMF] builds from the payloads of a character: the
    header of the call with sequence numbers counting up from [start]. *)
Fixpoint dtmfPackets (h : RtpHeader) (start : Z) (payloads : list Buffer)
  : list RtpPacket :=
  match payloads with
  | [] => []
  | p :: rest =>
      mkRtpPacket (setSequenceNumber start h) p :: dtmfPackets h (start + 1) rest
  end.

(** Encrypting and sending packets one after the other. *)
Fixpoint sendEach (packets : list RtpPacket) : M unit :=
  match packets with
  | [] => mret tt
  | pkt :: rest =>
      data ← encrypt (payload pkt) (header pkt);
      send (Bytes data);;
      sendEach rest
  end.

(** The header [sendDTMF] starts from at time [ms] with random value
    [random]. *)
Definition dtmfHeader (ms random : Z) : RtpHeader :=
  mkRtpHeader 2 false 0 false false 12 101 (Z.rem (ms / 1000) 65536) (ms / 1000)
    random 0 [] 48862 None [].

Definition isNotifyHandler (h : Closure) : bool := negb (isBye h).

(** A message the teardown listener of session [s] has nothing to do with:
    it belongs to another call, or it is neither a "486 Busy Here" nor has
    a CSeq ending in " BYE". *)
Definition standsAside (m : InboundMessage) (s : CallSession) : Prop :=
  headers m !! "Call-ID" ≠ callId s ∨
  (JsString.endsWith (subject m) "486 Busy Here" = false ∧
   ∃ cseq, headers m !! "CSeq" = Some cseq ∧ JsString.endsWith cseq " BYE" = false).

Definition closureId (h : Closure) : nat :=
  match h with
  | ByeHandler id => id
  | NotifyHandler id => id
  end.

(** The registered closures are distinct and were all handed out by the
    counter of closure identities. *)
Definition distinctClosures (w : World) : Prop :=
  NoDup (registry w) ∧
  Forall (fun h => (closureId h < closures (env w))%nat) (registry w).

(** The session's socket, if it has one, is closed. *)
Definition closed (w : World) : Prop :=
  match socket (self w) with
  | Some k => running k = false
  | None => True
  end.

(** An operation that, on a closed socket, leaves the socket closed and
    hands no datagram over for transmission. *)
Definition offWire {A} (m : M A) : Prop :=
  ∀ w, closed w → closed (exec m w) ∧ wire (env (exec m w)) = wire (env w).

(** An operation that leaves the registered closures and the counter of
    identities as they are. *)
Definition still {A} (m : M A) : Prop :=
  ∀ w, registry (exec m w) = registry w ∧
       closures (env (exec m w)) = closures (env w).

End MoreObservations.

Module DemoKeys.

(** Key collaborators for worked examples: a "base64" string is read as its
    bytes, and a context is only built from a 16-byte key and 14-byte salt
    for each side. *)
#[local] Instance keys : KeyCollaborators (C := Demo.collaborators) := {|
  fromBase64 := fun s => list_byte_of_string s;
  localKey := "0123456789abcdef0123456789ABCD";
  newSrtpSession := fun cfg =>
    if ((length (localMasterKey cfg) =? 16) && (length (localMasterSalt cfg) =? 14) &&
        (length (remoteMasterKey cfg) =? 16) && (length (remoteMasterSalt cfg) =? 14))%nat
    then Some (O : @SrtpSession Demo.collaborators) else None
|}.

End DemoKeys.

Module DemoMore.

(** The session as construction leaves it: peers and key not yet set. *)
Definition bare : World :=
  match fst (constructor (C := Demo.collaborators) Demo.invite Demo.env0) with
  | Ok s => mkWorld s Demo.env0
  | Throw _ => Demo.world0
  end.

Definition ringing : InboundMessage :=
  mkInbound "SIP/2.0 180 Ringing"
    {[ "Call-ID" := "call-A"; "CSeq" := "1 INVITE" ]} "".

Definition withoutCSeq : InboundMessage :=
  mkInbound "SIP/2.0 200 OK" {[ "Call-ID" := "call-A" ]} "".

(** A final transfer notification of the session's own call. *)
Definition ownNotify : InboundMessage :=
  mkInbound "NOTIFY sip:alice@sip.example SIP/2.0"
    {[ "Call-ID" := "call-A"; "CSeq" := "3 NOTIFY" ]} "SIP/2.0 200 OK".

(** An offer whose audio line names port 0, and the session built from
    it. *)
Definition portZero : InboundMessage :=
  mkInbound "SIP/2.0 200 OK"
    {[ "Call-ID" := "call-A"; "CSeq" := "1 INVITE" ]}
    ("v=0" +:+ String "010" ("c=IN IP4 10.0.0.7" +:+ String "010"
       ("m=audio 0 RTP/SAVP 0 101" +:+ String "010" ""))).

Definition unreachable : World :=
  match fst (constructor (C := Demo.collaborators) portZero Demo.env0) with
  | Ok s => mkWorld s Demo.env0
  | Throw _ => Demo.world0
  end.

(** A telephone-event datagram (payload type 101) for the key '5'. *)
Definition digit5 : Buffer := [Byte.x65; Byte.x05].

Definition packet5 : RtpPacket :=
  mkRtpPacket (mkRtpHeader 2 false 0 false false 12 101 0 0 0 0 [] 0 None [])
    [Byte.x05].

(** Collaborators whose decoder refuses an empty payload. *)
#[local] Instance strict : Collaborators := {|
  SrtpSession := nat;
  srtp_encrypt := fun ctx data _ => (Some data, S ctx);
  srtp_decrypt := fun ctx data => (Some data, S ctx);
  deSerialize := fun data =>
    match data with
    | [] => None
    | b :: r =>
        Some (mkRtpPacket
                (mkRtpHeader 2 false 0 false false 12 (Z.of_N (Byte.to_N b)) 0 0 0
                   0 [] 0 None [])
                r)
    end;
  opus_decode := fun data =>
    match data with
    | [] => None
    | _ => Some data
    end;
  payloadToChar := fun _ => None;
  eventPayloads := fun _ => [];
  extractAddress := fun peer => peer;
  branch := fun _ => "z9hG4bK";
  randomInt := fun n => Z.of_nat n
|}.

(** A started session over [strict]. *)
Definition strictWorld : World (C := strict) :=
  mkWorld
    (mkCallSession Demo.invite (Some (mkSocket true true [])) None None
       "10.0.0.7" 40002 false (Some (O : @SrtpSession strict)) [])
    Demo.env0.

(** An audio datagram with an empty payload. *)
Definition silence : Buffer := [Byte.x00].

Definition emptyPacket : RtpPacket :=
  mkRtpPacket (mkRtpHeader 2 false 0 false false 12 0 0 0 0 0 [] 0 None []) [].

End DemoMore.

(** * Facts *)

(** ** Strings and the two regular expressions *)

Lemma app_nil_l_str (s : string) : "" +:+ s = s.
Proof. reflexivity. Qed.

Lemma app_cons_str (c : ascii) (s r : string) :
  String c s +:+ r = String c (s +:+ r).
Proof. reflexivity. Qed.

Ltac str_simpl :=
  repeat (rewrite ?app_nil_l_str, ?app_cons_str in *; simpl in *).

Lemma app_empty_r (s : string) : s +:+ "" = s.
Proof. induction s as [|c s IH]; str_simpl; [done | by rewrite IH]. Qed.

Lemma app_assoc_str (a b c : string) : (a +:+ b) +:+ c = a +:+ (b +:+ c).
Proof. induction a as [|x a IH]; str_simpl; [done | by rewrite IH]. Qed.

Lemma startsWith_spec (s p : string) :
  JsString.startsWith s p = true ↔ ∃ r, s = p +:+ r.
Proof.
  revert s. induction p as [|a p IH]; intros s; simpl.
  - split; [intros _; by exists s | done].
  - destruct s as [|b s].
    + split; [done | intros [r Hr]; discriminate].
    + destruct (Ascii.eqb_spec a b) as [->|Hne].
      * rewrite IH. split; intros [r Hr]; exists r; str_simpl; congruence.
      * split; [done | intros [r Hr]; str_simpl; congruence].
Qed.

Lemma stripPrefix_spec (p s r : string) :
  JsString.stripPrefix p s = Some r ↔ s = p +:+ r.
Proof.
  revert s. induction p as [|a p IH]; intros s; simpl.
  - str_simpl. split; congruence.
  - destruct s as [|b s]; [split; discriminate|].
    destruct (Ascii.eqb_spec a b) as [->|Hne].
    + rewrite IH. str_simpl. split; congruence.
    + str_simpl. split; [done | congruence].
Qed.

Lemma endsWith_nil (suf : string) :
  JsString.endsWith "" suf = String.eqb "" suf.
Proof. unfold JsString.endsWith. apply orb_false_r. Qed.

Lemma endsWith_cons (c : ascii) (s suf : string) :
  JsString.endsWith (String c s) suf =
  String.eqb (String c s) suf || JsString.endsWith s suf.
Proof. reflexivity. Qed.

Lemma endsWith_spec (s suf : string) :
  JsString.endsWith s suf = true ↔ ∃ pre, s = pre +:+ suf.
Proof.
  induction s as [|c s IH].
  - rewrite endsWith_nil, String.eqb_eq. split.
    + intros <-. by exists "".
    + intros [[|x pre] H]; str_simpl; [done | discriminate].
  - rewrite endsWith_cons, orb_true_iff, String.eqb_eq, IH. split.
    + intros [<- | [pre ->]]; [by exists "" | by exists (String c pre)].
    + intros [[|x pre] H]; str_simpl; [by left | right].
      exists pre. congruence.
Qed.

Lemma search_None {A} (f : string → option A) (s : string) :
  JsString.search f s = None ↔ ∀ pre post, s = pre +:+ post → f post = None.
Proof.
  induction s as [|c s IH]; simpl.
  - destruct (f "") eqn:E.
    + split; [done | intros H; by rewrite (H "" "") in E].
    + split; [|done]. intros _ [|x pre] post H; str_simpl; [by subst | discriminate].
  - destruct (f (String c s)) eqn:E.
    + split; [done | intros H; by rewrite (H "" (String c s)) in E].
    + rewrite IH. split.
      * intros H [|x pre] post Heq; str_simpl; [by subst|].
        apply (H pre). congruence.
      * intros H pre post ->. by apply (H (String c pre)).
Qed.

Lemma search_Some {A} (f : string → option A) (s : string) (r : A) :
  JsString.search f s = Some r → ∃ pre post, s = pre +:+ post ∧ f post = Some r.
Proof.
  induction s as [|c s IH]; simpl.
  - destruct (f "") eqn:E; [|done]. intros [= ->]. by exists "", "".
  - destruct (f (String c s)) eqn:E.
    + intros [= ->]. by exists "", (String c s).
    + intros H. destruct (IH H) as (pre & post & -> & Hf).
      by exists (String c pre), post.
Qed.

Lemma span_app (f : ascii → bool) (s : string) :
  fst (JsString.span f s) +:+ snd (JsString.span f s) = s.
Proof.
  induction s as [|c s IH]; simpl; [done|].
  destruct (f c); [|done].
  destruct (JsString.span f s) as [a b]; str_simpl. by rewrite IH.
Qed.

Lemma span_all (f : ascii → bool) (s : string) :
  JsString.allChars f (fst (JsString.span f s)) = true.
Proof.
  induction s as [|c s IH]; simpl; [done|].
  destruct (f c) eqn:E; [|done].
  destruct (JsString.span f s) as [a b]; simpl in *.
  unfold JsString.allChars in *. simpl. by rewrite E, IH.
Qed.

(** A run of class characters followed by a character outside the class is
    exactly what the greedy loop consumes. *)
Lemma span_stop (f : ascii → bool) (a : string) (c : ascii) (r : string) :
  JsString.allChars f a = true → f c = false →
  JsString.span f (a +:+ String c r) = (a, String c r).
Proof.
  intros Ha Hc. induction a as [|x a IH]; str_simpl.
  - by rewrite Hc.
  - unfold JsString.allChars in Ha. simpl in Ha.
    apply andb_true_iff in Ha as [Hx Ha]. rewrite Hx, (IH Ha). done.
Qed.

(** A non-empty run of class characters makes the capture non-empty,
    whatever follows. *)
Lemma span_nonempty (f : ascii → bool) (a r : string) :
  a ≠ "" → JsString.allChars f a = true →
  fst (JsString.span f (a +:+ r)) ≠ "".
Proof.
  intros Hne Ha. destruct a as [|x a]; [done|]. str_simpl.
  unfold JsString.allChars in Ha. simpl in Ha.
  apply andb_true_iff in Ha as [Hx _]. rewrite Hx.
  by destruct (JsString.span f (a +:+ r)).
Qed.

Lemma connectionAt_Some (s cap : string) :
  connectionAt s = Some cap →
  ∃ post, s = "c=IN IP4 " +:+ cap +:+ post ∧
          cap ≠ "" ∧ JsString.allChars JsString.isDigitOrDot cap = true.
Proof.
  unfold connectionAt.
  destruct (JsString.stripPrefix "c=IN IP4 " s) as [r|] eqn:Hp; [|done].
  apply stripPrefix_spec in Hp.
  pose proof (span_app JsString.isDigitOrDot r) as Happ.
  pose proof (span_all JsString.isDigitOrDot r) as Hall.
  destruct (fst (JsString.span JsString.isDigitOrDot r)) as [|c cap'] eqn:Hc; [done|].
  intros [= <-]. exists (snd (JsString.span JsString.isDigitOrDot r)).
  by rewrite Happ.
Qed.

Lemma connectionAt_complete (ip post : string) :
  ip ≠ "" → JsString.allChars JsString.isDigitOrDot ip = true →
  connectionAt ("c=IN IP4 " +:+ ip +:+ post) ≠ None.
Proof.
  intros Hne Hall. unfold connectionAt.
  rewrite (proj2 (stripPrefix_spec "c=IN IP4 " _ (ip +:+ post)) eq_refl).
  pose proof (span_nonempty JsString.isDigitOrDot ip post Hne Hall) as H.
  by destruct (fst (JsString.span JsString.isDigitOrDot (ip +:+ post))).
Qed.

Lemma audioAt_Some (s cap : string) :
  audioAt s = Some cap →
  ∃ post, s = "m=audio " +:+ cap +:+ " " +:+ post ∧
          cap ≠ "" ∧ JsString.allChars JsString.isDigit cap = true.
Proof.
  unfold audioAt.
  destruct (JsString.stripPrefix "m=audio " s) as [r|] eqn:Hp; [|done].
  apply stripPrefix_spec in Hp.
  pose proof (span_app JsString.isDigit r) as Happ.
  pose proof (span_all JsString.isDigit r) as Hall.
  destruct (JsString.span JsString.isDigit r) as [[|c cap'] rest]; [done|].
  destruct rest as [|x rest]; [done|].
  destruct (Ascii.eqb_spec x " "%char) as [->|Hx].
  - intros [= <-]. exists rest. simpl in Happ, Hall. by rewrite <- Happ in Hp.
  - intros H. exfalso. revert H.
    destruct x as [[] [] [] [] [] [] [] []]; done.
Qed.

Lemma audioAt_complete (port post : string) :
  port ≠ "" → JsString.allChars JsString.isDigit port = true →
  audioAt ("m=audio " +:+ port +:+ " " +:+ post) = Some port.
Proof.
  intros Hne Hall. unfold audioAt.
  rewrite (proj2 (stripPrefix_spec "m=audio " _ (port +:+ " " +:+ post)) eq_refl).
  change (" " +:+ post) with (String " " post).
  rewrite (span_stop JsString.isDigit port " " post Hall eq_refl).
  by destruct port.
Qed.

(** The first regular expression finds nothing exactly when the body has no
    connection line. *)
Lemma search_connection_None (body : string) :
  JsString.search connectionAt body = None ↔ ¬ hasConnectionLine body.
Proof.
  rewrite search_None. split.
  - intros H (pre & ip & post & -> & Hne & Hall).
    by apply (connectionAt_complete ip post Hne Hall), (H pre).
  - intros H pre post ->.
    destruct (connectionAt post) as [cap|] eqn:E; [|done].
    destruct (connectionAt_Some _ _ E) as (rest & -> & Hne & Hall).
    destruct H. by exists pre, cap, rest.
Qed.

(** The second regular expression finds nothing exactly when the body has
    no audio media line. *)
Lemma search_audio_None (body : string) :
  JsString.search audioAt body = None ↔ ¬ hasAudioLine body.
Proof.
  rewrite search_None. split.
  - intros H (pre & port & post & -> & Hne & Hall).
    specialize (H pre _ eq_refl). by rewrite audioAt_complete in H.
  - intros H pre post ->.
    destruct (audioAt post) as [cap|] eqn:E; [|done].
    destruct (audioAt_Some _ _ E) as (rest & -> & Hne & Hall).
    destruct H. by exists pre, cap, rest.
Qed.

Example startsWith_notify :
JsString.startsWith "NOTIFY sip:a@b SIP/2.0" "NOTIFY " = true.
Proof. vm_compute. reflexivity. Qed.

Example endsWith_busy :
JsString.endsWith "SIP/2.0 486 Busy Here" "486 Busy Here" = true.
Proof. vm_compute. reflexivity. Qed.

Example trim_body :
JsString.trim (String "010" (String " " "SIP/2.0 200 OK" +:+ String "013" (String "010" ""))) = "SIP/2.0 200 OK".
Proof. vm_compute. reflexivity. Qed.

Example parseInt10_rounds :
  JsString.parseInt10 "9007199254740993" = 9007199254740992 ∧
  JsString.parseInt10 "9007199254740995" = 9007199254740996 ∧
  JsString.parseInt10 "65536" = 65536 ∧
  JsString.parseInt10 "007" = 7.
Proof. repeat split; vm_compute; reflexivity. Qed.

Example parseInt10_overflows :
  JsString.toDouble (2 ^ 1024 - 2 ^ 970 - 1) = Integer (2 ^ 1024 - 2 ^ 971) ∧
  JsString.toDouble (2 ^ 1024 - 2 ^ 970) = Infinity ∧
  JsString.parseInt10 (string_of_list_ascii (repeat "9"%char 309)) = Infinity.
Proof. repeat split; vm_compute; reflexivity. Qed.

Example parseInt10_port : JsString.parseInt10 "40002" = 40002.
Proof. vm_compute. reflexivity. Qed.

Example regex_connection :
  JsString.search connectionAt (body Demo.invite) = Some "10.0.0.7".
Proof. vm_compute. reflexivity. Qed.

Example regex_audio :
  JsString.search audioAt (body Demo.invite) = Some "40002".
Proof. vm_compute. reflexivity. Qed.

Example regex_audio_needs_space :
  JsString.search audioAt "m=audio 40002" = None.
Proof. vm_compute. reflexivity. Qed.

(** ** Construction *)

Section Construction.
Context `{C : Collaborators}.

(** Construction does not touch the environment, whatever the message. *)
Lemma constructor_env (m : InboundMessage) (e : Env) :
  snd (constructor m e) = e.
Proof.
  unfold constructor.
  destruct (JsString.search connectionAt (body m)); [|done].
  by destruct (JsString.search audioAt (body m)).
Qed.

(** C7: a message whose body lacks an [m=audio <port> ] line, or lacks a
    [c=IN IP4 <ip>] line, cannot be made into a session: construction
    raises (the same [TypeError] every time, the constructor being a
    function of the message), no session object exists, and the environment
    is untouched: no socket has been created. *)
Theorem C7_malformed_offer_fails (m : InboundMessage) (e : Env) :
  ¬ hasAudioLine (body m) ∨ ¬ hasConnectionLine (body m) →
  constructor m e = (Throw TypeError, e) ∧
  socketsCreated (snd (constructor m e)) = socketsCreated e.
Proof.
  intros H. rewrite constructor_env. split; [|done].
  unfold constructor.
  destruct H as [H|H].
  - apply search_audio_None in H. rewrite H.
    by destruct (JsString.search connectionAt (body m)).
  - apply search_connection_None in H. by rewrite H.
Qed.

End Construction.

(** ** Running the methods *)

#[global] Arguments JsString.startsWith : simpl never.
#[global] Arguments JsString.endsWith : simpl never.
#[global] Arguments JsString.trim : simpl never.
#[global] Arguments JsString.toDouble : simpl never.
#[global] Arguments validPort : simpl never.
#[local] Arguments String.eqb : simpl never.

Create HintDb ops discriminated.

#[global] Hint Unfold exec outcome mbind M_bind mret M_ret throw gets modify
  orThrow emit on removeAllListeners softphone_send softphone_on softphone_off
  newClosure draw createSocket onSocket socket_onMessage
  socket_removeAllListeners socket_bind socket_send socket_close send
  notifyHandler transfer hangup charToPayloads encrypt decrypt sendDTMF
  dispose onMessage byeHandler startLocalServices runClosure
  softphone_message socket_message perform
  registry outbox socketCalls closeCount socketState withSelf withEnv compose : ops.

Ltac run := autounfold with ops in *; cbn in *.

Section Behaviour.
Context `{C : Collaborators}.

Lemma answersOnly_refl (l : list OutboundMessage) : answersOnly l l.
Proof. exists []. by rewrite app_nil_r. Qed.

Lemma answersOnly_trans (a b c : list OutboundMessage) :
  answersOnly a b → answersOnly b c → answersOnly a c.
Proof.
  intros (r1 & -> & H1) (r2 & -> & H2). exists (r1 ++ r2).
  split; [by rewrite app_assoc | by apply Forall_app].
Qed.

Lemma callEach_cons (h : Closure) (hs : list Closure) (m : InboundMessage)
    (w : World) :
  callEach (h :: hs) m w =
  match runClosure h m w with
  | (Ok _, w1) => callEach hs m w1
  | (Throw e, w1) => (Throw e, w1)
  end.
Proof. reflexivity. Qed.

Lemma callEach_app (hs1 hs2 : list Closure) (m : InboundMessage) (w : World) :
  callEach (hs1 ++ hs2) m w =
  match callEach hs1 m w with
  | (Ok _, w1) => callEach hs2 m w1
  | (Throw e, w1) => (Throw e, w1)
  end.
Proof.
  revert w. induction hs1 as [|h hs1 IH]; intros w; [done|].
  rewrite <- app_comm_cons, !callEach_cons.
  destruct (runClosure h m w) as [[[]|e] w1]; [apply IH | done].
Qed.

(** A NOTIFY listener returns normally, leaves the session object and the
    event trace alone, and sends at most a response. *)
Lemma notifyHandler_effect (id : nat) (m : InboundMessage) (w : World) :
  outcome (notifyHandler id m) w = Ok tt ∧
  self (exec (notifyHandler id m) w) = self w ∧
  emitted (env (exec (notifyHandler id m) w)) = emitted (env w) ∧
  delivered (env (exec (notifyHandler id m) w)) = delivered (env w) ∧
  answersOnly (outbox w) (outbox (exec (notifyHandler id m) w)).
Proof.
  run. destruct (JsString.startsWith (subject m) "NOTIFY "); cbn.
  - assert (answersOnly (sent (softphone (env w)))
              (sent (softphone (env w)) ++ [ResponseMessage m 200])) as Ha.
    { eexists. split; [done|]. apply Forall_singleton. by eauto. }
    by destruct (String.eqb _ _).
  - repeat split; try done. apply answersOnly_refl.
Qed.

Lemma callEach_notify_listeners (hs : list Closure) (m : InboundMessage)
    (w : World) :
  Forall (fun h => isBye h = false) hs →
  outcome (callEach hs m) w = Ok tt ∧
  self (exec (callEach hs m) w) = self w ∧
  emitted (env (exec (callEach hs m) w)) = emitted (env w) ∧
  delivered (env (exec (callEach hs m) w)) = delivered (env w) ∧
  answersOnly (outbox w) (outbox (exec (callEach hs m) w)).
Proof.
  intros H. revert w. induction H as [|h hs Hh _ IH]; intros w.
  - repeat split; try done. apply answersOnly_refl.
  - unfold outcome, exec. rewrite callEach_cons.
    destruct h as [id|id]; [done|]. cbn [runClosure].
    destruct (notifyHandler_effect id m w) as (Ho & Hs & He & Hd & Ha).
    unfold outcome, exec in *.
    destruct (notifyHandler id m w) as [r w1]; cbn in *. subst r.
    destruct (IH w1) as (Ho' & Hs' & He' & Hd' & Ha'). unfold outcome, exec in *.
    repeat split; try congruence. by eapply answersOnly_trans.
Qed.

(** The busy branch of the teardown listener. *)
Lemma byeHandler_busy (id : nat) (m : InboundMessage) (w : World) :
  headers m !! "Call-ID" = callId (self w) →
  JsString.endsWith (subject m) "486 Busy Here" = true →
  emitted (env (exec (byeHandler id m) w)) = emitted (env w) ++ [EvBusy; EvDisposed] ∧
  outbox (exec (byeHandler id m) w) = outbox w ∧
  disposed (self (exec (byeHandler id m) w)) = true.
Proof.
  intros Hid Hbusy. run.
  rewrite Hbusy, bool_decide_true by done; cbn.
  rewrite <- app_assoc.
  by destruct (socket (self w)).
Qed.

(** C6: when the teardown listener receives a message with the session's
    Call-ID whose subject ends with "486 Busy Here", the session emits
    ['busy'] once and then ['disposed'] once, nothing else, and nothing is
    sent on the signaling channel: no BYE. The same holds for the message
    as delivered by the signaling channel to a session with its teardown
    listener and any number of NOTIFY listeners registered: the events are
    ['busy'] then ['disposed'], and the channel gets at most responses of
    the NOTIFY listeners, no request. *)
Theorem C6_busy_then_disposed_no_bye (id : nat) (m : InboundMessage) (w : World) :
  headers m !! "Call-ID" = callId (self w) →
  JsString.endsWith (subject m) "486 Busy Here" = true →
  (emitted (env (exec (byeHandler id m) w)) = emitted (env w) ++ [EvBusy; EvDisposed] ∧
   outbox (exec (byeHandler id m) w) = outbox w ∧
   disposed (self (exec (byeHandler id m) w)) = true) ∧
  (∀ l1 l2,
     registry w = l1 ++ ByeHandler id :: l2 →
     Forall (fun h => isBye h = false) l1 →
     Forall (fun h => isBye h = false) l2 →
     let w1 := exec (softphone_message m) w in
     emitted (env w1) = emitted (env w) ++ [EvBusy; EvDisposed] ∧
     answersOnly (outbox w) (outbox w1) ∧
     disposed (self w1) = true).
Proof.
  intros Hid Hbusy. split; [by apply byeHandler_busy|].
  intros l1 l2 Hreg H1 H2.
  assert (Hrun : softphone_message m w = callEach (l1 ++ ByeHandler id :: l2) m w).
  { unfold softphone_message, mbind, M_bind, gets, compose.
    fold (registry w). by rewrite Hreg. }
  cbn zeta. unfold exec. rewrite Hrun, callEach_app.
  destruct (callEach_notify_listeners l1 m w H1) as (Ho & Hs & He & Hd & Ha).
  unfold outcome, exec in *.
  destruct (callEach l1 m w) as [r wa]. cbn [fst snd] in Ho, Hs, He, Hd, Ha.
  subst r. cbn beta iota. rewrite callEach_cons. cbn [runClosure].
  assert (Hid' : headers m !! "Call-ID" = callId (self wa)) by (by rewrite Hs).
  destruct (byeHandler_busy id m wa Hid' Hbusy) as (He2 & Ho2 & Hd2).
  unfold exec in *.
  destruct (byeHandler id m wa) as [[[]|e] wb]; cbn [fst snd] in *; cbn beta iota.
  - destruct (callEach_notify_listeners l2 m wb H2) as (_ & Hs3 & He3 & _ & Ha3).
    unfold exec in *.
    split; [congruence|]. split; [|congruence].
    eapply answersOnly_trans; [exact Ha|]. by rewrite <- Ho2.
  - split; [congruence|]. split; [by rewrite Ho2 | done].
Qed.

(** C9: [hangup()] sends one BYE request, addressed to the domain of the
    home server and carrying the session's Call-ID, and that is all: it
    returns normally, every field of the session is as before (so
    [disposed] keeps its value and the socket is untouched), no event is
    emitted and no listener is added or removed. Disposal happens when the
    teardown listener then sees a message of this call whose CSeq ends with
    " BYE". *)
Theorem C9_hangup_only_sends_bye (w : World) (id : nat) (m : InboundMessage)
    (cseq : string) :
  headers m !! "Call-ID" = callId (self w) →
  headers m !! "CSeq" = Some cseq →
  JsString.endsWith cseq " BYE" = true →
  let w1 := exec hangup w in
  outcome hangup w = Ok tt ∧
  outbox w1 = outbox w ++ [byeRequest w] ∧
  self w1 = self w ∧
  emitted (env w1) = emitted (env w) ∧
  delivered (env w1) = delivered (env w) ∧
  registry w1 = registry w ∧
  disposed (self (exec (byeHandler id m) w1)) = true.
Proof.
  intros Hid Hcseq Hbye. run. destruct w as [s e]; cbn in *.
  repeat split; try done.
  rewrite bool_decide_true by done; cbn.
  destruct (JsString.endsWith (subject m) "486 Busy Here"); cbn.
  - by destruct (socket s).
  - rewrite Hcseq; cbn. rewrite Hbye; cbn. by destruct (socket s).
Qed.

(** What a call of [dispose()] does to a session whose socket exists. *)
Lemma dispose_effect (w : World) (k : Socket) :
  socket (self w) = Some k →
  let w1 := exec dispose w in
  outcome dispose w =
    (if running k then Ok tt else Throw ERR_SOCKET_DGRAM_NOT_RUNNING) ∧
  disposed (self w1) = true ∧
  listeners (self w1) = [] ∧
  socket (self w1) = Some (mkSocket false false (calls k ++ [SockClose])) ∧
  emitted (env w1) = emitted (env w) ++ [EvDisposed] ∧
  delivered (env w1) =
    delivered (env w) ++
    map (fun l => (l, EvDisposed)) (listenersOf "disposed" (listeners (self w))) ∧
  softphone (env w1) = softphone (env w).
Proof. intros Hk. run. rewrite Hk. cbn. done. Qed.

(** C1 (amended): a second [dispose()] keeps [disposed] true and reaches no
    listener, the first call having detached them all, so every listener
    of ['disposed'] is notified once in total; but it is not a guarded
    no-op: it calls [emit] again, invokes the socket's close operation a
    second time, and that close of the closed socket raises. *)
Theorem C1_second_dispose_closes_again (w : World) (k : Socket) :
  socket (self w) = Some k →
  running k = true →
  let w1 := exec dispose w in
  let w2 := exec dispose w1 in
  outcome dispose w = Ok tt ∧
  disposed (self w1) = true ∧ disposed (self w2) = true ∧
  delivered (env w2) = delivered (env w1) ∧
  delivered (env w1) =
    delivered (env w) ++
    map (fun l => (l, EvDisposed)) (listenersOf "disposed" (listeners (self w))) ∧
  emitted (env w2) = emitted (env w) ++ [EvDisposed; EvDisposed] ∧
  socketCalls w2 = calls k ++ [SockClose; SockClose] ∧
  outcome dispose w1 = Throw ERR_SOCKET_DGRAM_NOT_RUNNING.
Proof.
  intros Hk Hrun w1 w2.
  destruct (dispose_effect w k Hk) as (Ho & Hd & Hl & Hs & He & Hdl & _).
  fold w1 in Hd, Hl, Hs, He, Hdl.
  destruct (dispose_effect w1 _ Hs) as (Ho2 & Hd2 & _ & Hs2 & He2 & Hdl2 & _).
  fold w2 in Hd2, Hs2, He2, Hdl2. cbn in *.
  rewrite Hrun in Ho.
  repeat split; try done.
  - rewrite Hdl2, Hl. cbn. by rewrite app_nil_r.
  - by rewrite He2, He, <- app_assoc.
  - unfold socketCalls. rewrite Hs2. cbn. by rewrite <- app_assoc.
Qed.

(** C10: a datagram that decrypts and deserializes makes the session emit
    ['rtpPacket'] with the packet as deserialized, whatever its payload
    type, and before anything else: for payload type 101 it is followed by
    ['dtmfPacket'] (and at most a ['dtmf'] character), otherwise by
    ['audioPacket'] with the decoded payload when the decoder returns. *)
Theorem C10_rtpPacket_emitted_first (message plain : Buffer) (w : World)
    (ctx ctx' : SrtpSession) (pkt : RtpPacket) :
  srtpSession (self w) = Some ctx →
  srtp_decrypt ctx message = (Some plain, ctx') →
  deSerialize plain = Some pkt →
  ∃ rest,
    emitted (env (exec (onMessage message) w)) =
      emitted (env w) ++ EvRtpPacket pkt :: rest ∧
    (payloadType (header pkt) = 101 →
       ∃ r, rest = EvDtmfPacket pkt :: r ∧ (r = [] ∨ ∃ char, r = [EvDtmf char])) ∧
    (payloadType (header pkt) ≠ 101 →
       match opus_decode (payload pkt) with
       | Some decoded => rest = [EvAudioPacket (mkRtpPacket (header pkt) decoded)]
       | None => rest = []
       end).
Proof.
  intros Hctx Hdec Hser. run. rewrite Hctx, Hdec; cbn. rewrite Hser; cbn.
  destruct (Z.eqb_spec (payloadType (header pkt)) 101) as [Hpt|Hpt]; cbn.
  - destruct (payloadToChar (payload pkt)) as [[|c r]|]; cbn.
    + exists [EvDtmfPacket pkt]. rewrite <- app_assoc.
      split; [done | split; [intros _; by eauto | done]].
    + exists [EvDtmfPacket pkt; EvDtmf (String c r)]. rewrite <- !app_assoc.
      split; [done | split; [intros _; by eauto 10 | done]].
    + exists [EvDtmfPacket pkt]. rewrite <- app_assoc.
      split; [done | split; [intros _; by eauto | done]].
  - destruct (opus_decode (payload pkt)) as [d|] eqn:Hd; cbn.
    + exists [EvAudioPacket (mkRtpPacket (header pkt) d)]. rewrite <- app_assoc.
      split; [done | split; [done | intros _; by rewrite ?Hd]].
    + exists []. split; [done | split; [done | intros _; by rewrite ?Hd]].
Qed.

Lemma receiveAll_cons (message : Buffer) (later : list Buffer) (w : World) :
  receiveAll (message :: later) w =
  match socket_message message w with
  | (Ok _, w1) => receiveAll later w1
  | (Throw e, w1) => (Throw e, w1)
  end.
Proof. reflexivity. Qed.

(** An open socket with the listener attached hands the datagram to it. *)
Lemma socket_message_attached (message : Buffer) (w : World) (k : Socket) :
  socket (self w) = Some k → messageListener k = true → running k = true →
  socket_message message w = onMessage message w.
Proof.
  intros Hk Hl Hr. unfold socket_message, mbind, M_bind, gets, compose.
  by rewrite Hk, Hl, Hr.
Qed.

(** A socket without listener delivers nothing. *)
Lemma socket_message_detached (message : Buffer) (w : World) :
  (∀ k, socket (self w) = Some k → messageListener k = false) →
  socket_message message w = (Ok tt, w).
Proof.
  intros H. unfold socket_message, mbind, M_bind, gets, compose.
  destruct (socket (self w)) as [k|] eqn:Hk; [|done].
  by rewrite (H k eq_refl).
Qed.

Lemma receiveAll_app (pre post : list Buffer) (w : World) :
  receiveAll (pre ++ post) w =
  match receiveAll pre w with
  | (Ok _, w1) => receiveAll post w1
  | (Throw e, w1) => (Throw e, w1)
  end.
Proof.
  revert w. induction pre as [|b pre IH]; intros w; [done|].
  rewrite <- app_comm_cons, !receiveAll_cons.
  destruct (socket_message b w) as [[[]|e] w1]; [|done].
  apply IH.
Qed.

(** C2 (amended): when decrypting or deserializing a datagram fails, the
    listener emits nothing for it and leaves the session as it was but for
    the SRTP context (still not disposed, socket open, listener attached),
    and nothing reaches the signaling channel; the failure itself is not
    caught: the exception leaves the socket's ['message'] listener, and a
    run of datagrams handled under the host's default ends there, with the
    datagrams before it handled and those after it not. *)
Theorem C2_undecodable_datagram_raises (w : World) (ctx : SrtpSession)
    (message : Buffer) (later : list Buffer) :
  srtpSession (self w) = Some ctx →
  undecodable ctx message →
  let w1 := exec (onMessage message) w in
  (∃ who, outcome (onMessage message) w = Throw (CollaboratorError who)) ∧
  self w1 = setSrtpSession (Some (snd (srtp_decrypt ctx message))) (self w) ∧
  emitted (env w1) = emitted (env w) ∧
  delivered (env w1) = delivered (env w) ∧
  softphone (env w1) = softphone (env w) ∧
  (∀ k earlier w0,
     socket (self w) = Some k → messageListener k = true → running k = true →
     receiveAll earlier w0 = (Ok tt, w) →
     receiveAll (earlier ++ message :: later) w0 =
       (outcome (onMessage message) w, w1)).
Proof.
  intros Hctx Hbad.
  assert (Hrun : ∀ k earlier w0, socket (self w) = Some k →
            messageListener k = true → running k = true →
            receiveAll earlier w0 = (Ok tt, w) →
            (∃ e, outcome (onMessage message) w = Throw e) →
            receiveAll (earlier ++ message :: later) w0 =
              (outcome (onMessage message) w, exec (onMessage message) w)).
  { intros k earlier w0 Hk Hl Hr Hpre [e He].
    rewrite receiveAll_app, Hpre, receiveAll_cons.
    rewrite (socket_message_attached _ _ _ Hk Hl Hr).
    unfold outcome, exec in *.
    destruct (onMessage message w) as [[[]|e'] w']; cbn in *; done. }
  destruct Hbad as [Hnone | (plain & Hsome & Hser)].
  - cbn. repeat split.
    6:{ intros k earlier w0 Hk Hl Hr Hpre. apply (Hrun k earlier w0 Hk Hl Hr Hpre).
        run. rewrite Hctx.
        destruct (srtp_decrypt ctx message) as [r c']. cbn in *. subst r. by eauto. }
    all: run; rewrite Hctx; destruct (srtp_decrypt ctx message) as [r c'];
      cbn in *; subst r; cbn; by eauto.
  - cbn. repeat split.
    6:{ intros k earlier w0 Hk Hl Hr Hpre. apply (Hrun k earlier w0 Hk Hl Hr Hpre).
        run. rewrite Hctx.
        destruct (srtp_decrypt ctx message) as [r c']. cbn in *. subst r. cbn.
        rewrite Hser. by eauto. }
    all: run; rewrite Hctx; destruct (srtp_decrypt ctx message) as [r c'];
      cbn in *; subst r; cbn; rewrite Hser; by eauto.
Qed.

Lemma indexOf_None (x : string) (l : list string) :
  x ∉ l → indexOf x l = None.
Proof.
  induction l as [|y l IH]; [done|].
  intros Hx. apply not_elem_of_cons in Hx as [Hne Hx]. cbn.
  destruct (String.eqb_spec x y) as [->|_]; [done|]. by rewrite IH.
Qed.

(** C4: [sendDTMF] with a character outside ['0'..'9', '*', '#'] is
    rejected before any I/O: the call fails with the invalid-character
    error, the session object is as before (no operation has been invoked
    on the socket, the SRTP context is untouched) and no encryption has
    been attempted. *)
Theorem C4_sendDTMF_rejects_other_chars (char : string) (w : World) :
  char ∉ phoneChars →
  let w1 := exec (sendDTMF char) w in
  outcome (sendDTMF char) w = Throw InvalidDtmfChar ∧
  self w1 = self w ∧
  socketCalls w1 = socketCalls w ∧
  cryptoCalls (env w1) = cryptoCalls (env w).
Proof.
  intros Hc. apply indexOf_None in Hc.
  unfold exec, outcome, sendDTMF, charToPayloads, socketCalls,
    mbind, M_bind, gets, draw, throw.
  rewrite Hc. cbn. by destruct w as [s e].
Qed.

(** *** Signaling listeners *)

Lemma removeLast_once (h : Closure) (l1 l2 : list Closure) :
  h ∉ l2 → removeLast h (l1 ++ h :: l2) = l1 ++ l2.
Proof.
  intros Hl2. induction l1 as [|x l1 IH]; cbn.
  - by rewrite bool_decide_false, bool_decide_true.
  - rewrite bool_decide_true; [by rewrite IH|].
    apply elem_of_app. right. by left.
Qed.

Lemma removeLast_absent (h : Closure) (l : list Closure) :
  h ∉ l → removeLast h l = l.
Proof.
  induction l as [|x l IH]; [done|].
  intros H. apply not_elem_of_cons in H as [Hne Hl]. cbn.
  rewrite bool_decide_false by done. by rewrite bool_decide_false.
Qed.

(** Removing a listener never changes the listeners of the other kind. *)
Lemma removeLast_filter (f : Closure → bool) (h : Closure) (l : list Closure) :
  f h = false → filter f (removeLast h l) = filter f l.
Proof.
  intros Hf. induction l as [|x l IH]; [done|]. cbn [removeLast].
  destruct (bool_decide (h ∈ l)).
  - by rewrite !filter_cons, IH.
  - destruct (bool_decide_reflect (x = h)) as [->|_]; [|done].
    rewrite filter_cons, decide_False; [done|]. rewrite Hf. exact id.
Qed.

(** The teardown listener leaves a message of another call alone: nothing
    is sent, emitted or changed. *)
Lemma byeHandler_other_call (id : nat) (m : InboundMessage) (w : World) :
  headers m !! "Call-ID" ≠ callId (self w) →
  byeHandler id m w = (Ok tt, w).
Proof. intros H. run. by rewrite bool_decide_false. Qed.

(** The teardown listener never sends on the signaling channel. *)
Lemma byeHandler_outbox (id : nat) (m : InboundMessage) (w : World) :
  outbox (exec (byeHandler id m) w) = outbox w.
Proof.
  run. destruct (bool_decide _); cbn; [|done].
  destruct (JsString.endsWith (subject m) "486 Busy Here"); cbn.
  - by destruct (socket (self w)).
  - destruct (headers m !! "CSeq") as [cseq|]; cbn; [|done].
    destruct (JsString.endsWith cseq " BYE"); cbn; [|done].
    by destruct (socket (self w)).
Qed.

(** With only teardown listeners registered, an inbound message gets no
    answer. *)
Lemma teardown_listeners_send_nothing (hs : list Closure) (m : InboundMessage)
    (w : World) :
  Forall (fun h => isBye h = true) hs →
  outbox (exec (callEach hs m) w) = outbox w.
Proof.
  intros H. revert w. induction H as [|h hs Hh _ IH]; intros w; [done|].
  unfold exec. rewrite callEach_cons.
  destruct h as [id|id]; [|done]. cbn [runClosure].
  pose proof (byeHandler_outbox id m w) as Hb. unfold exec in Hb.
  destruct (byeHandler id m w) as [[[]|e] w1]; cbn in *; [|done].
  specialize (IH w1). unfold exec in IH. by rewrite IH.
Qed.

(** C8: [transfer(target)] sends exactly one REFER request, whose
    request line is built from the remote peer and whose Refer-To names the
    target, and registers one NOTIFY listener. From then on that listener
    answers every inbound NOTIFY with a 200 response; a NOTIFY whose body is
    "SIP/2.0 200 OK" also deregisters it, any other leaves it registered;
    and once no NOTIFY listener is registered an inbound message gets no
    response from the session. *)
Theorem C8_transfer_refer_then_notify (target remoteAddress localAddress : string)
    (w : World) :
  extractAddress (remotePeer (self w)) = Some remoteAddress →
  extractAddress (localPeer (self w)) = Some localAddress →
  let id := closures (env w) in
  let w1 := exec (transfer target) w in
  outcome (transfer target) w = Ok tt ∧
  outbox w1 = outbox w ++ [referRequest w target remoteAddress localAddress] ∧
  registry w1 = registry w ++ [NotifyHandler id] ∧
  self w1 = self w ∧
  (∀ n w2, JsString.startsWith (subject n) "NOTIFY " = true →
     outcome (notifyHandler id n) w2 = Ok tt ∧
     outbox (exec (notifyHandler id n) w2) = outbox w2 ++ [ResponseMessage n 200]) ∧
  (∀ n w2 l1 l2, JsString.startsWith (subject n) "NOTIFY " = true →
     JsString.trim (body n) = "SIP/2.0 200 OK" →
     registry w2 = l1 ++ NotifyHandler id :: l2 → NotifyHandler id ∉ l2 →
     registry (exec (notifyHandler id n) w2) = l1 ++ l2) ∧
  (∀ n w2, JsString.trim (body n) ≠ "SIP/2.0 200 OK" →
     registry (exec (notifyHandler id n) w2) = registry w2) ∧
  (∀ n w3, Forall (fun h => isBye h = true) (registry w3) →
     outbox (exec (softphone_message n) w3) = outbox w3).
Proof.
  intros Hr Hl id w1. subst id w1.
  repeat split.
  - run. rewrite Hr; cbn. by rewrite Hl.
  - run. rewrite Hr; cbn. by rewrite Hl.
  - run. rewrite Hr; cbn. by rewrite Hl.
  - run. rewrite Hr; cbn. rewrite Hl; cbn. by destruct w.
  - run. rewrite H; cbn. by destruct (String.eqb _ _).
  - run. rewrite H; cbn. by destruct (String.eqb _ _).
  - intros n w2 l1 l2 Hn Hb Hreg Hl2. run. rewrite Hn, Hb; cbn.
    rewrite Hreg. by apply removeLast_once.
  - intros n w2 Hb. run.
    destruct (JsString.startsWith (subject n) "NOTIFY "); cbn; [|done].
    apply String.eqb_neq in Hb. by rewrite Hb.
  - intros n w3 Hreg.
    pose proof (teardown_listeners_send_nothing (registry w3) n w3 Hreg) as H.
    revert H. unfold exec, softphone_message, mbind, M_bind, gets, compose, registry.
    done.
Qed.

End Behaviour.

(** ** Life cycle: what a disposed session still does *)

Section Lifecycle.
Context `{C : Collaborators}.

Lemma frame_refl (w : World) : frame w w.
Proof. by repeat split. Qed.

Lemma frame_trans (w1 w2 w3 : World) : frame w1 w2 → frame w2 w3 → frame w1 w3.
Proof.
  intros (a1 & b1 & c1 & d1 & e1) (a2 & b2 & c2 & d2 & e2).
  repeat split; congruence.
Qed.

Lemma exec_bind {A B} (m : M A) (k : A → M B) (w : World) :
  exec (m ≫= k) w =
  match m w with
  | (Ok a, w1) => exec (k a) w1
  | (Throw _, w1) => w1
  end.
Proof.
  unfold exec, mbind, M_bind. by destruct (m w) as [[a|e] w1].
Qed.

Lemma framed_bind {A B} (m : M A) (k : A → M B) :
  framed m → (∀ a, framed (k a)) → framed (m ≫= k).
Proof.
  intros Hm Hk w. rewrite exec_bind.
  specialize (Hm w). unfold exec in Hm.
  destruct (m w) as [[a|e] w1]; cbn in Hm; [|done].
  eapply frame_trans; [exact Hm | apply Hk].
Qed.

Ltac cases :=
  repeat (case_match; cbn in *; simplify_eq; try done);
  repeat match goal with
         | H : socket (self _) = _ |- _ => rewrite H in *; clear H
         end;
  cbn in *; try done.

Ltac framed_by_run := intros w; unfold frame; run; cases.

(** [send] spelled out: the call is logged whatever its outcome, and the
    datagram is accepted only when the port is valid and the handle open. *)
Lemma send_unfold (data : Datagram) (w : World) :
  send data w =
  match socket (self w) with
  | None => (Throw TypeError, w)
  | Some k =>
      let port := remotePort (self w) in
      let address := remoteIP (self w) in
      let w1 := withSelf (setSocket (Some (logCall (SockSend data port address) k))) w in
      if validPort port then
        if running k
        then (Ok tt, withEnv (fun e => setWire (wire e ++ [(data, port, address)]) e) w1)
        else (Throw ERR_SOCKET_DGRAM_NOT_RUNNING, w1)
      else (Throw ERR_SOCKET_BAD_PORT, w1)
  end.
Proof.
  unfold send, socket_send, onSocket, mbind, M_bind, gets, modify. cbn.
  destruct (socket (self w)) as [k|]; [|done]. cbn.
  destruct (validPort (remotePort (self w))); cbn; [|done].
  by destruct (running k).
Qed.

Lemma framed_send (data : Datagram) : framed (send data).
Proof.
  intros w. unfold frame, exec, socketState, registry. rewrite send_unfold.
  destruct (socket (self w)) as [k|] eqn:Hk; cbn; rewrite ?Hk; [|done].
  destruct (validPort (remotePort (self w))); [|done].
  destruct (running k) eqn:Hrun; cbn; by rewrite ?Hrun.
Qed.

Lemma framed_encrypt (data : Buffer) (h : RtpHeader) : framed (encrypt data h).
Proof. framed_by_run. Qed.

Lemma framed_sendPayloads (ps : list Buffer) (h : RtpHeader) (n : Z) :
  framed (sendPayloads h n ps).
Proof.
  revert h n. induction ps as [|p ps IH]; intros h n.
  - intros w. apply frame_refl.
  - cbn [sendPayloads]. apply framed_bind; [apply framed_encrypt|].
    intros data. apply framed_bind; [apply framed_send|]. intros _. apply IH.
Qed.

Lemma framed_sendDTMF (char : string) : framed (sendDTMF char).
Proof.
  unfold sendDTMF.
  apply framed_bind; [framed_by_run|]. intros ms.
  apply framed_bind; [framed_by_run|]. intros r.
  apply framed_bind; [framed_by_run|]. intros ps.
  apply framed_sendPayloads.
Qed.

Lemma framed_hangup : framed hangup.
Proof. framed_by_run. Qed.

Lemma framed_on (name : string) (l : nat) : framed (on name l).
Proof. framed_by_run. Qed.

Lemma filter_isBye_snoc_notify (l : list Closure) (id : nat) :
  filter isBye (l ++ [NotifyHandler id]) = filter isBye l.
Proof. rewrite filter_app. cbn. apply app_nil_r. Qed.

Lemma framed_transfer (target : string) : framed (transfer target).
Proof.
  intros w; unfold frame; run; cases.
  all: repeat split; try done; apply filter_isBye_snoc_notify.
Qed.

Lemma framed_notifyHandler (id : nat) (m : InboundMessage) :
  framed (notifyHandler id m).
Proof.
  intros w; unfold frame; run; cases.
  all: repeat split; try done; by apply removeLast_filter.
Qed.

(** The frame keeps a well-formed world well-formed. *)
Lemma frame_wellFormed (w w1 : World) :
  frame w w1 → wellFormed w → wellFormed w1.
Proof.
  intros (Hd & Hb & Hl & _ & _) (Hlen & Hsock & Hq). split; [|split].
  - by rewrite Hb.
  - by rewrite Hl.
  - rewrite Hd. intros Ht. destruct (Hq Ht) as [Q1 Q2].
    split; congruence.
Qed.

(** Removing the one teardown listener leaves none. *)
Lemma removeLast_only_bye (h : Closure) (l : list Closure) :
  filter isBye l = [h] → filter isBye (removeLast h l) = [].
Proof.
  induction l as [|x l IH]; [done|].
  intros Hf. cbn [removeLast].
  assert (Hh : h ∈ filter isBye (x :: l)) by (rewrite Hf; by left).
  apply list_elem_of_filter in Hh as [Hbye Hin].
  rewrite filter_cons in Hf.
  destruct (bool_decide_reflect (h ∈ l)) as [Hl|Hl].
  - rewrite filter_cons. case_decide as Hx.
    + injection Hf as -> Hnil.
      assert (h ∈ filter isBye l) as Hc by (by apply list_elem_of_filter).
      rewrite Hnil in Hc. by apply elem_of_nil in Hc.
    + by apply IH.
  - destruct (bool_decide_reflect (x = h)) as [->|Hne].
    + rewrite decide_True in Hf by done. by injection Hf.
    + apply elem_of_cons in Hin as [->|Hin]; done.
Qed.

(** What the teardown listener does, case by case: nothing that the frame
    does not allow, or the disposal: the listener is gone from the channel,
    the socket (when there is one) is closed and without listener. *)
Lemma byeHandler_cases (id : nat) (m : InboundMessage) (w : World) :
  let w1 := exec (byeHandler id m) w in
  frame w w1 ∨
  (disposed (self w1) = true ∧
   registry w1 = removeLast (ByeHandler id) (registry w) ∧
   socketState w1 = (fun _ => (false, false)) <$> socketState w).
Proof.
  cbn. unfold frame. run.
  destruct (bool_decide _); cbn; [|by left].
  destruct (JsString.endsWith (subject m) "486 Busy Here"); cbn.
  - right. destruct (socket (self w)) eqn:Hk; cbn; rewrite ?Hk; done.
  - destruct (headers m !! "CSeq") as [cseq|]; cbn; [|by left].
    destruct (JsString.endsWith cseq " BYE"); cbn; [|by left].
    right. destruct (socket (self w)) eqn:Hk; cbn; rewrite ?Hk; done.
Qed.

Lemma callEach_pending (hs : list Closure) (m : InboundMessage) (w : World) :
  pending hs w →
  let w1 := exec (callEach hs m) w in
  wellFormed w1 ∧ (disposed (self w) = true → frame w w1).
Proof.
  revert w. induction hs as [|h hs IH]; intros w (Hwf & Hlen & Hdis & Hsub).
  all: pose proof Hwf as (_ & Hsock & _).
  - cbn. split; [done|]. intros _. apply frame_refl.
  - cbn zeta. unfold exec. rewrite callEach_cons.
    destruct h as [id|id]; cbn [runClosure].
    + (* the teardown listener *)
      rewrite filter_cons in Hlen, Hdis, Hsub. rewrite decide_True in Hlen, Hdis, Hsub by done.
      assert (Hrest : filter isBye hs = []).
      { destruct (filter isBye hs); [done|]. cbn in Hlen. lia. }
      assert (Hlive : disposed (self w) = false).
      { destruct (disposed (self w)); [|done]. by specialize (Hdis eq_refl). }
      assert (Hreg : filter isBye (registry w) = [ByeHandler id]).
      { specialize (Hsub (ByeHandler id) ltac:(by left)).
        destruct Hwf as [Hone _].
        destruct (filter isBye (registry w)) as [|x [|y r]]; cbn in Hone.
        - by apply elem_of_nil in Hsub.
        - apply list_elem_of_singleton in Hsub. by subst.
        - lia. }
      pose proof (byeHandler_cases id m w) as Hcases. cbn zeta in Hcases.
      unfold exec in Hcases.
      destruct (byeHandler id m w) as [r w1] eqn:Hrun. cbn in Hcases.
      assert (Hp : pending hs w1).
      { destruct Hcases as [Hf | (Hd & Hr & Hl)].
        - split; [by eapply frame_wellFormed|].
          rewrite Hrest. split; [cbn; lia|]. split; [done|].
          intros h Hh. by apply elem_of_nil in Hh.
        - assert (filter isBye (registry w1) = []) as Hnone.
          { rewrite Hr. by apply removeLast_only_bye. }
          assert (socketState w1 = Some (false, false)) as Hclosed.
          { rewrite Hl. by destruct Hsock as [x ->]. }
          split; [split; [by rewrite Hnone; cbn; lia |
                          split; [by rewrite Hclosed | by intros _; split]]|].
          rewrite Hrest. split; [cbn; lia|]. split; [done|].
          intros h Hh. by apply elem_of_nil in Hh. }
      split; [|by rewrite Hlive].
      destruct r as [[]|e]; [|by destruct Hp].
      by destruct (IH w1 Hp).
    + (* a NOTIFY listener *)
      rewrite filter_cons in Hlen, Hdis, Hsub.
      rewrite decide_False in Hlen, Hdis, Hsub by (cbn; tauto).
      pose proof (framed_notifyHandler id m w) as Hf. unfold exec in Hf.
      destruct (notifyHandler id m w) as [r w1] eqn:Hrun. cbn in Hf.
      assert (Hp : pending hs w1).
      { pose proof (frame_wellFormed _ _ Hf Hwf) as Hwf1.
        destruct Hf as (Hd & Hb & _). split; [done|].
        split; [done|]. rewrite Hd, Hb. by split. }
      destruct r as [[]|e]; cbn.
      * destruct (IH w1 Hp) as [Hw Hfr]. split; [done|].
        intros Ht. eapply frame_trans; [exact Hf|]. apply Hfr.
        destruct Hf as (Hd & _). by rewrite Hd.
      * split; [by destruct Hp | by intros _].
Qed.

Lemma softphone_message_wellFormed (m : InboundMessage) (w : World) :
  wellFormed w →
  let w1 := exec (softphone_message m) w in
  wellFormed w1 ∧ (disposed (self w) = true → frame w w1).
Proof.
  intros Hwf.
  assert (Hp : pending (registry w) w).
  { split; [done|]. destruct Hwf as (Hlen & Hsock & Hq). split; [done|].
    split; [|done]. intros Ht. by destruct (Hq Ht). }
  apply (callEach_pending _ m) in Hp. revert Hp.
  unfold exec, softphone_message, mbind, M_bind, gets, compose, registry. done.
Qed.

(** The datagram listener emits, but neither disposes nor touches any
    listener registration. *)
Lemma onMessage_keeps (message : Buffer) (w : World) :
  let w1 := exec (onMessage message) w in
  disposed (self w1) = disposed (self w) ∧
  registry w1 = registry w ∧
  socketState w1 = socketState w.
Proof.
  cbn. run. cases.
Qed.

Lemma socket_message_not_listening (message : Buffer) (w : World) :
  socketState w = Some (false, false) → socket_message message w = (Ok tt, w).
Proof.
  intros H. apply socket_message_detached. intros k Hk.
  unfold socketState in H. rewrite Hk in H. cbn in H. congruence.
Qed.

(** [send] on a closed socket: the operation is invoked and raises; the
    datagram is not accepted. *)
Lemma send_closed (data : Datagram) (w : World) (l : bool) :
  socketState w = Some (l, false) →
  outcome (send data) w =
    Throw (if validPort (remotePort (self w)) then ERR_SOCKET_DGRAM_NOT_RUNNING
           else ERR_SOCKET_BAD_PORT) ∧
  socketCalls (exec (send data) w) =
    socketCalls w ++ [SockSend data (remotePort (self w)) (remoteIP (self w))] ∧
  wire (env (exec (send data) w)) = wire (env w).
Proof.
  intros H. unfold outcome, exec, socketCalls, socketState in *.
  rewrite send_unfold.
  destruct (socket (self w)) as [k|]; cbn in *; [|done].
  injection H as _ ->.
  by destruct (validPort (remotePort (self w))).
Qed.

Lemma socket_message_wellFormed (message : Buffer) (w : World) :
  wellFormed w → wellFormed (exec (socket_message message) w).
Proof.
  intros Hwf. pose proof Hwf as (Hlen & Hsock & Hq).
  unfold exec, socket_message, mbind, M_bind, gets, compose.
  destruct (socket (self w)) as [k|] eqn:Hk; [|done].
  destruct (messageListener k && running k); [|done].
  destruct (onMessage_keeps message w) as (Hd & Hr & Hl). unfold exec in *.
  split; [|split].
  - by rewrite Hr.
  - by rewrite Hl.
  - rewrite Hd. intros Ht. destruct (Hq Ht) as [Q1 Q2].
    split; [by rewrite Hr | by rewrite Hl].
Qed.

(** Every action keeps a well-formed world well-formed, and on a disposed
    session stays within the frame. *)
Lemma perform_wellFormed (a : Action) (w : World) :
  wellFormed w →
  let w1 := exec (perform a) w in
  wellFormed w1 ∧ (disposed (self w) = true → frame w w1).
Proof.
  intros Hwf. destruct a as [data|target| |char|name l|m|message]; cbn [perform].
  - pose proof (framed_send data w). split; [by eapply frame_wellFormed | done].
  - pose proof (framed_transfer target w). split; [by eapply frame_wellFormed | done].
  - pose proof (framed_hangup w). split; [by eapply frame_wellFormed | done].
  - pose proof (framed_sendDTMF char w). split; [by eapply frame_wellFormed | done].
  - pose proof (framed_on name l w). split; [by eapply frame_wellFormed | done].
  - by apply softphone_message_wellFormed.
  - split; [by apply socket_message_wellFormed|].
    intros Ht. destruct Hwf as (_ & _ & Hq). destruct (Hq Ht) as [_ Hl].
    unfold exec. rewrite (socket_message_not_listening _ _ Hl). apply frame_refl.
Qed.

Lemma performAll_wellFormed (l : list Action) (w : World) :
  wellFormed w → wellFormed (performAll l w).
Proof.
  revert w. induction l as [|a l IH]; intros w Hwf; [done|].
  cbn. apply IH. by apply perform_wellFormed.
Qed.

(** [startLocalServices] spelled out. With a port [send] refuses, the
    call raises after the socket has been created and bound: the teardown
    listener is not registered. *)
Lemma startLocalServices_unfold (w : World) :
  let port := remotePort (self w) in
  let address := remoteIP (self w) in
  let k := mkSocket true true [SockBind; SockSend (Text "hello") port address] in
  let w1 :=
    withEnv (fun e => setSocketsCreated (S (socketsCreated e)) e)
      (withSelf (setSocket (Some k)) w) in
  startLocalServices w =
    if validPort port then
      (Ok tt,
       withEnv (fun e =>
         setSoftphone
           (mkSoftphone (fakeDomain (softphone e)) (sipInfo_domain (softphone e))
              (messageListeners (softphone e) ++ [ByeHandler (closures e)])
              (sent (softphone e)))
           (setClosures (S (closures e))
              (setWire (wire e ++ [(Text "hello", port, address)]) e)))
         w1)
    else (Throw ERR_SOCKET_BAD_PORT, w1).
Proof.
  cbn zeta. run.
  destruct (validPort (remotePort (self w))); done.
Qed.

(** What [startLocalServices] does whether it returns or raises. *)
Lemma startLocalServices_start (w : World) :
  let w1 := exec startLocalServices w in
  self w1 =
    setSocket
      (Some (mkSocket true true
               [SockBind;
                SockSend (Text "hello") (remotePort (self w)) (remoteIP (self w))]))
      (self w) ∧
  emitted (env w1) = emitted (env w) ∧
  delivered (env w1) = delivered (env w) ∧
  outbox w1 = outbox w.
Proof.
  cbn zeta. unfold exec, outbox. rewrite startLocalServices_unfold. cbn zeta.
  by destruct (validPort (remotePort (self w))).
Qed.

(** Starting the local services of a fresh session registers at most the
    one teardown listener. *)
Lemma startLocalServices_wellFormed (w : World) :
  fresh w → wellFormed (exec startLocalServices w).
Proof.
  intros [Hd Hb]. unfold wellFormed, quiet, exec, registry, socketState.
  rewrite startLocalServices_unfold. cbn zeta.
  destruct (validPort (remotePort (self w))); cbn.
  - rewrite Hd, filter_app. unfold registry in Hb. rewrite Hb. cbn.
    rewrite decide_True by done.
    split; [cbn; lia | split; [by eexists | done]].
  - rewrite Hd. unfold registry in Hb. rewrite Hb.
    split; [cbn; lia | split; [by eexists | done]].
Qed.

End Lifecycle.

(** ** Worked examples *)

#[local] Existing Instance Demo.collaborators.

(** C3: a session's listeners on the shared channel should ignore a
    message of another call. The teardown listener does; its Call-ID filter
    has no counterpart in the NOTIFY listener. Session "call-A" is transferring; a final NOTIFY of
    "call-B" arrives on the shared channel: the teardown listener ignores
    it, the NOTIFY listener answers it with a 200 response and deregisters
    itself, so the transfer of "call-A" is no longer followed. *)
Theorem C3_notify_listener_answers_other_call :
  callId (self Demo.transferring) = Some "call-A" ∧
  headers Demo.foreignNotify !! "Call-ID" = Some "call-B" ∧
  byeHandler 0 Demo.foreignNotify Demo.transferring = (Ok tt, Demo.transferring) ∧
  registry Demo.transferring = [ByeHandler 0; NotifyHandler 1] ∧
  outbox (exec (softphone_message Demo.foreignNotify) Demo.transferring) =
    outbox Demo.transferring ++ [ResponseMessage Demo.foreignNotify 200] ∧
  registry (exec (softphone_message Demo.foreignNotify) Demo.transferring) =
    [ByeHandler 0].
Proof. repeat split; vm_compute; reflexivity. Qed.

(** Disposing the started session twice invokes the socket's close twice,
    calls [emit] twice, and the second call raises. *)
Lemma C1_dispose_twice_closes_twice :
  let w1 := exec dispose Demo.started in
  let w2 := exec dispose w1 in
  disposed (self w1) = true ∧
  closeCount w1 = 1%nat ∧
  closeCount w2 = 2%nat ∧
  emitted (env w2) = [EvDisposed; EvDisposed] ∧
  outcome dispose w1 = Throw ERR_SOCKET_DGRAM_NOT_RUNNING.
Proof. repeat split; vm_compute; reflexivity. Qed.

Lemma C1_witness :
  let k := mkSocket true true [SockBind; SockSend (Text "hello") 40002 "10.0.0.7"] in
  let w1 := exec dispose Demo.started in
  let w2 := exec dispose w1 in
  socket (self Demo.started) = Some k ∧
  running k = true ∧
  disposed (self w2) = true ∧
  delivered (env w2) = delivered (env w1) ∧
  socketCalls w2 =
    [SockBind; SockSend (Text "hello") 40002 "10.0.0.7"; SockClose; SockClose].
Proof.
  intros k w1 w2.
  assert (Hk : socket (self Demo.started) = Some k) by (vm_compute; reflexivity).
  pose proof (C1_second_dispose_closes_again Demo.started k Hk eq_refl)
    as (_ & _ & H1 & H2 & _ & _ & H3 & _).
  exact (conj Hk (conj eq_refl (conj H1 (conj H2 H3)))).
Defined.

(** A datagram that does not decrypt makes the listener raise; handled in
    order with one good datagram before and one after, only the first is
    emitted. *)
Lemma C2_undecryptable_datagram_is_not_dropped :
  outcome (onMessage Demo.undecryptable) Demo.started =
    Throw (CollaboratorError "decrypt") ∧
  outcome (receiveAll [Demo.audio1; Demo.undecryptable; Demo.audio2]) Demo.started =
    Throw (CollaboratorError "decrypt") ∧
  emitted (env (exec (receiveAll [Demo.audio1; Demo.undecryptable; Demo.audio2])
                  Demo.started)) =
    [EvRtpPacket Demo.packet1;
     EvAudioPacket (mkRtpPacket (header Demo.packet1)
                      [Byte.x11; Byte.x22; Byte.x11; Byte.x22])].
Proof. repeat split; vm_compute; reflexivity. Qed.

Lemma C2_witness :
  srtpSession (self Demo.started) = Some O ∧
  undecodable (O : SrtpSession) Demo.undecryptable ∧
  emitted (env (exec (onMessage Demo.undecryptable) Demo.started)) =
    emitted (env Demo.started) ∧
  receiveAll [Demo.undecryptable; Demo.audio2] Demo.started =
    (outcome (onMessage Demo.undecryptable) Demo.started,
     exec (onMessage Demo.undecryptable) Demo.started).
Proof.
  assert (Hbad : undecodable (O : SrtpSession) Demo.undecryptable)
    by (left; reflexivity).
  assert (Hctx : srtpSession (self Demo.started) = Some O)
    by (vm_compute; reflexivity).
  pose proof (C2_undecodable_datagram_raises Demo.started O Demo.undecryptable
    [Demo.audio2] Hctx Hbad) as (_ & _ & He & _ & _ & Hrun).
  split; [exact Hctx|]. split; [exact Hbad|]. split; [exact He|].
  exact (Hrun _ [] Demo.started ltac:(vm_compute; reflexivity) eq_refl eq_refl eq_refl).
Defined.

Lemma C4_witness :
  ("a" ∉ phoneChars) ∧
  outcome (sendDTMF "a") Demo.started = Throw InvalidDtmfChar ∧
  socketCalls (exec (sendDTMF "a") Demo.started) = socketCalls Demo.started ∧
  cryptoCalls (env (exec (sendDTMF "a") Demo.started)) = cryptoCalls (env Demo.started).
Proof.
  assert (Hout : "a" ∉ phoneChars) by (apply (bool_decide_unpack _); vm_compute; exact I).
  pose proof (C4_sendDTMF_rejects_other_chars "a" Demo.started Hout)
    as (H1 & _ & H2 & H3).
  exact (conj Hout (conj H1 (conj H2 H3))).
Defined.

Lemma C6_witness :
  headers Demo.busyHere !! "Call-ID" = callId (self Demo.started) ∧
  JsString.endsWith (subject Demo.busyHere) "486 Busy Here" = true ∧
  emitted (env (exec (byeHandler 0 Demo.busyHere) Demo.started)) =
    emitted (env Demo.started) ++ [EvBusy; EvDisposed] ∧
  outbox (exec (byeHandler 0 Demo.busyHere) Demo.started) = outbox Demo.started.
Proof.
  assert (H1 : headers Demo.busyHere !! "Call-ID" = callId (self Demo.started))
    by (vm_compute; reflexivity).
  assert (H2 : JsString.endsWith (subject Demo.busyHere) "486 Busy Here" = true)
    by (vm_compute; reflexivity).
  pose proof (C6_busy_then_disposed_no_bye 0 Demo.busyHere Demo.started H1 H2)
    as ((He & Ho & _) & _).
  exact (conj H1 (conj H2 (conj He Ho))).
Defined.

Lemma C7_witness :
  (¬ hasAudioLine (body Demo.offerWithoutAudio) ∨
   ¬ hasConnectionLine (body Demo.offerWithoutAudio)) ∧
  constructor (C := Demo.collaborators) Demo.offerWithoutAudio Demo.env0 =
    (Throw TypeError, Demo.env0).
Proof.
  assert (H : ¬ hasAudioLine (body Demo.offerWithoutAudio) ∨
              ¬ hasConnectionLine (body Demo.offerWithoutAudio))
    by (left; apply search_audio_None; vm_compute; reflexivity).
  split; [exact H|].
  exact (proj1 (C7_malformed_offer_fails (C := Demo.collaborators)
                  Demo.offerWithoutAudio Demo.env0 H)).
Defined.

Lemma C8_witness :
  extractAddress (remotePeer (self Demo.started)) = Some "bob@sip.example" ∧
  extractAddress (localPeer (self Demo.started)) = Some "alice@sip.example" ∧
  outbox Demo.transferring =
    outbox Demo.started ++
    [referRequest Demo.started "18005551212" "bob@sip.example" "alice@sip.example"] ∧
  registry Demo.transferring = registry Demo.started ++ [NotifyHandler 1].
Proof.
  pose proof (C8_transfer_refer_then_notify "18005551212" "bob@sip.example"
    "alice@sip.example" Demo.started eq_refl eq_refl) as (_ & Ho & Hr & _).
  exact (conj eq_refl (conj eq_refl (conj Ho Hr))).
Defined.

Lemma C9_witness :
  headers Demo.bye !! "Call-ID" = callId (self Demo.started) ∧
  headers Demo.bye !! "CSeq" = Some "2 BYE" ∧
  JsString.endsWith "2 BYE" " BYE" = true ∧
  outbox (exec hangup Demo.started) = outbox Demo.started ++ [byeRequest Demo.started] ∧
  self (exec hangup Demo.started) = self Demo.started ∧
  disposed (self (exec (byeHandler 0 Demo.bye) (exec hangup Demo.started))) = true.
Proof.
  assert (H1 : headers Demo.bye !! "Call-ID" = callId (self Demo.started))
    by (vm_compute; reflexivity).
  assert (H2 : headers Demo.bye !! "CSeq" = Some "2 BYE") by (vm_compute; reflexivity).
  assert (H3 : JsString.endsWith "2 BYE" " BYE" = true) by (vm_compute; reflexivity).
  pose proof (C9_hangup_only_sends_bye Demo.started 0 Demo.bye "2 BYE" H1 H2 H3)
    as (_ & Ho & Hs & _ & _ & _ & Hd).
  exact (conj H1 (conj H2 (conj H3 (conj Ho (conj Hs Hd))))).
Defined.

Lemma C10_witness :
  srtpSession (self Demo.started) = Some O ∧
  srtp_decrypt (O : SrtpSession) Demo.audio1 = (Some Demo.audio1, 1%nat) ∧
  deSerialize Demo.audio1 = Some Demo.packet1 ∧
  ∃ rest,
    emitted (env (exec (onMessage Demo.audio1) Demo.started)) =
      emitted (env Demo.started) ++ EvRtpPacket Demo.packet1 :: rest.
Proof.
  assert (H1 : srtpSession (self Demo.started) = Some O) by (vm_compute; reflexivity).
  destruct (C10_rtpPacket_emitted_first Demo.audio1 Demo.audio1 Demo.started
    O 1%nat Demo.packet1 H1 eq_refl eq_refl) as (rest & He & _).
  split; [exact H1|]. split; [reflexivity|]. split; [reflexivity|].
  exists rest. exact He.
Defined.

(** * More facts *)

(** ** The offer *)

Lemma search_leftmost {A} (f : string → option A) (s : string) (r : A) :
  JsString.search f s = Some r →
  ∃ pre post, s = pre +:+ post ∧ f post = Some r ∧ leftmost f pre post.
Proof.
  induction s as [|c s IH]; simpl.
  - destruct (f "") eqn:E; [|done]. intros [= ->]. exists "", "".
    repeat split; try done. intros [|x p1] p2 H; str_simpl; [by subst | discriminate].
  - destruct (f (String c s)) eqn:E.
    + intros [= ->]. exists "", (String c s). repeat split; try done.
      intros [|x p1] p2 H; str_simpl; [by subst | discriminate].
    + intros H. destruct (IH H) as (pre & post & -> & Hf & Hleft).
      exists (String c pre), post. repeat split; try done.
      intros [|x p1] p2 Hp Hne; str_simpl.
      * subst p2. by str_simpl.
      * injection Hp as -> Hp. by apply (Hleft p1).
Qed.

Lemma span_stopsAt (f : ascii → bool) (s : string) :
  stopsAt f (snd (JsString.span f s)).
Proof.
  induction s as [|c s IH]; simpl; [done|].
  destruct (f c) eqn:E; [|by simpl].
  by destruct (JsString.span f s).
Qed.

Lemma digitValue_bounds (c : ascii) :
  JsString.isDigit c = true → 0 ≤ JsString.digitValue c ≤ 9.
Proof.
  unfold JsString.isDigit, JsString.digitValue. intros H.
  apply andb_true_iff in H as [H1 H2].
  apply Nat.leb_le in H1, H2. lia.
Qed.

Lemma parseDigits_nonneg (s : string) (acc : Z) :
  JsString.allChars JsString.isDigit s = true → 0 ≤ acc →
  0 ≤ JsString.parseDigits acc s.
Proof.
  revert acc. induction s as [|c s IH]; intros acc Hall Hacc; simpl; [done|].
  unfold JsString.allChars in Hall. simpl in Hall.
  apply andb_true_iff in Hall as [Hc Hs].
  apply IH; [done|]. pose proof (digitValue_bounds c Hc). lia.
Qed.

Lemma toDouble_exact (n : Z) :
  n < 2 ^ 53 → JsString.toDouble n = Integer n.
Proof.
  intros H. unfold JsString.toDouble.
  destruct (Z.ltb_spec n (2 ^ 53)) as [_|Hge]; [done|].
  exfalso. exact (proj1 (Z.lt_nge _ _) H Hge).
Qed.

(** The number value of a non-negative integer is a non-negative integer
    below 2^1024, or [Infinity]; the latter needs 2^53 at least. *)
Lemma toDouble_range (n : Z) :
  0 ≤ n →
  match JsString.toDouble n with
  | Integer p => 0 ≤ p < 2 ^ 1024
  | Infinity => 2 ^ 53 ≤ n
  end.
Proof.
  intros Hn. unfold JsString.toDouble.
  destruct (Z.ltb_spec n (2 ^ 53)) as [Hlt|Hge].
  - split; [done|]. eapply Z.lt_trans; [exact Hlt|].
    apply Z.pow_lt_mono_r; [done | done | done].
  - cbv zeta.
    set (e := Z.log2 n - 52).
    set (q := Z.shiftr n e).
    set (up := (Z.shiftl 1 (e - 1) <? Z.land n (Z.ones e))
               || ((Z.land n (Z.ones e) =? Z.shiftl 1 (e - 1)) && Z.odd q)).
    assert (Hq : 0 ≤ q) by (by apply Z.shiftr_nonneg).
    assert (Hq' : 0 ≤ (if up then q + 1 else q)).
    { destruct up; [|done]. by apply Z.add_nonneg_nonneg. }
    destruct (Z.leb_spec (2 ^ 1024) (Z.shiftl (if up then q + 1 else q) e))
      as [_|Hlt]; [done|].
    split; [by apply Z.shiftl_nonneg | done].
Qed.

Lemma search_connection_Some (body ip : string) :
  JsString.search connectionAt body = Some ip → hasConnectionLine body.
Proof.
  intros H. apply search_Some in H as (pre & post & -> & H).
  apply connectionAt_Some in H as (rest & -> & Hne & Hall).
  by exists pre, ip, rest.
Qed.

Lemma search_audio_Some (body port : string) :
  JsString.search audioAt body = Some port → hasAudioLine body.
Proof.
  intros H. apply search_Some in H as (pre & post & -> & H).
  apply audioAt_Some in H as (rest & -> & Hne & Hall).
  by exists pre, port, rest.
Qed.

Section Offer.
Context `{C : Collaborators}.

(** Construction succeeds exactly on a body with both lines, and then
    leaves the environment alone. *)
Theorem constructor_succeeds_iff (m : InboundMessage) (e : Env) :
  hasConnectionLine (body m) ∧ hasAudioLine (body m) ↔
  ∃ s, constructor m e = (Ok s, e).
Proof.
  unfold constructor. split.
  - intros [Hc Ha].
    destruct (JsString.search connectionAt (body m)) as [ip|] eqn:Ec.
    + destruct (JsString.search audioAt (body m)) as [port|] eqn:Ea; [by eauto|].
      by apply search_audio_None in Ea.
    + by apply search_connection_None in Ec.
  - intros [s Hs].
    destruct (JsString.search connectionAt (body m)) as [ip|] eqn:Ec; [|done].
    destruct (JsString.search audioAt (body m)) as [port|] eqn:Ea; [|done].
    split; [by eapply search_connection_Some | by eapply search_audio_Some].
Qed.

(** The session construction returns is fresh: built from the message, not
    disposed, without socket, SRTP context, peers or listeners; its remote
    address is a non-empty run of digits and dots and its remote port the
    number [parseInt] returns for a run of digits: a non-negative integer
    below 2^1024 or [Infinity]. No range is checked on the port. *)
Theorem constructor_fresh_session (m : InboundMessage) (e e1 : Env)
    (s : CallSession) :
  constructor m e = (Ok s, e1) →
  e1 = e ∧
  sipMessage s = m ∧ disposed s = false ∧ socket s = None ∧
  srtpSession s = None ∧ localPeer s = None ∧ remotePeer s = None ∧
  listeners s = [] ∧
  remoteIP s ≠ "" ∧ JsString.allChars JsString.isDigitOrDot (remoteIP s) = true ∧
  match remotePort s with
  | Integer port => 0 ≤ port < 2 ^ 1024
  | Infinity => True
  end.
Proof.
  unfold constructor.
  destruct (JsString.search connectionAt (body m)) as [ip|] eqn:Ec; [|done].
  destruct (JsString.search audioAt (body m)) as [port|] eqn:Ea; [|done].
  intros [= <- <-]. cbn.
  apply search_Some in Ec as (pre & post & _ & Hc).
  apply connectionAt_Some in Hc as (rest & _ & Hne & Hall).
  apply search_Some in Ea as (pre' & post' & _ & Ha).
  apply audioAt_Some in Ha as (rest' & _ & Hne' & Hall').
  repeat split; try done.
  pose proof (toDouble_range (JsString.parseDigits 0 port)
                (parseDigits_nonneg port 0 Hall' (Z.le_refl 0))) as Hrange.
  unfold JsString.parseInt10.
  by destruct (JsString.toDouble (JsString.parseDigits 0 port)).
Qed.

(** Where the endpoint comes from: the remote address is the longest run
    of digits and dots after the leftmost "c=IN IP4 " that has one, the
    remote port what [parseInt] makes of the digits of the leftmost
    "m=audio <digits> ": the double nearest to their decimal value, which
    is that value itself when it is below 2^53. *)
Theorem constructor_reads_first_lines (m : InboundMessage) (e e1 : Env)
    (s : CallSession) :
  constructor m e = (Ok s, e1) →
  (∃ pre rest,
     body m = pre +:+ "c=IN IP4 " +:+ remoteIP s +:+ rest ∧
     stopsAt JsString.isDigitOrDot rest ∧
     leftmost connectionAt pre ("c=IN IP4 " +:+ remoteIP s +:+ rest)) ∧
  (∃ pre port rest,
     body m = pre +:+ "m=audio " +:+ port +:+ " " +:+ rest ∧
     JsString.allChars JsString.isDigit port = true ∧
     remotePort s = JsString.parseInt10 port ∧
     (JsString.parseDigits 0 port < 2 ^ 53 →
      remotePort s = Integer (JsString.parseDigits 0 port)) ∧
     leftmost audioAt pre ("m=audio " +:+ port +:+ " " +:+ rest)).
Proof.
  unfold constructor.
  destruct (JsString.search connectionAt (body m)) as [ip|] eqn:Ec; [|done].
  destruct (JsString.search audioAt (body m)) as [port|] eqn:Ea; [|done].
  intros [= <- <-]. cbn. split.
  - apply search_leftmost in Ec as (pre & post & Hb & Hc & Hleft).
    unfold connectionAt in Hc.
    destruct (JsString.stripPrefix "c=IN IP4 " post) as [r|] eqn:Hp; [|done].
    apply stripPrefix_spec in Hp.
    pose proof (span_app JsString.isDigitOrDot r) as Happ.
    pose proof (span_stopsAt JsString.isDigitOrDot r) as Hstop.
    destruct (fst (JsString.span JsString.isDigitOrDot r)) as [|c cap] eqn:Hcap; [done|].
    injection Hc as <-.
    exists pre, (snd (JsString.span JsString.isDigitOrDot r)).
    rewrite Happ, <- Hp. done.
  - apply search_leftmost in Ea as (pre & post & Hb & Ha & Hleft).
    pose proof (audioAt_Some _ _ Ha) as (rest & -> & Hne & Hall).
    exists pre, port, rest. repeat split; try done.
    apply toDouble_exact.
Qed.

End Offer.

(** ** The remote key *)


Section RemoteKey.
Context `{K : KeyCollaborators}.


(** Setting the remote key replaces the SRTP context and nothing else;
    from then on [encrypt] reaches the library with that context instead of
    raising a [TypeError]. When the library refuses the key material the
    setter raises and the session is as before. *)
Theorem set_remoteKey_makes_ready (key : string) (w : World) (data : Buffer)
    (h : RtpHeader) :
  let w1 := exec (set_remoteKey key) w in
  match newSrtpSession (keyConfig key) with
  | Some ctx =>
      outcome (set_remoteKey key) w = Ok tt ∧
      self w1 = setSrtpSession (Some ctx) (self w) ∧
      env w1 = env w ∧
      outcome (encrypt data h) w1 =
        match fst (srtp_encrypt ctx data h) with
        | Some b => Ok b
        | None => Throw (CollaboratorError "encrypt")
        end
  | None =>
      outcome (set_remoteKey key) w = Throw (CollaboratorError "SrtpSession") ∧
      w1 = w
  end.
Proof.
  cbn. unfold exec, outcome, set_remoteKey, encrypt.
  destruct (newSrtpSession (keyConfig key)) as [ctx|]; cbn; [|done].
  repeat split. by destruct (srtp_encrypt ctx data h).
Qed.

End RemoteKey.

(** ** Media: sending digits, receiving datagrams *)

Section Media.
Context `{C : Collaborators}.

Lemma dtmfPackets_header (ps : list Buffer) (h : RtpHeader) (n m : Z) :
  dtmfPackets (setSequenceNumber n h) m ps = dtmfPackets h m ps.
Proof.
  revert m. induction ps as [|p ps IH]; intros m; [done|].
  cbn [dtmfPackets]. by rewrite IH.
Qed.

Lemma sendPayloads_sendEach (ps : list Buffer) (h : RtpHeader) (n : Z) (w : World) :
  sendPayloads h n ps w = sendEach (dtmfPackets h n ps) w.
Proof.
  revert h n w. induction ps as [|p ps IH]; intros h n w; [done|].
  cbn [sendPayloads dtmfPackets sendEach payload header].
  unfold mbind, M_bind.
  destruct (encrypt p (setSequenceNumber n h) w) as [[data|e] w1]; [|done].
  destruct (send (Bytes data) w1) as [[[]|e] w2]; [|done].
  by rewrite IH, dtmfPackets_header.
Qed.

Lemma dtmfPackets_lookup (ps : list Buffer) (h : RtpHeader) (n : Z) (k : nat)
    (pkt : RtpPacket) :
  dtmfPackets h n ps !! k = Some pkt →
  header pkt = setSequenceNumber (n + Z.of_nat k) h ∧ ps !! k = Some (payload pkt).
Proof.
  revert n k. induction ps as [|p ps IH]; intros n k; [done|].
  destruct k as [|k]; cbn.
  - intros [= <-]. cbn. by rewrite Z.add_0_r.
  - intros H. apply IH in H as [H1 H2]. split; [|done].
    rewrite H1. f_equal. lia.
Qed.

Lemma dtmfPackets_length (ps : list Buffer) (h : RtpHeader) (n : Z) :
  length (dtmfPackets h n ps) = length ps.
Proof.
  revert n. induction ps as [|p ps IH]; intros n; [done|].
  cbn. by rewrite IH.
Qed.

Lemma sendDTMF_sendEach (char : string) (payloads : list Buffer) (w : World) :
  (∀ w', charToPayloads char w' = (Ok payloads, w')) →
  sendDTMF char w =
    sendEach
      (dtmfPackets (dtmfHeader (now (env w)) (randomInt (draws (env w))))
         (Z.rem (now (env w) / 1000) 65536) payloads)
      (withEnv (fun e => setDraws (S (draws e)) e) w).
Proof.
  intros Hps.
  unfold sendDTMF, mbind, M_bind, gets, draw, compose. rewrite Hps.
  apply sendPayloads_sendEach.
Qed.

(** [sendDTMF] sends one packet per payload of the character, in order.
    All packets share one header: payload type 101, the time in seconds
    as timestamp, one random SSRC; packet [k] carries sequence number
    (seconds rem 65536) + k, which is not reduced modulo 65536 again. *)
Theorem sendDTMF_packet_sequence (char : string) (payloads : list Buffer)
    (w : World) :
  (∀ w', charToPayloads char w' = (Ok payloads, w')) →
  let seconds := now (env w) / 1000 in
  let random := randomInt (draws (env w)) in
  let packets :=
    dtmfPackets (dtmfHeader (now (env w)) random) (Z.rem seconds 65536) payloads in
  sendDTMF char w =
    sendEach packets (withEnv (fun e => setDraws (S (draws e)) e) w) ∧
  length packets = length payloads ∧
  ∀ k pkt, packets !! k = Some pkt →
    payloads !! k = Some (payload pkt) ∧
    sequenceNumber (header pkt) = Z.rem seconds 65536 + Z.of_nat k ∧
    timestamp (header pkt) = seconds ∧
    ssrc (header pkt) = random ∧
    payloadType (header pkt) = 101.
Proof.
  intros Hps. cbn zeta. split; [|split].
  - by apply sendDTMF_sendEach.
  - apply dtmfPackets_length.
  - intros k pkt H. apply dtmfPackets_lookup in H as [-> H]. done.
Qed.

Lemma sendEach_sends (packets : list RtpPacket) (w : World)
    (ctx : SrtpSession) (k : Socket) :
  (∀ c data h, fst (srtp_encrypt c data h) ≠ None) →
  srtpSession (self w) = Some ctx →
  socket (self w) = Some k →
  running k = true →
  validPort (remotePort (self w)) = true →
  let w1 := exec (sendEach packets) w in
  outcome (sendEach packets) w = Ok tt ∧
  (∃ ds, length ds = length packets ∧
         socketCalls w1 =
           calls k ++
           map (fun d => SockSend d (remotePort (self w)) (remoteIP (self w))) ds ∧
         wire (env w1) =
           wire (env w) ++
           map (fun d => (d, remotePort (self w), remoteIP (self w))) ds) ∧
  cryptoCalls (env w1) = (cryptoCalls (env w) + length packets)%nat ∧
  emitted (env w1) = emitted (env w) ∧
  softphone (env w1) = softphone (env w) ∧
  disposed (self w1) = disposed (self w).
Proof.
  intros Henc. revert w ctx k.
  induction packets as [|pkt packets IH]; intros w ctx k Hctx Hk Hrun Hport.
  - cbn. unfold socketCalls. rewrite Hk. repeat split; try done.
    exists []. cbn. by rewrite !app_nil_r.
  - pose (d := Bytes (default [] (fst (srtp_encrypt ctx (payload pkt) (header pkt))))).
    pose (k1 := logCall (SockSend d (remotePort (self w)) (remoteIP (self w))) k).
    pose (w1 := mkWorld
            (setSocket (Some k1)
               (setSrtpSession (Some (snd (srtp_encrypt ctx (payload pkt) (header pkt))))
                  (self w)))
            (setWire (wire (env w) ++ [(d, remotePort (self w), remoteIP (self w))])
               (setCryptoCalls (S (cryptoCalls (env w))) (env w)))).
    assert (Hstep : sendEach (pkt :: packets) w = sendEach packets w1).
    { cbn [sendEach]. unfold mbind, M_bind, encrypt. rewrite Hctx.
      pose proof (Henc ctx (payload pkt) (header pkt)) as Hsome.
      subst w1 k1 d.
      destruct (srtp_encrypt ctx (payload pkt) (header pkt)) as [[data|] ctx1];
        [|done].
      rewrite send_unfold. cbn. by rewrite Hk, Hport, Hrun. }
    cbn zeta. unfold exec, outcome. rewrite Hstep.
    specialize (IH w1 _ k1 eq_refl eq_refl Hrun Hport).
    cbn zeta in IH. unfold exec, outcome in IH.
    destruct (sendEach packets w1) as [r w2]. cbn [fst snd] in *.
    destruct IH as (Ho & (ds & Hlen & Hs & Hw) & Hc & He & Hp & Hd).
    split; [done|]. split.
    + exists (d :: ds). rewrite Hs, Hw. subst k1. cbn. rewrite <- !app_assoc. cbn.
      split; [by rewrite Hlen|]. done.
    + rewrite Hc, He, Hp, Hd. cbn. repeat split; try done; lia.
Qed.

(** When the library encrypts whatever it is given, [sendDTMF] on a session
    with its key set, its socket open and a remote port [send] accepts (an
    integer from 1 to 65535) returns normally and sends every payload of
    the character: one encryption and one datagram per payload, each
    invoked on the socket with the remote endpoint and accepted for
    transmission; nothing else on the socket, no event, nothing on the
    signaling channel. *)
Theorem sendDTMF_sends_every_payload (char : string) (payloads : list Buffer)
    (w : World) (ctx : SrtpSession) (k : Socket) :
  (∀ w', charToPayloads char w' = (Ok payloads, w')) →
  (∀ c data h, fst (srtp_encrypt c data h) ≠ None) →
  srtpSession (self w) = Some ctx →
  socket (self w) = Some k →
  running k = true →
  validPort (remotePort (self w)) = true →
  let w1 := exec (sendDTMF char) w in
  outcome (sendDTMF char) w = Ok tt ∧
  (∃ ds, length ds = length payloads ∧
         socketCalls w1 =
           calls k ++
           map (fun d => SockSend d (remotePort (self w)) (remoteIP (self w))) ds ∧
         wire (env w1) =
           wire (env w) ++
           map (fun d => (d, remotePort (self w), remoteIP (self w))) ds) ∧
  cryptoCalls (env w1) = (cryptoCalls (env w) + length payloads)%nat ∧
  emitted (env w1) = emitted (env w) ∧
  outbox w1 = outbox w ∧
  registry w1 = registry w ∧
  disposed (self w1) = disposed (self w).
Proof.
  intros Hps Henc Hctx Hk Hrun Hport. cbn zeta. unfold exec, outcome.
  rewrite (sendDTMF_sendEach _ _ _ Hps).
  pose proof (sendEach_sends
    (dtmfPackets (dtmfHeader (now (env w)) (randomInt (draws (env w))))
       (Z.rem (now (env w) / 1000) 65536) payloads)
    (withEnv (fun e => setDraws (S (draws e)) e) w) ctx k Henc Hctx Hk Hrun Hport)
    as H.
  cbn zeta in H. unfold exec, outcome in H.
  rewrite dtmfPackets_length in H.
  destruct H as (Ho & Hs & Hc & He & Hp & Hd).
  unfold outbox, registry. rewrite Hp.
  repeat split; done.
Qed.

(** Media before the remote key is known: a datagram makes the listener
    raise a [TypeError] with the world untouched, and [sendDTMF] raises it
    before anything reaches the socket. *)
Theorem media_before_key_raises (message : Buffer) (char : string)
    (p : Buffer) (rest : list Buffer) (w : World) :
  srtpSession (self w) = None →
  (∀ w', charToPayloads char w' = (Ok (p :: rest), w')) →
  onMessage message w = (Throw TypeError, w) ∧
  outcome (sendDTMF char) w = Throw TypeError ∧
  self (exec (sendDTMF char) w) = self w ∧
  cryptoCalls (env (exec (sendDTMF char) w)) = cryptoCalls (env w) ∧
  emitted (env (exec (sendDTMF char) w)) = emitted (env w).
Proof.
  intros Hctx Hps. split.
  - unfold onMessage, mbind, M_bind, decrypt. by rewrite Hctx.
  - unfold exec, outcome, sendDTMF, mbind, M_bind, gets, draw, compose.
    rewrite Hps. cbn [sendPayloads]. unfold mbind, M_bind, encrypt. cbn.
    rewrite Hctx. cbn. by destruct w.
Qed.

(** An audio packet the decoder refuses: ['rtpPacket'] has been emitted,
    then the listener raises; no ['audioPacket'] follows. *)
Theorem onMessage_decoder_failure (message plain : Buffer) (w : World)
    (ctx ctx' : SrtpSession) (pkt : RtpPacket) :
  srtpSession (self w) = Some ctx →
  srtp_decrypt ctx message = (Some plain, ctx') →
  deSerialize plain = Some pkt →
  payloadType (header pkt) ≠ 101 →
  opus_decode (payload pkt) = None →
  outcome (onMessage message) w = Throw (CollaboratorError "decode") ∧
  emitted (env (exec (onMessage message) w)) = emitted (env w) ++ [EvRtpPacket pkt] ∧
  delivered (env (exec (onMessage message) w)) =
    delivered (env w) ++
    map (fun l => (l, EvRtpPacket pkt)) (listenersOf "rtpPacket" (listeners (self w))).
Proof.
  intros Hctx Hdec Hser Hpt Hopus. run. rewrite Hctx, Hdec; cbn. rewrite Hser; cbn.
  destruct (Z.eqb_spec (payloadType (header pkt)) 101) as [|_]; [done|].
  by rewrite Hopus.
Qed.

(** A telephone-event packet (payload type 101) is never given to the
    decoder: the listener returns normally and emits ['rtpPacket'],
    ['dtmfPacket'] and, exactly when the payload maps to a non-empty
    character, ['dtmf'] with that character. *)
Theorem onMessage_telephone_event (message plain : Buffer) (w : World)
    (ctx ctx' : SrtpSession) (pkt : RtpPacket) :
  srtpSession (self w) = Some ctx →
  srtp_decrypt ctx message = (Some plain, ctx') →
  deSerialize plain = Some pkt →
  payloadType (header pkt) = 101 →
  outcome (onMessage message) w = Ok tt ∧
  emitted (env (exec (onMessage message) w)) =
    emitted (env w) ++ [EvRtpPacket pkt; EvDtmfPacket pkt] ++
    match payloadToChar (payload pkt) with
    | Some char => if decide (char = "") then [] else [EvDtmf char]
    | None => []
    end.
Proof.
  intros Hctx Hdec Hser Hpt. run. rewrite Hctx, Hdec; cbn. rewrite Hser; cbn.
  rewrite Hpt. cbn.
  destruct (payloadToChar (payload pkt)) as [[|c r]|]; cbn;
    rewrite <- ?app_assoc; done.
Qed.

End Media.

(** ** Signaling: the two listeners, transfer, start *)

Section Signaling.
Context `{C : Collaborators}.

Lemma byeHandler_standsAside (id : nat) (m : InboundMessage) (w : World) :
  standsAside m (self w) → byeHandler id m w = (Ok tt, w).
Proof.
  intros [Hother | (Hbusy & cseq & Hcseq & Hbye)]; run.
  - by rewrite bool_decide_false.
  - destruct (bool_decide _); cbn; [|done].
    rewrite Hbusy; cbn. rewrite Hcseq; cbn. by rewrite Hbye.
Qed.

(** The teardown listener acts on two kinds of message only. A message of
    another call, and a message of this call that is neither a
    "486 Busy Here" nor carries a CSeq ending in " BYE", leave the world
    exactly as it was. *)
Theorem byeHandler_ignores_the_rest (id : nat) (m : InboundMessage) (w : World) :
  headers m !! "Call-ID" ≠ callId (self w) ∨
  (JsString.endsWith (subject m) "486 Busy Here" = false ∧
   ∃ cseq, headers m !! "CSeq" = Some cseq ∧ JsString.endsWith cseq " BYE" = false) →
  byeHandler id m w = (Ok tt, w).
Proof. apply byeHandler_standsAside. Qed.

(** A message of this call that is not a "486 Busy Here" and has no CSeq
    header makes the teardown listener raise a [TypeError]; the world is
    untouched, the listener stays registered. *)
Theorem byeHandler_missing_cseq (id : nat) (m : InboundMessage) (w : World) :
  headers m !! "Call-ID" = callId (self w) →
  JsString.endsWith (subject m) "486 Busy Here" = false →
  headers m !! "CSeq" = None →
  byeHandler id m w = (Throw TypeError, w).
Proof.
  intros Hid Hbusy Hcseq. run.
  rewrite bool_decide_true by done; cbn. rewrite Hbusy; cbn. by rewrite Hcseq.
Qed.

(** The teardown on BYE: for a message of this call whose CSeq ends in
    " BYE" (and which is not a 486) the listener deregisters itself, emits
    ['disposed'] and nothing else, notifies the listeners of ['disposed']
    once each, detaches all session listeners, detaches the datagram
    listener and closes the socket with one close; nothing is sent on the
    signaling channel or the socket. *)
Theorem byeHandler_teardown (id : nat) (m : InboundMessage) (w : World)
    (cseq : string) (k : Socket) :
  headers m !! "Call-ID" = callId (self w) →
  JsString.endsWith (subject m) "486 Busy Here" = false →
  headers m !! "CSeq" = Some cseq →
  JsString.endsWith cseq " BYE" = true →
  socket (self w) = Some k →
  let w1 := exec (byeHandler id m) w in
  outcome (byeHandler id m) w =
    (if running k then Ok tt else Throw ERR_SOCKET_DGRAM_NOT_RUNNING) ∧
  disposed (self w1) = true ∧
  registry w1 = removeLast (ByeHandler id) (registry w) ∧
  emitted (env w1) = emitted (env w) ++ [EvDisposed] ∧
  delivered (env w1) =
    delivered (env w) ++
    map (fun l => (l, EvDisposed)) (listenersOf "disposed" (listeners (self w))) ∧
  listeners (self w1) = [] ∧
  socket (self w1) = Some (mkSocket false false (calls k ++ [SockClose])) ∧
  outbox w1 = outbox w.
Proof.
  intros Hid Hbusy Hcseq Hbye Hk. run.
  rewrite bool_decide_true by done; cbn. rewrite Hbusy; cbn.
  rewrite Hcseq; cbn. rewrite Hbye; cbn. rewrite Hk; cbn. done.
Qed.

(** [transfer] is all or nothing on the signaling channel: when the
    address of either peer cannot be extracted the call fails and no
    request has been sent, no listener registered, the session is as it
    was. *)
Theorem transfer_fails_without_address (target : string) (w : World) :
  extractAddress (remotePeer (self w)) = None ∨
  extractAddress (localPeer (self w)) = None →
  let w1 := exec (transfer target) w in
  outcome (transfer target) w = Throw (CollaboratorError "extractAddress") ∧
  outbox w1 = outbox w ∧
  registry w1 = registry w ∧
  self w1 = self w ∧
  closures (env w1) = closures (env w).
Proof.
  intros H. run.
  destruct (extractAddress (remotePeer (self w))) as [ra|]; cbn.
  - destruct H as [H|H]; [done|]. rewrite H. cbn. by destruct w.
  - by destruct w.
Qed.

(** The NOTIFY listeners of a session among the registered closures. *)
Lemma callEach_answers (hs : list Closure) (n : InboundMessage) (w : World) :
  JsString.startsWith (subject n) "NOTIFY " = true →
  Forall (fun h => isBye h = false) hs ∨ standsAside n (self w) →
  outcome (callEach hs n) w = Ok tt ∧
  self (exec (callEach hs n) w) = self w ∧
  outbox (exec (callEach hs n) w) =
    outbox w ++ replicate (length (filter isNotifyHandler hs)) (ResponseMessage n 200).
Proof.
  intros Hn. revert w. induction hs as [|h hs IH]; intros w Hcase.
  - cbn. by rewrite app_nil_r.
  - unfold outcome, exec. rewrite callEach_cons.
    destruct h as [id|id]; cbn [runClosure].
    + destruct Hcase as [Hall | Hother].
      { apply Forall_cons in Hall as [Hh _]. done. }
      rewrite (byeHandler_standsAside id n w Hother).
      destruct (IH w (or_intror Hother)) as (Ho & Hs & Hout).
      unfold outcome, exec in *. rewrite filter_cons, decide_False by (cbn; tauto).
      done.
    + assert (Hstep : notifyHandler id n w =
                (Ok tt, exec (notifyHandler id n) w) ∧
              self (exec (notifyHandler id n) w) = self w ∧
              outbox (exec (notifyHandler id n) w) = outbox w ++ [ResponseMessage n 200]).
      { run. rewrite Hn; cbn. by destruct (String.eqb _ _). }
      destruct Hstep as (Hrun & Hself & Hout). rewrite Hrun.
      assert (Hcase' : Forall (fun h => isBye h = false) hs ∨
                       standsAside n (self (exec (notifyHandler id n) w))).
      { destruct Hcase as [Hall | Hother].
        - left. by apply Forall_cons in Hall as [_ ?].
        - right. by rewrite Hself. }
      destruct (IH _ Hcase') as (Ho & Hs & Hout').
      unfold outcome, exec in *. rewrite filter_cons, decide_True by (cbn; tauto).
      cbn [length replicate]. split; [done|]. split; [congruence|].
      rewrite Hout', Hout, <- app_assoc. done.
Qed.

(** Every [transfer] leaves one more NOTIFY listener, and each of them
    answers: a NOTIFY delivered by the channel gets as many 200 responses
    as NOTIFY listeners are registered. (The NOTIFY is one the teardown
    listener has nothing to do with: of another call, or not a 486 and
    with a CSeq that does not end in " BYE"; or no teardown listener is
    registered.) *)
Theorem notify_answered_once_per_listener (n : InboundMessage) (w : World) :
  JsString.startsWith (subject n) "NOTIFY " = true →
  Forall (fun h => isBye h = false) (registry w) ∨ standsAside n (self w) →
  outcome (softphone_message n) w = Ok tt ∧
  outbox (exec (softphone_message n) w) =
    outbox w ++
    replicate (length (filter isNotifyHandler (registry w))) (ResponseMessage n 200).
Proof.
  intros Hn Hcase.
  destruct (callEach_answers (registry w) n w Hn Hcase) as (Ho & _ & Hout).
  revert Ho Hout.
  unfold outcome, exec, softphone_message, mbind, M_bind, gets, compose, registry.
  done.
Qed.

(** Disposal does not cancel a transfer in progress: whatever the teardown
    listener does with a message, the NOTIFY listeners stay registered, and
    a NOTIFY listener answers on a disposed session as on a live one. *)
Theorem teardown_keeps_notify_listeners (id nid : nat) (m n : InboundMessage)
    (w : World) :
  JsString.startsWith (subject n) "NOTIFY " = true →
  let w1 := exec (byeHandler id m) w in
  filter isNotifyHandler (registry w1) = filter isNotifyHandler (registry w) ∧
  outbox (exec (notifyHandler nid n) w1) = outbox w1 ++ [ResponseMessage n 200].
Proof.
  intros Hn. cbn zeta. split.
  - clear Hn. run. destruct (bool_decide _); cbn; [|done].
    destruct (JsString.endsWith (subject m) "486 Busy Here"); cbn.
    + destruct (socket (self w)); cbn; by apply removeLast_filter.
    + destruct (headers m !! "CSeq") as [cseq|]; cbn; [|done].
      destruct (JsString.endsWith cseq " BYE"); cbn; [|done].
      destruct (socket (self w)); cbn; by apply removeLast_filter.
  - run. rewrite Hn; cbn. by destruct (String.eqb _ _).
Qed.

End Signaling.

(** ** Runs of a started session *)

Section Runs.
Context `{C : Collaborators}.

Lemma extends_refl (w : World) : extends w w.
Proof.
  repeat split; try done; exists []; by rewrite app_nil_r.
Qed.

Lemma extends_trans (w1 w2 w3 : World) :
  extends w1 w2 → extends w2 w3 → extends w1 w3.
Proof.
  intros (a1 & b1 & c1 & (cs1 & Hcs1 & Hall1) & (ms1 & Hms1 & Hm1))
         (a2 & b2 & c2 & (cs2 & Hcs2 & Hall2) & (ms2 & Hms2 & Hm2)).
  unfold callId in *. rewrite a1, b1, c1 in *.
  repeat split; try congruence.
  - exists (cs1 ++ cs2). rewrite Hcs2, Hcs1, <- app_assoc.
    split; [done | by apply Forall_app].
  - exists (ms1 ++ ms2). rewrite Hms2, Hms1, <- app_assoc.
    split; [done | by apply Forall_app].
Qed.

Lemma keeps_refl (w : World) : keeps w w.
Proof. split; [apply extends_refl | done]. Qed.

Lemma keeps_trans (w1 w2 w3 : World) : keeps w1 w2 → keeps w2 w3 → keeps w1 w3.
Proof.
  intros (e1 & a1 & b1 & c1) (e2 & a2 & b2 & c2).
  split; [by eapply extends_trans | repeat split; congruence].
Qed.

Lemma keeps_advances (w w1 : World) : keeps w w1 → advances w w1.
Proof.
  intros (He & Hd & Hc & Hn). split; [done|].
  unfold once. by rewrite Hd, Hc, Hn.
Qed.

Lemma advances_trans (w1 w2 w3 : World) :
  advances w1 w2 → advances w2 w3 → advances w1 w3.
Proof.
  intros [e1 o1] [e2 o2]. split; [by eapply extends_trans | auto].
Qed.

Lemma keeping_bind {A B} (m : M A) (k : A → M B) :
  keeping m → (∀ a, keeping (k a)) → keeping (m ≫= k).
Proof.
  intros Hm Hk w. rewrite exec_bind.
  specialize (Hm w). unfold exec in Hm.
  destruct (m w) as [[a|e] w1]; cbn in Hm; [|done].
  eapply keeps_trans; [exact Hm | apply Hk].
Qed.

Lemma closeCount_send (l : list SocketCall) (d : Datagram) (p : JsNumber)
    (a : string) :
  length (filter isClose (l ++ [SockSend d p a])) = length (filter isClose l).
Proof. rewrite filter_app. cbn. by rewrite app_nil_r. Qed.

Ltac witness :=
  first [ by (exists []; rewrite app_nil_r)
        | by (eexists; split; [reflexivity | repeat constructor]) ].

Ltac keeping_by_run :=
  intros w; unfold keeps, extends, closeCount, disposals, callId; run;
  repeat (case_match; cbn in *; simplify_eq; try done);
  repeat match goal with
         | H : socket (self _) = _ |- _ => rewrite H in *; clear H
         end;
  cbn in *; rewrite ?closeCount_send;
  repeat split; try done; try witness.

Lemma keeping_send (data : Datagram) : keeping (send data).
Proof. keeping_by_run. Qed.

Lemma keeping_encrypt (data : Buffer) (h : RtpHeader) : keeping (encrypt data h).
Proof. keeping_by_run. Qed.

Lemma keeping_sendPayloads (ps : list Buffer) (h : RtpHeader) (n : Z) :
  keeping (sendPayloads h n ps).
Proof.
  revert h n. induction ps as [|p ps IH]; intros h n.
  - intros w. apply keeps_refl.
  - cbn [sendPayloads]. apply keeping_bind; [apply keeping_encrypt|].
    intros data. apply keeping_bind; [apply keeping_send|]. intros _. apply IH.
Qed.

Lemma keeping_sendDTMF (char : string) : keeping (sendDTMF char).
Proof.
  unfold sendDTMF.
  apply keeping_bind; [keeping_by_run|]. intros ms.
  apply keeping_bind; [keeping_by_run|]. intros r.
  apply keeping_bind; [keeping_by_run|]. intros ps.
  apply keeping_sendPayloads.
Qed.

Lemma keeping_on (name : string) (l : nat) : keeping (on name l).
Proof. keeping_by_run. Qed.

Lemma keeping_hangup : keeping hangup.
Proof.
  intros w; unfold keeps, extends, closeCount, disposals, callId; run.
  repeat split; try done; try witness.
Qed.

Lemma keeping_transfer (target : string) : keeping (transfer target).
Proof.
  intros w; unfold keeps, extends, closeCount, disposals, callId; run.
  destruct (extractAddress (remotePeer (self w))) as [ra|]; cbn;
    [|repeat split; try done; witness].
  destruct (extractAddress (localPeer (self w))) as [la|]; cbn;
    [|repeat split; try done; witness].
  repeat split; try done; try witness.
Qed.

Lemma keeping_notifyHandler (id : nat) (m : InboundMessage) :
  keeping (notifyHandler id m).
Proof. keeping_by_run. Qed.

Lemma keeping_onMessage (message : Buffer) : keeping (onMessage message).
Proof.
  intros w; unfold keeps, extends, closeCount, disposals, callId; run.
  repeat (case_match; cbn in *; simplify_eq; try done);
  rewrite ?filter_app; cbn; rewrite ?app_nil_r;
  repeat split; try done; try witness.
Qed.

Lemma keeping_socket_message (message : Buffer) : keeping (socket_message message).
Proof.
  intros w. unfold exec, socket_message, mbind, M_bind, gets, compose.
  destruct (socket (self w)) as [k|]; [|apply keeps_refl].
  destruct (messageListener k && running k); [|apply keeps_refl].
  apply keeping_onMessage.
Qed.

(** The teardown listener on a live session with its socket: a step that
    keeps everything, or the one disposal. *)
Lemma byeHandler_advances (id : nat) (m : InboundMessage) (w : World) :
  is_Some (socketState w) → disposed (self w) = false →
  advances w (exec (byeHandler id m) w).
Proof.
  intros [st Hst] Hlive.
  unfold socketState in Hst.
  destruct (socket (self w)) as [k|] eqn:Hk; [|done].
  unfold advances, extends, once, closeCount, disposals, socketCalls, callId.
  run. rewrite Hk. cbn.
  destruct (bool_decide _); cbn;
    [|rewrite ?Hk; cbn; repeat split; first [done | witness | tauto]].
  destruct (JsString.endsWith (subject m) "486 Busy Here"); cbn.
  - rewrite Hk. cbn. rewrite Hlive. cbn.
    rewrite !filter_app. cbn. rewrite !length_app. cbn.
    repeat split; try done; try witness.
    all: match goal with H : _ ∧ _ |- _ => destruct H as [H1 H2] end;
      rewrite ?H1, ?H2; repeat case_decide; first [done | tauto].
  - destruct (headers m !! "CSeq") as [cseq|]; cbn;
      [|rewrite ?Hk; cbn; repeat split; first [done | witness | tauto]].
    destruct (JsString.endsWith cseq " BYE"); cbn;
      [|rewrite ?Hk; cbn; repeat split; first [done | witness | tauto]].
    rewrite Hk. cbn. rewrite Hlive. cbn.
    rewrite !filter_app. cbn. rewrite !length_app. cbn.
    repeat split; try done; try witness.
    all: match goal with H : _ ∧ _ |- _ => destruct H as [H1 H2] end;
      rewrite ?H1, ?H2; repeat case_decide; first [done | tauto].
Qed.

(** Calling the next registered closure keeps the bookkeeping of an
    emission in order; when it is the teardown listener the session is
    still live. *)
Lemma pending_step (h : Closure) (hs : list Closure) (m : InboundMessage)
    (w : World) :
  pending (h :: hs) w →
  pending hs (exec (runClosure h m) w) ∧
  (isBye h = true → disposed (self w) = false).
Proof.
  intros (Hwf & Hlen & Hdis & Hsub). pose proof Hwf as (_ & Hsock & _).
  destruct h as [id|id]; cbn [runClosure isBye].
  - rewrite filter_cons in Hlen, Hdis, Hsub.
    rewrite decide_True in Hlen, Hdis, Hsub by done.
    assert (Hrest : filter isBye hs = []).
    { destruct (filter isBye hs); [done|]. cbn in Hlen. lia. }
    assert (Hlive : disposed (self w) = false).
    { destruct (disposed (self w)); [|done]. by specialize (Hdis eq_refl). }
    assert (Hreg : filter isBye (registry w) = [ByeHandler id]).
    { specialize (Hsub (ByeHandler id) ltac:(by left)).
      destruct Hwf as [Hone _].
      destruct (filter isBye (registry w)) as [|x [|y r]]; cbn in Hone.
      - by apply elem_of_nil in Hsub.
      - apply list_elem_of_singleton in Hsub. by subst.
      - lia. }
    split; [|done].
    pose proof (byeHandler_cases id m w) as Hcases. cbn zeta in Hcases.
    destruct Hcases as [Hf | (Hd & Hr & Hl)].
    + split; [by eapply frame_wellFormed|].
      rewrite Hrest. split; [cbn; lia|]. split; [done|].
      intros h Hh. by apply elem_of_nil in Hh.
    + assert (filter isBye (registry (exec (byeHandler id m) w)) = []) as Hnone.
      { rewrite Hr. by apply removeLast_only_bye. }
      assert (socketState (exec (byeHandler id m) w) = Some (false, false)) as Hclosed.
      { rewrite Hl. by destruct Hsock as [x ->]. }
      split; [split; [by rewrite Hnone; cbn; lia |
                      split; [by rewrite Hclosed | by intros _; split]]|].
      rewrite Hrest. split; [cbn; lia|]. split; [done|].
      intros h Hh. by apply elem_of_nil in Hh.
  - split; [|done].
    rewrite filter_cons in Hlen, Hdis, Hsub.
    rewrite decide_False in Hlen, Hdis, Hsub by (cbn; tauto).
    pose proof (framed_notifyHandler id m w) as Hf.
    pose proof (frame_wellFormed _ _ Hf Hwf) as Hwf1.
    destruct Hf as (Hd & Hb & _). split; [done|].
    split; [done|]. rewrite Hd, Hb. by split.
Qed.

Lemma callEach_advances (hs : list Closure) (m : InboundMessage) (w : World) :
  pending hs w → advances w (exec (callEach hs m) w).
Proof.
  revert w. induction hs as [|h hs IH]; intros w Hp.
  - apply keeps_advances, keeps_refl.
  - destruct (pending_step h hs m w Hp) as [Hp1 Hlive].
    assert (Hstep : advances w (exec (runClosure h m) w)).
    { destruct h as [id|id]; cbn [runClosure].
      - destruct Hp as ((_ & Hsock & _) & _).
        apply byeHandler_advances; [done | by apply Hlive].
      - apply keeps_advances, keeping_notifyHandler. }
    unfold exec in *. rewrite callEach_cons.
    destruct (runClosure h m w) as [[[]|e] w1]; cbn [snd] in *; [|done].
    eapply advances_trans; [exact Hstep | by apply IH].
Qed.

Lemma perform_advances (a : Action) (w : World) :
  wellFormed w → advances w (exec (perform a) w).
Proof.
  intros Hwf. destruct a as [data|target| |char|name l|m|message]; cbn [perform].
  - apply keeps_advances, keeping_send.
  - apply keeps_advances, keeping_transfer.
  - apply keeps_advances, keeping_hangup.
  - apply keeps_advances, keeping_sendDTMF.
  - apply keeps_advances, keeping_on.
  - assert (Hp : pending (registry w) w).
    { split; [done|]. destruct Hwf as (Hlen & Hsock & Hq). split; [done|].
      split; [|done]. intros Ht. by destruct (Hq Ht). }
    apply (callEach_advances _ m) in Hp. revert Hp.
    unfold exec, softphone_message, mbind, M_bind, gets, compose, registry. done.
  - apply keeps_advances, keeping_socket_message.
Qed.

Lemma performAll_advances (l : list Action) (w : World) :
  wellFormed w → advances w (performAll l w).
Proof.
  revert w. induction l as [|a l IH]; intros w Hwf.
  - apply keeps_advances, keeps_refl.
  - cbn [performAll]. eapply advances_trans; [by apply perform_advances|].
    apply IH. by apply perform_wellFormed.
Qed.

(** Disposal happens at most once. In every run of a session started from
    a fresh state the socket's close operation has been invoked and
    ['disposed'] has been emitted exactly once if the session is disposed
    and not at all otherwise. *)
Theorem disposal_happens_once (w0 : World) (actions : list Action) :
  fresh w0 → disposals w0 = 0%nat →
  let w := performAll actions (exec startLocalServices w0) in
  closeCount w = Nat.b2n (disposed (self w)) ∧
  disposals w = Nat.b2n (disposed (self w)) ∧
  (closeCount w ≤ 1)%nat ∧ (disposals w ≤ 1)%nat.
Proof.
  intros Hfresh Hnone w.
  assert (Hwf : wellFormed (exec startLocalServices w0))
    by (by apply startLocalServices_wellFormed).
  assert (Honce : once (exec startLocalServices w0)).
  { destruct Hfresh as [Hd _].
    destruct (startLocalServices_start w0) as (Hs & He & _).
    unfold once, disposals, closeCount, socketCalls in *.
    rewrite Hs, He, Hnone. cbn. by rewrite Hd. }
  destruct (performAll_advances actions _ Hwf) as [_ Hkeep].
  destruct (Hkeep Honce) as [Hc Hn]. fold w in Hc, Hn.
  rewrite Hc, Hn. repeat split; try done; destruct (disposed (self w)); cbn; lia.
Qed.

(** The remote endpoint is fixed at construction: in every run of a
    started session the remote address and port are those the session
    started with, and every send on the socket, the hole-punch datagram
    included, is addressed to them. *)
Theorem every_datagram_goes_to_the_endpoint (w0 : World) (actions : list Action) :
  fresh w0 →
  let w := performAll actions (exec startLocalServices w0) in
  remoteIP (self w) = remoteIP (self w0) ∧
  remotePort (self w) = remotePort (self w0) ∧
  Forall (addressedTo (remoteIP (self w0)) (remotePort (self w0))) (socketCalls w).
Proof.
  intros Hfresh w.
  assert (Hwf : wellFormed (exec startLocalServices w0))
    by (by apply startLocalServices_wellFormed).
  destruct (performAll_advances actions _ Hwf)
    as [(_ & Hip & Hport & (cs & Hcs & Hall) & _) _].
  fold w in Hip, Hport, Hcs.
  assert (Hstart : remoteIP (self (exec startLocalServices w0)) = remoteIP (self w0) ∧
                   remotePort (self (exec startLocalServices w0)) = remotePort (self w0) ∧
                   socketCalls (exec startLocalServices w0) =
                     [SockBind; SockSend (Text "hello") (remotePort (self w0))
                                  (remoteIP (self w0))]).
  { destruct (startLocalServices_start w0) as (Hs & _).
    unfold socketCalls. by rewrite Hs. }
  destruct Hstart as (Hip0 & Hport0 & Hcalls0).
  rewrite Hip0, Hport0 in *. rewrite Hcalls0 in Hcs.
  repeat split; try done.
  rewrite Hcs. apply Forall_app. split; [|done].
  by repeat constructor.
Qed.

(** One Call-ID for the whole call: in every run of a started session the
    message the session was built from, hence its Call-ID, never changes,
    and every request the session puts on the signaling channel (BYE,
    REFER) carries exactly one Call-ID header, with that value. *)
Theorem every_request_carries_the_call_id (w0 : World) (actions : list Action) :
  fresh w0 →
  let w := performAll actions (exec startLocalServices w0) in
  callId (self w) = callId (self w0) ∧
  ∃ ms, outbox w = outbox w0 ++ ms ∧ Forall (carriesCallId (callId (self w0))) ms.
Proof.
  intros Hfresh w.
  assert (Hwf : wellFormed (exec startLocalServices w0))
    by (by apply startLocalServices_wellFormed).
  destruct (performAll_advances actions _ Hwf)
    as [(Hmsg & _ & _ & _ & (ms & Hms & Hall)) _].
  fold w in Hmsg, Hms.
  assert (Hstart : sipMessage (self (exec startLocalServices w0)) = sipMessage (self w0) ∧
                   outbox (exec startLocalServices w0) = outbox w0).
  { destruct (startLocalServices_start w0) as (Hs & _ & _ & Ho).
    by rewrite Hs. }
  destruct Hstart as (Hmsg0 & Hout0).
  unfold callId in *. rewrite Hmsg0 in *. rewrite Hout0 in Hms.
  split; [by rewrite Hmsg|]. by exists ms.
Qed.

End Runs.

(** ** After disposal *)

Section Disposed.
Context `{C : Collaborators}.

Lemma offWire_bind {A B} (m : M A) (k : A → M B) :
  offWire m → (∀ a, offWire (k a)) → offWire (m ≫= k).
Proof.
  intros Hm Hk w Hc. rewrite exec_bind.
  destruct (Hm w Hc) as [Hc1 Hw1]. unfold exec in Hc1, Hw1.
  destruct (m w) as [[a|e] w1]; cbn [snd] in *; [|done].
  destruct (Hk a w1 Hc1) as [Hc2 Hw2]. split; [done | congruence].
Qed.

Lemma offWire_send (data : Datagram) : offWire (send data).
Proof.
  intros w Hc. unfold closed, exec in *. rewrite send_unfold.
  destruct (socket (self w)) as [k|] eqn:Hk; cbn; rewrite ?Hk; [|done].
  destruct (validPort (remotePort (self w))); cbn; [|done].
  rewrite Hc. cbn. done.
Qed.

Ltac offWire_by_run :=
  intros w Hc; unfold closed in *; run;
  repeat (case_match; cbn in *; simplify_eq; try done).

Lemma offWire_encrypt (data : Buffer) (h : RtpHeader) : offWire (encrypt data h).
Proof. offWire_by_run. Qed.

Lemma offWire_sendPayloads (ps : list Buffer) (h : RtpHeader) (n : Z) :
  offWire (sendPayloads h n ps).
Proof.
  revert h n. induction ps as [|p ps IH]; intros h n.
  - by intros w Hc.
  - cbn [sendPayloads]. apply offWire_bind; [apply offWire_encrypt|].
    intros data. apply offWire_bind; [apply offWire_send|]. intros _. apply IH.
Qed.

Lemma offWire_sendDTMF (char : string) : offWire (sendDTMF char).
Proof.
  unfold sendDTMF.
  apply offWire_bind; [offWire_by_run|]. intros ms.
  apply offWire_bind; [offWire_by_run|]. intros r.
  apply offWire_bind; [offWire_by_run|]. intros ps.
  apply offWire_sendPayloads.
Qed.

Lemma offWire_hangup : offWire hangup.
Proof. offWire_by_run. Qed.

Lemma offWire_on (name : string) (l : nat) : offWire (on name l).
Proof. offWire_by_run. Qed.

Lemma offWire_transfer (target : string) : offWire (transfer target).
Proof. offWire_by_run. Qed.

Lemma offWire_notifyHandler (id : nat) (m : InboundMessage) :
  offWire (notifyHandler id m).
Proof. offWire_by_run. Qed.

Lemma offWire_dispose : offWire dispose.
Proof.
  intros w Hc. unfold closed in *. run.
  destruct (socket (self w)) as [k|] eqn:Hk; cbn; rewrite ?Hk; done.
Qed.

Lemma offWire_byeHandler (id : nat) (m : InboundMessage) :
  offWire (byeHandler id m).
Proof.
  unfold byeHandler. apply offWire_bind; [by intros w Hc|]. intros s.
  destruct (negb _); [by intros w Hc|].
  destruct (JsString.endsWith (subject m) "486 Busy Here").
  - apply offWire_bind; [by intros w Hc|]. intros _.
    apply offWire_bind; [by intros w Hc|]. intros _. apply offWire_dispose.
  - apply offWire_bind; [by destruct (headers m !! "CSeq"); intros w Hc|].
    intros cseq. destruct (JsString.endsWith cseq " BYE"); [|by intros w Hc].
    apply offWire_bind; [by intros w Hc|]. intros _. apply offWire_dispose.
Qed.

Lemma offWire_callEach (hs : list Closure) (m : InboundMessage) :
  offWire (callEach hs m).
Proof.
  induction hs as [|h hs IH]; [by intros w Hc|].
  cbn [callEach]. apply offWire_bind; [|by intros _].
  destruct h; [apply offWire_byeHandler | apply offWire_notifyHandler].
Qed.

Lemma offWire_softphone_message (m : InboundMessage) :
  offWire (softphone_message m).
Proof.
  unfold softphone_message. apply offWire_bind; [by intros w Hc|].
  intros hs. apply offWire_callEach.
Qed.

(** Every action on a session whose socket is closed leaves it closed and
    sends no datagram. *)
Lemma offWire_perform (a : Action) (w : World) :
  socketState w = Some (false, false) →
  wire (env (exec (perform a) w)) = wire (env w).
Proof.
  intros Hq.
  assert (Hc : closed w).
  { unfold closed, socketState in *. destruct (socket (self w)); [|done].
    cbn in Hq. congruence. }
  destruct a as [data|target| |char|name l|m|message]; cbn [perform].
  - by apply offWire_send.
  - by apply offWire_transfer.
  - by apply offWire_hangup.
  - by apply offWire_sendDTMF.
  - by apply offWire_on.
  - by apply offWire_softphone_message.
  - unfold exec. by rewrite socket_message_not_listening.
Qed.

(** Listeners of transfers alone stay within the frame: without a teardown
    listener nothing disposes the session. *)
Lemma callEach_notify_frame (hs : list Closure) (m : InboundMessage) (w : World) :
  Forall (fun h => isBye h = false) hs → frame w (exec (callEach hs m) w).
Proof.
  intros H. revert w. induction H as [|h hs Hh _ IH]; intros w.
  - apply frame_refl.
  - unfold exec. rewrite callEach_cons.
    destruct h as [id|id]; [done|]. cbn [runClosure].
    pose proof (framed_notifyHandler id m w) as Hf. unfold exec in Hf.
    destruct (notifyHandler id m w) as [[[]|e] w1]; cbn [snd] in *; [|done].
    eapply frame_trans; [exact Hf | apply IH].
Qed.

Lemma perform_fresh (a : Action) (w : World) :
  fresh w →
  fresh (exec (perform a) w) ∧ socketState (exec (perform a) w) = socketState w.
Proof.
  intros [Hd Hb].
  assert (Hframe : ∀ w1, frame w w1 → fresh w1 ∧ socketState w1 = socketState w).
  { intros w1 (Hd1 & Hb1 & Hs1 & _). split; [split; congruence | done]. }
  destruct a as [data|target| |char|name l|m|message]; cbn [perform].
  - apply Hframe, framed_send.
  - apply Hframe, framed_transfer.
  - apply Hframe, framed_hangup.
  - apply Hframe, framed_sendDTMF.
  - apply Hframe, framed_on.
  - apply Hframe.
    assert (Hall : Forall (fun h => isBye h = false) (registry w)).
    { apply Forall_forall. intros h Hh.
      destruct (isBye h) eqn:Hbye; [|done].
      assert (Hin : h ∈ filter isBye (registry w)).
      { apply list_elem_of_filter. split; [by rewrite Hbye | done]. }
      rewrite Hb in Hin. by apply elem_of_nil in Hin. }
    pose proof (callEach_notify_frame (registry w) m w Hall) as Hf. revert Hf.
    unfold exec, softphone_message, mbind, M_bind, gets, compose, registry. done.
  - destruct (onMessage_keeps message w) as (Hd1 & Hr1 & Hs1).
    unfold exec, socket_message, mbind, M_bind, gets, compose in *.
    destruct (socket (self w)) as [k|] eqn:Hk; [|done].
    destruct (messageListener k && running k); [|done].
    split; [split; [congruence | by rewrite Hr1] | done].
Qed.

Lemma performAll_fresh (l : list Action) (w : World) :
  fresh w →
  fresh (performAll l w) ∧ socketState (performAll l w) = socketState w.
Proof.
  revert w. induction l as [|a l IH]; intros w Hf; [done|].
  cbn. destruct (perform_fresh a w Hf) as [Hf1 Hs1].
  destruct (IH _ Hf1) as [Hf2 Hs2]. split; [done | congruence].
Qed.

(** A session that got disposed has a port [send] accepts: with another
    port [startLocalServices] raises before it registers the teardown
    listener, and nothing else disposes. *)
Lemma disposed_validPort (w0 : World) (actions : list Action) :
  fresh w0 →
  let w := performAll actions (exec startLocalServices w0) in
  disposed (self w) = true → validPort (remotePort (self w)) = true.
Proof.
  intros Hfresh w Hdisposed.
  pose proof (startLocalServices_unfold w0) as Hstart. cbn zeta in Hstart.
  destruct (validPort (remotePort (self w0))) eqn:Hport.
  - assert (Hwf : wellFormed (exec startLocalServices w0))
      by (by apply startLocalServices_wellFormed).
    destruct (performAll_advances actions _ Hwf) as [(_ & _ & Hp & _) _].
    fold w in Hp. rewrite Hp. unfold exec. by rewrite Hstart.
  - assert (Hf : fresh (exec startLocalServices w0)).
    { unfold exec. rewrite Hstart. exact Hfresh. }
    destruct (performAll_fresh actions _ Hf) as [[Hd _] _]. fold w in Hd.
    congruence.
Qed.

(** A port the socket refuses. The constructor checks no range, so the
    offer can name port 0, a port above 65535 or one that [parseInt] reads
    as [Infinity]. Then [startLocalServices] raises [ERR_SOCKET_BAD_PORT]
    at its "hello", after the socket has been created and bound and before
    the teardown listener is registered. In every run from there the
    session is never disposed, whatever BYE or 486 arrives; its socket
    stays open with the datagram listener attached; every [send] raises
    [ERR_SOCKET_BAD_PORT]. *)
Theorem refused_port_is_never_disposed (w0 : World) (actions : list Action) :
  fresh w0 →
  validPort (remotePort (self w0)) = false →
  outcome startLocalServices w0 = Throw ERR_SOCKET_BAD_PORT ∧
  let w := performAll actions (exec startLocalServices w0) in
  disposed (self w) = false ∧
  filter isBye (registry w) = filter isBye (registry w0) ∧
  socketState w = Some (true, true) ∧
  (∀ data, outcome (send data) w = Throw ERR_SOCKET_BAD_PORT).
Proof.
  intros Hfresh Hport.
  pose proof (startLocalServices_unfold w0) as Hstart. cbn zeta in Hstart.
  rewrite Hport in Hstart.
  split; [unfold outcome; by rewrite Hstart|]. intros w.
  assert (Hf : fresh (exec startLocalServices w0)).
  { unfold exec. rewrite Hstart. exact Hfresh. }
  destruct (performAll_fresh actions _ Hf) as [[Hd Hb] Hs]. fold w in Hd, Hb, Hs.
  assert (Hwf : wellFormed (exec startLocalServices w0))
    by (by apply startLocalServices_wellFormed).
  destruct (performAll_advances actions _ Hwf) as [(_ & _ & Hp & _) _].
  fold w in Hp.
  assert (Hs0 : socketState (exec startLocalServices w0) = Some (true, true)).
  { unfold exec. by rewrite Hstart. }
  assert (Hp0 : remotePort (self (exec startLocalServices w0)) = remotePort (self w0)).
  { unfold exec. by rewrite Hstart. }
  split; [done|]. split; [rewrite Hb; by destruct Hfresh as [_ ->]|].
  split; [congruence|].
  intros data. unfold outcome. rewrite send_unfold.
  rewrite Hs0 in Hs. unfold socketState in Hs.
  destruct (socket (self w)) as [k|]; [|done].
  cbn zeta. by rewrite Hp, Hp0, Hport.
Qed.

(** C5: in every run of a session started from a fresh state, once
    [disposed] is true no further socket I/O occurs and no further event is
    emitted. After any further action [disposed] is still true, no [emit]
    call has been made and no listener notified, no datagram has been
    accepted by the socket for transmission, an inbound datagram is not
    processed at all, and [send] raises [ERR_SOCKET_DGRAM_NOT_RUNNING]. The
    one event after the flag is set is the ['disposed'] the disposing call
    emits itself, and that call sends nothing. *)
Theorem C5_disposed_session_emits_nothing (w0 : World) (before : list Action)
    (a : Action) :
  fresh w0 →
  let w := performAll before (exec startLocalServices w0) in
  disposed (self w) = true →
  let w1 := exec (perform a) w in
  disposed (self w1) = true ∧
  emitted (env w1) = emitted (env w) ∧
  delivered (env w1) = delivered (env w) ∧
  wire (env w1) = wire (env w) ∧
  (∀ message, a = InboundDatagram message → perform a w = (Ok tt, w)) ∧
  (∀ data, a = CallSend data →
     outcome (perform a) w = Throw ERR_SOCKET_DGRAM_NOT_RUNNING) ∧
  (∀ w', emitted (env (exec dispose w')) = emitted (env w') ++ [EvDisposed] ∧
         wire (env (exec dispose w')) = wire (env w')).
Proof.
  intros Hfresh w Hdisposed w1.
  assert (Hwf : wellFormed w).
  { apply performAll_wellFormed. by apply startLocalServices_wellFormed. }
  destruct (perform_wellFormed a w Hwf) as [_ Hframe].
  destruct (Hframe Hdisposed) as (Hd & _ & _ & He & Hdl).
  fold w1 in Hd, He, Hdl.
  destruct Hwf as (_ & _ & Hq). destruct (Hq Hdisposed) as [_ Hclosed].
  split; [congruence|]. split; [done|]. split; [done|].
  split; [by apply offWire_perform|]. split; [|split].
  - intros message ->. cbn [perform]. by apply socket_message_not_listening.
  - intros data ->. cbn [perform].
    destruct (send_closed data w false Hclosed) as (Ho & _).
    assert (Hp : validPort (remotePort (self w)) = true)
      by (by apply disposed_validPort).
    by rewrite Ho, Hp.
  - intros w'. run. by destruct (socket (self w')).
Qed.

End Disposed.

(** ** The flag *)

Section Flag.
Context `{C : Collaborators}.

Lemma callEach_keeps_disposed (hs : list Closure) (m : InboundMessage) (w : World) :
  disposed (self w) = true → disposed (self (exec (callEach hs m) w)) = true.
Proof.
  revert w. induction hs as [|h hs IH]; intros w Hd; [done|].
  unfold exec. rewrite callEach_cons.
  assert (Hstep : disposed (self (exec (runClosure h m) w)) = true).
  { destruct h as [id|id]; cbn [runClosure].
    - destruct (byeHandler_cases id m w) as [(Hsame & _) | (Htrue & _)];
        [by rewrite Hsame | done].
    - destruct (framed_notifyHandler id m w) as (Hsame & _). by rewrite Hsame. }
  unfold exec in *.
  destruct (runClosure h m w) as [[[]|e] w1]; cbn [snd] in *; [|done].
  by apply IH.
Qed.

(** [disposed] is monotonic: from any state whatever, no call of a public
    method, no inbound message and no inbound datagram resets it, whether
    the step returns or raises. *)
Theorem disposed_is_never_reset (actions : list Action) (w : World) :
  disposed (self w) = true →
  disposed (self (performAll actions w)) = true.
Proof.
  revert w. induction actions as [|a actions IH]; intros w Hd; [done|].
  cbn [performAll]. apply IH.
  destruct a as [data|target| |char|name l|m|message]; cbn [perform].
  - destruct (keeping_send data w) as (_ & Hsame & _). by rewrite Hsame.
  - destruct (keeping_transfer target w) as (_ & Hsame & _). by rewrite Hsame.
  - destruct (keeping_hangup w) as (_ & Hsame & _). by rewrite Hsame.
  - destruct (keeping_sendDTMF char w) as (_ & Hsame & _). by rewrite Hsame.
  - destruct (keeping_on name l w) as (_ & Hsame & _). by rewrite Hsame.
  - pose proof (callEach_keeps_disposed (registry w) m w Hd) as H. revert H.
    unfold exec, softphone_message, mbind, M_bind, gets, compose, registry. done.
  - destruct (keeping_socket_message message w) as (_ & Hsame & _). by rewrite Hsame.
Qed.

End Flag.

(** ** The end of a transfer *)

Section TransferEnd.
Context `{C : Collaborators}.

Lemma elem_of_removeLast (h y : Closure) (l : list Closure) :
  y ∈ removeLast h l → y ∈ l.
Proof.
  induction l as [|x l IH]; [done|]. cbn [removeLast].
  destruct (bool_decide (h ∈ l)).
  - intros H. apply elem_of_cons in H as [->|H]; [by left | right; by apply IH].
  - destruct (bool_decide (x = h)); [by right | done].
Qed.

Lemma NoDup_removeLast (h : Closure) (l : list Closure) :
  NoDup l → NoDup (removeLast h l).
Proof.
  induction 1 as [|x l Hx Hl IH]; [constructor|]. cbn [removeLast].
  destruct (bool_decide (h ∈ l)).
  - constructor; [|done]. intros H. by apply Hx, (elem_of_removeLast h).
  - destruct (bool_decide (x = h)); [done | by constructor].
Qed.

(** Without duplicates, removing the first closure of a kind leaves the
    others of that kind. *)
Lemma removeLast_head_of_kind (f : Closure → bool) (h : Closure)
    (l rest : list Closure) :
  NoDup l → filter f l = h :: rest → filter f (removeLast h l) = rest.
Proof.
  induction 1 as [|x l Hx Hl IH]; [done|]. intros Hf. cbn [removeLast].
  assert (Hh : h ∈ filter f (x :: l)) by (rewrite Hf; by left).
  apply list_elem_of_filter in Hh as [Hfh Hin].
  rewrite filter_cons in Hf.
  destruct (bool_decide_reflect (h ∈ l)) as [Hl'|Hl'].
  - rewrite filter_cons. case_decide as Hfx.
    + injection Hf as -> _. done.
    + by apply IH.
  - destruct (bool_decide_reflect (x = h)) as [->|Hne].
    + rewrite decide_True in Hf by done. by injection Hf.
    + apply elem_of_cons in Hin as [->|Hin]; done.
Qed.

Lemma callEach_final_notify (hs : list Closure) (n : InboundMessage) (w : World) :
  JsString.startsWith (subject n) "NOTIFY " = true →
  JsString.trim (body n) = "SIP/2.0 200 OK" →
  Forall (fun h => isBye h = false) hs ∨ standsAside n (self w) →
  NoDup (registry w) →
  filter isNotifyHandler (registry w) = filter isNotifyHandler hs →
  filter isNotifyHandler (registry (exec (callEach hs n) w)) = [] ∧
  filter isBye (registry (exec (callEach hs n) w)) = filter isBye (registry w).
Proof.
  intros Hn Hb. revert w. induction hs as [|h hs IH]; intros w Hcase Hnd Hreg.
  - done.
  - unfold exec. rewrite callEach_cons.
    destruct h as [id|id]; cbn [runClosure].
    + destruct Hcase as [Hall | Hother].
      { apply Forall_cons in Hall as [Hh _]. done. }
      rewrite (byeHandler_standsAside id n w Hother).
      rewrite filter_cons, decide_False in Hreg by (cbn; tauto).
      by apply (IH w (or_intror Hother)).
    + assert (Hstep : notifyHandler id n w =
                (Ok tt, exec (notifyHandler id n) w) ∧
              self (exec (notifyHandler id n) w) = self w ∧
              registry (exec (notifyHandler id n) w) =
                removeLast (NotifyHandler id) (registry w)).
      { run. rewrite Hn; cbn. by rewrite Hb. }
      destruct Hstep as (Hrun & Hself & Hrem). rewrite Hrun.
      rewrite filter_cons, decide_True in Hreg by (cbn; tauto).
      assert (Hcase' : Forall (fun h => isBye h = false) hs ∨
                 standsAside n (self (exec (notifyHandler id n) w))).
      { destruct Hcase as [Hall | Hother].
        - left. by apply Forall_cons in Hall as [_ ?].
        - right. by rewrite Hself. }
      destruct (IH (exec (notifyHandler id n) w) Hcase') as [H1 H2].
      * rewrite Hrem. by apply NoDup_removeLast.
      * rewrite Hrem. by apply removeLast_head_of_kind.
      * unfold exec in *. split; [done|].
        rewrite H2, Hrem. by apply removeLast_filter.
Qed.

(** A final NOTIFY ends every transfer in progress: delivered by the
    channel to a session whose registered closures are distinct, a NOTIFY
    with body "SIP/2.0 200 OK" that the teardown listener has nothing to
    do with leaves no NOTIFY listener registered and the teardown listener
    in place, so that the next message gets no response. *)
Theorem final_notify_deregisters_all (n next : InboundMessage) (w : World) :
  JsString.startsWith (subject n) "NOTIFY " = true →
  JsString.trim (body n) = "SIP/2.0 200 OK" →
  Forall (fun h => isBye h = false) (registry w) ∨ standsAside n (self w) →
  NoDup (registry w) →
  let w1 := exec (softphone_message n) w in
  filter isNotifyHandler (registry w1) = [] ∧
  filter isBye (registry w1) = filter isBye (registry w) ∧
  outbox (exec (softphone_message next) w1) = outbox w1.
Proof.
  intros Hn Hb Hcase Hnd. cbn zeta.
  assert (Hrun : exec (softphone_message n) w = exec (callEach (registry w) n) w).
  { by unfold exec, softphone_message, mbind, M_bind, gets, compose, registry. }
  rewrite Hrun.
  destruct (callEach_final_notify (registry w) n w Hn Hb Hcase Hnd eq_refl)
    as [Hnone Hbyes].
  split; [done|]. split; [done|].
  set (w1 := exec (callEach (registry w) n) w) in *.
  assert (Hall : Forall (fun h => isBye h = true) (registry w1)).
  { apply Forall_forall. intros h Hh.
    destruct (isBye h) eqn:E; [done|].
    assert (h ∈ filter isNotifyHandler (registry w1)) as Hin.
    { apply list_elem_of_filter. split; [|done]. unfold isNotifyHandler. by rewrite E. }
    rewrite Hnone in Hin. by apply elem_of_nil in Hin. }
  pose proof (teardown_listeners_send_nothing (registry w1) next w1 Hall) as H.
  revert H. unfold exec, softphone_message, mbind, M_bind, gets, compose, registry.
  done.
Qed.

End TransferEnd.

(** ** Closure identities *)

Section Closures.
Context `{C : Collaborators}.

Lemma still_bind {A B} (m : M A) (k : A → M B) :
  still m → (∀ a, still (k a)) → still (m ≫= k).
Proof.
  intros Hm Hk w. rewrite exec_bind.
  specialize (Hm w). unfold exec in Hm.
  destruct (m w) as [[a|e] w1]; cbn in Hm; [|done].
  destruct (Hk a w1) as [H1 H2]. destruct Hm as [H3 H4].
  split; congruence.
Qed.

Ltac still_by_run :=
  unfold still; intros w; run; repeat (case_match; cbn in *; simplify_eq; try done);
  try done.

Lemma still_send (data : Datagram) : still (send data).
Proof. still_by_run. Qed.

Lemma still_encrypt (data : Buffer) (h : RtpHeader) : still (encrypt data h).
Proof. still_by_run. Qed.

Lemma still_sendPayloads (ps : list Buffer) (h : RtpHeader) (n : Z) :
  still (sendPayloads h n ps).
Proof.
  revert h n. induction ps as [|p ps IH]; intros h n; [by intros w|].
  cbn [sendPayloads]. apply still_bind; [apply still_encrypt|].
  intros data. apply still_bind; [apply still_send|]. intros _. apply IH.
Qed.

Lemma still_sendDTMF (char : string) : still (sendDTMF char).
Proof.
  unfold sendDTMF.
  apply still_bind; [still_by_run|]. intros ms.
  apply still_bind; [still_by_run|]. intros r.
  apply still_bind; [still_by_run|]. intros ps.
  apply still_sendPayloads.
Qed.

Lemma still_hangup : still hangup.
Proof. still_by_run. Qed.

Lemma still_on (name : string) (l : nat) : still (on name l).
Proof. still_by_run. Qed.

Lemma still_socket_message (message : Buffer) : still (socket_message message).
Proof. still_by_run. Qed.

Lemma distinct_still (w w1 : World) :
  registry w1 = registry w → closures (env w1) = closures (env w) →
  distinctClosures w → distinctClosures w1.
Proof. intros Hr Hc [H1 H2]. unfold distinctClosures. by rewrite Hr, Hc. Qed.

Lemma distinct_remove (h : Closure) (w w1 : World) :
  registry w1 = removeLast h (registry w) → closures (env w1) = closures (env w) →
  distinctClosures w → distinctClosures w1.
Proof.
  intros Hr Hc [H1 H2]. unfold distinctClosures. rewrite Hr, Hc. split.
  - by apply NoDup_removeLast.
  - apply Forall_forall. intros x Hx. apply elem_of_removeLast in Hx.
    by apply (proj1 (Forall_forall _ _) H2).
Qed.

Lemma distinct_append (h : Closure) (w w1 : World) :
  registry w1 = registry w ++ [h] → closureId h = closures (env w) →
  closures (env w1) = S (closures (env w)) →
  distinctClosures w → distinctClosures w1.
Proof.
  intros Hr Hid Hc [H1 H2]. unfold distinctClosures. rewrite Hr, Hc. split.
  - apply NoDup_app. split; [done|]. split; [|apply NoDup_singleton].
    intros x Hx Hx'. apply list_elem_of_singleton in Hx'. subst x.
    pose proof (proj1 (Forall_forall _ _) H2 h Hx) as Hlt. cbn beta in Hlt. lia.
  - apply Forall_app. split.
    + eapply Forall_impl; [exact H2|]. cbn beta. intros x Hx. lia.
    + apply Forall_singleton. lia.
Qed.

Lemma runClosure_distinct (h : Closure) (m : InboundMessage) (w : World) :
  distinctClosures w → distinctClosures (exec (runClosure h m) w).
Proof.
  intros Hd. destruct h as [id|id]; cbn [runClosure].
  - assert (H : (registry (exec (byeHandler id m) w) = registry w ∨
                 registry (exec (byeHandler id m) w) =
                   removeLast (ByeHandler id) (registry w)) ∧
                closures (env (exec (byeHandler id m) w)) = closures (env w)).
    { run. destruct (bool_decide _); cbn; [|by auto].
      destruct (JsString.endsWith (subject m) "486 Busy Here"); cbn.
      - destruct (socket (self w)); cbn; by auto.
      - destruct (headers m !! "CSeq") as [cseq|]; cbn; [|by auto].
        destruct (JsString.endsWith cseq " BYE"); cbn; [|by auto].
        destruct (socket (self w)); cbn; by auto. }
    destruct H as [[H|H] Hc]; [by eapply distinct_still | by eapply distinct_remove].
  - assert (H : (registry (exec (notifyHandler id m) w) = registry w ∨
                 registry (exec (notifyHandler id m) w) =
                   removeLast (NotifyHandler id) (registry w)) ∧
                closures (env (exec (notifyHandler id m) w)) = closures (env w)).
    { run. destruct (JsString.startsWith (subject m) "NOTIFY "); cbn; [|by auto].
      destruct (String.eqb _ _); cbn; by auto. }
    destruct H as [[H|H] Hc]; [by eapply distinct_still | by eapply distinct_remove].
Qed.

Lemma callEach_distinct (hs : list Closure) (m : InboundMessage) (w : World) :
  distinctClosures w → distinctClosures (exec (callEach hs m) w).
Proof.
  revert w. induction hs as [|h hs IH]; intros w Hd; [done|].
  unfold exec. rewrite callEach_cons.
  pose proof (runClosure_distinct h m w Hd) as Hstep. unfold exec in *.
  destruct (runClosure h m w) as [[[]|e] w1]; cbn [snd] in *; [|done].
  by apply IH.
Qed.

Lemma transfer_distinct (target : string) (w : World) :
  distinctClosures w → distinctClosures (exec (transfer target) w).
Proof.
  intros Hd.
  assert (H : (registry (exec (transfer target) w) = registry w ∧
               closures (env (exec (transfer target) w)) = closures (env w)) ∨
              (registry (exec (transfer target) w) =
                 registry w ++ [NotifyHandler (closures (env w))] ∧
               closures (env (exec (transfer target) w)) = S (closures (env w)))).
  { run. destruct (extractAddress (remotePeer (self w))); cbn; [|by auto].
    destruct (extractAddress (localPeer (self w))); cbn; by auto. }
  destruct H as [[Hr Hc] | [Hr Hc]];
    [by eapply distinct_still | by eapply distinct_append].
Qed.

Lemma perform_distinct (a : Action) (w : World) :
  distinctClosures w → distinctClosures (exec (perform a) w).
Proof.
  intros Hd. destruct a as [data|target| |char|name l|m|message]; cbn [perform].
  - destruct (still_send data w). by eapply distinct_still.
  - by apply transfer_distinct.
  - destruct (still_hangup w). by eapply distinct_still.
  - destruct (still_sendDTMF char w). by eapply distinct_still.
  - destruct (still_on name l w). by eapply distinct_still.
  - pose proof (callEach_distinct (registry w) m w Hd) as H. revert H.
    unfold exec, softphone_message, mbind, M_bind, gets, compose, registry. done.
  - destruct (still_socket_message message w). by eapply distinct_still.
Qed.

(** Every registration is a new closure: in every run the closures
    registered on the signaling channel stay pairwise distinct, each
    [startLocalServices] and each [transfer] adding one with an identity
    not handed out before. *)
Theorem registered_closures_stay_distinct (w0 : World) (actions : list Action) :
  distinctClosures w0 →
  distinctClosures (exec startLocalServices w0) ∧
  distinctClosures (performAll actions (exec startLocalServices w0)).
Proof.
  intros Hd.
  assert (Hs : distinctClosures (exec startLocalServices w0)).
  { pose proof (startLocalServices_unfold w0) as Hstart. cbn zeta in Hstart.
    unfold exec. rewrite Hstart.
    destruct (validPort (remotePort (self w0))); cbn [snd].
    - by eapply (distinct_append (ByeHandler (closures (env w0)))).
    - by eapply distinct_still. }
  split; [done|].
  generalize dependent (exec startLocalServices w0). clear.
  induction actions as [|a actions IH]; intros w Hw; [done|].
  cbn [performAll]. apply IH. by apply perform_distinct.
Qed.

End Closures.

(** ** More worked examples *)

Lemma constructor_fresh_session_witness :
  constructor Demo.invite Demo.env0 = (Ok (self DemoMore.bare), Demo.env0) ∧
  disposed (self DemoMore.bare) = false ∧
  socket (self DemoMore.bare) = None ∧
  match remotePort (self DemoMore.bare) with
  | Integer port => 0 ≤ port < 2 ^ 1024
  | Infinity => True
  end.
Proof.
  assert (H : constructor Demo.invite Demo.env0 = (Ok (self DemoMore.bare), Demo.env0))
    by (vm_compute; reflexivity).
  pose proof (constructor_fresh_session _ _ _ _ H)
    as (_ & _ & Hd & Hs & _ & _ & _ & _ & _ & _ & Hp).
  exact (conj H (conj Hd (conj Hs Hp))).
Defined.

Lemma constructor_reads_first_lines_witness :
  constructor Demo.invite Demo.env0 = (Ok (self DemoMore.bare), Demo.env0) ∧
  ∃ pre port rest,
    body Demo.invite = pre +:+ "m=audio " +:+ port +:+ " " +:+ rest ∧
    JsString.allChars JsString.isDigit port = true ∧
    remotePort (self DemoMore.bare) = JsString.parseInt10 port ∧
    (JsString.parseDigits 0 port < 2 ^ 53 →
     remotePort (self DemoMore.bare) = Integer (JsString.parseDigits 0 port)) ∧
    leftmost audioAt pre ("m=audio " +:+ port +:+ " " +:+ rest).
Proof.
  assert (H : constructor Demo.invite Demo.env0 = (Ok (self DemoMore.bare), Demo.env0))
    by (vm_compute; reflexivity).
  exact (conj H (proj2 (constructor_reads_first_lines _ _ _ _ H))).
Defined.

Lemma sendDTMF_packet_sequence_witness :
  (∀ w', charToPayloads "5" w' = (Ok (eventPayloads 5), w')) ∧
  sendDTMF "5" Demo.started =
    sendEach
      (dtmfPackets (dtmfHeader (now (env Demo.started)) (randomInt (draws (env Demo.started))))
         (Z.rem (now (env Demo.started) / 1000) 65536) (eventPayloads 5))
      (withEnv (fun e => setDraws (S (draws e)) e) Demo.started).
Proof.
  assert (H : ∀ w', charToPayloads "5" w' = (Ok (eventPayloads 5), w'))
    by (intros w'; reflexivity).
  exact (conj H (proj1 (sendDTMF_packet_sequence "5" (eventPayloads 5) Demo.started H))).
Defined.

Lemma sendDTMF_sends_every_payload_witness :
  let k := mkSocket true true [SockBind; SockSend (Text "hello") 40002 "10.0.0.7"] in
  (∀ w', charToPayloads "5" w' = (Ok (eventPayloads 5), w')) ∧
  (∀ (c : SrtpSession) data h, fst (srtp_encrypt c data h) ≠ None) ∧
  srtpSession (self Demo.started) = Some O ∧
  socket (self Demo.started) = Some k ∧
  running k = true ∧
  validPort (remotePort (self Demo.started)) = true ∧
  outcome (sendDTMF "5") Demo.started = Ok tt ∧
  cryptoCalls (env (exec (sendDTMF "5") Demo.started)) =
    (cryptoCalls (env Demo.started) + length (eventPayloads 5))%nat.
Proof.
  intros k.
  assert (H0 : ∀ w', charToPayloads "5" w' = (Ok (eventPayloads 5), w'))
    by (intros w'; reflexivity).
  assert (H1 : ∀ (c : SrtpSession) data h, fst (srtp_encrypt c data h) ≠ None)
    by (intros c data h; discriminate).
  assert (H2 : srtpSession (self Demo.started) = Some O) by (vm_compute; reflexivity).
  assert (H3 : socket (self Demo.started) = Some k) by (vm_compute; reflexivity).
  assert (H4 : validPort (remotePort (self Demo.started)) = true)
    by (vm_compute; reflexivity).
  pose proof (sendDTMF_sends_every_payload "5" (eventPayloads 5) Demo.started O k
                H0 H1 H2 H3 eq_refl H4) as (Ho & _ & Hc & _).
  exact (conj H0 (conj H1 (conj H2 (conj H3 (conj eq_refl (conj H4 (conj Ho Hc))))))).
Defined.

Lemma media_before_key_raises_witness :
  srtpSession (self DemoMore.bare) = None ∧
  (∀ w', charToPayloads "5" w' =
     (Ok ([Byte.x05; Byte.x00; Byte.x00; Byte.xa0] :: [[Byte.x05; Byte.x80; Byte.x01; Byte.x40]]), w')) ∧
  onMessage Demo.audio1 DemoMore.bare = (Throw TypeError, DemoMore.bare) ∧
  outcome (sendDTMF "5") DemoMore.bare = Throw TypeError.
Proof.
  assert (H1 : srtpSession (self DemoMore.bare) = None) by (vm_compute; reflexivity).
  assert (H2 : ∀ w', charToPayloads "5" w' =
     (Ok ([Byte.x05; Byte.x00; Byte.x00; Byte.xa0] :: [[Byte.x05; Byte.x80; Byte.x01; Byte.x40]]), w'))
    by (intros w'; reflexivity).
  pose proof (media_before_key_raises Demo.audio1 "5" _ _ DemoMore.bare H1 H2)
    as (Ha & Hb & _).
  exact (conj H1 (conj H2 (conj Ha Hb))).
Defined.

Lemma onMessage_decoder_failure_witness :
  srtpSession (self DemoMore.strictWorld) = Some (O : @SrtpSession DemoMore.strict) ∧
  srtp_decrypt (O : @SrtpSession DemoMore.strict) DemoMore.silence =
    (Some DemoMore.silence, 1%nat) ∧
  deSerialize (Collaborators := DemoMore.strict) DemoMore.silence = Some DemoMore.emptyPacket ∧
  payloadType (header DemoMore.emptyPacket) ≠ 101 ∧
  opus_decode (Collaborators := DemoMore.strict) (payload DemoMore.emptyPacket) = None ∧
  outcome (onMessage DemoMore.silence) DemoMore.strictWorld =
    Throw (CollaboratorError "decode") ∧
  emitted (env (exec (onMessage DemoMore.silence) DemoMore.strictWorld)) =
    emitted (env DemoMore.strictWorld) ++ [EvRtpPacket DemoMore.emptyPacket].
Proof.
  assert (Hpt : payloadType (header DemoMore.emptyPacket) ≠ 101) by discriminate.
  pose proof (onMessage_decoder_failure (C := DemoMore.strict) DemoMore.silence
    DemoMore.silence DemoMore.strictWorld O 1%nat DemoMore.emptyPacket
    eq_refl eq_refl eq_refl Hpt eq_refl) as (Ho & He & _).
  exact (conj eq_refl (conj eq_refl (conj eq_refl (conj Hpt (conj eq_refl (conj Ho He)))))).
Defined.

Lemma onMessage_telephone_event_witness :
  srtpSession (self Demo.started) = Some O ∧
  srtp_decrypt (O : SrtpSession) DemoMore.digit5 = (Some DemoMore.digit5, 1%nat) ∧
  deSerialize DemoMore.digit5 = Some DemoMore.packet5 ∧
  payloadType (header DemoMore.packet5) = 101 ∧
  outcome (onMessage DemoMore.digit5) Demo.started = Ok tt ∧
  emitted (env (exec (onMessage DemoMore.digit5) Demo.started)) =
    emitted (env Demo.started) ++
    [EvRtpPacket DemoMore.packet5; EvDtmfPacket DemoMore.packet5] ++
    match payloadToChar (payload DemoMore.packet5) with
    | Some char => if decide (char = "") then [] else [EvDtmf char]
    | None => []
    end.
Proof.
  assert (H1 : srtpSession (self Demo.started) = Some O) by (vm_compute; reflexivity).
  pose proof (onMessage_telephone_event DemoMore.digit5 DemoMore.digit5 Demo.started
    O 1%nat DemoMore.packet5 H1 eq_refl eq_refl eq_refl) as (Ho & He).
  exact (conj H1 (conj eq_refl (conj eq_refl (conj eq_refl (conj Ho He))))).
Defined.

Lemma byeHandler_ignores_the_rest_witness :
  (headers DemoMore.ringing !! "Call-ID" ≠ callId (self Demo.started) ∨
   (JsString.endsWith (subject DemoMore.ringing) "486 Busy Here" = false ∧
    ∃ cseq, headers DemoMore.ringing !! "CSeq" = Some cseq ∧
            JsString.endsWith cseq " BYE" = false)) ∧
  byeHandler 0 DemoMore.ringing Demo.started = (Ok tt, Demo.started).
Proof.
  assert (H : headers DemoMore.ringing !! "Call-ID" ≠ callId (self Demo.started) ∨
   (JsString.endsWith (subject DemoMore.ringing) "486 Busy Here" = false ∧
    ∃ cseq, headers DemoMore.ringing !! "CSeq" = Some cseq ∧
            JsString.endsWith cseq " BYE" = false)).
  { right. split; [vm_compute; reflexivity|]. exists "1 INVITE".
    split; vm_compute; reflexivity. }
  exact (conj H (byeHandler_ignores_the_rest 0 DemoMore.ringing Demo.started H)).
Defined.

Lemma byeHandler_missing_cseq_witness :
  headers DemoMore.withoutCSeq !! "Call-ID" = callId (self Demo.started) ∧
  JsString.endsWith (subject DemoMore.withoutCSeq) "486 Busy Here" = false ∧
  headers DemoMore.withoutCSeq !! "CSeq" = None ∧
  byeHandler 0 DemoMore.withoutCSeq Demo.started = (Throw TypeError, Demo.started).
Proof.
  assert (H1 : headers DemoMore.withoutCSeq !! "Call-ID" = callId (self Demo.started))
    by (vm_compute; reflexivity).
  assert (H2 : JsString.endsWith (subject DemoMore.withoutCSeq) "486 Busy Here" = false)
    by (vm_compute; reflexivity).
  assert (H3 : headers DemoMore.withoutCSeq !! "CSeq" = None) by (vm_compute; reflexivity).
  exact (conj H1 (conj H2 (conj H3
    (byeHandler_missing_cseq 0 DemoMore.withoutCSeq Demo.started H1 H2 H3)))).
Defined.

Lemma byeHandler_teardown_witness :
  let k := mkSocket true true [SockBind; SockSend (Text "hello") 40002 "10.0.0.7"] in
  headers Demo.bye !! "Call-ID" = callId (self Demo.started) ∧
  JsString.endsWith (subject Demo.bye) "486 Busy Here" = false ∧
  headers Demo.bye !! "CSeq" = Some "2 BYE" ∧
  JsString.endsWith "2 BYE" " BYE" = true ∧
  socket (self Demo.started) = Some k ∧
  outcome (byeHandler 0 Demo.bye) Demo.started = Ok tt ∧
  emitted (env (exec (byeHandler 0 Demo.bye) Demo.started)) =
    emitted (env Demo.started) ++ [EvDisposed] ∧
  socket (self (exec (byeHandler 0 Demo.bye) Demo.started)) =
    Some (mkSocket false false (calls k ++ [SockClose])).
Proof.
  intros k.
  assert (H1 : headers Demo.bye !! "Call-ID" = callId (self Demo.started))
    by (vm_compute; reflexivity).
  assert (H2 : JsString.endsWith (subject Demo.bye) "486 Busy Here" = false)
    by (vm_compute; reflexivity).
  assert (H3 : headers Demo.bye !! "CSeq" = Some "2 BYE") by (vm_compute; reflexivity).
  assert (H4 : JsString.endsWith "2 BYE" " BYE" = true) by (vm_compute; reflexivity).
  assert (H5 : socket (self Demo.started) = Some k) by (vm_compute; reflexivity).
  pose proof (byeHandler_teardown 0 Demo.bye Demo.started "2 BYE" k H1 H2 H3 H4 H5)
    as (Ho & _ & _ & He & _ & _ & Hs & _).
  exact (conj H1 (conj H2 (conj H3 (conj H4 (conj H5 (conj Ho (conj He Hs))))))).
Defined.

Lemma transfer_fails_without_address_witness :
  (extractAddress (remotePeer (self DemoMore.bare)) = None ∨
   extractAddress (localPeer (self DemoMore.bare)) = None) ∧
  outcome (transfer "18005551212") DemoMore.bare =
    Throw (CollaboratorError "extractAddress") ∧
  outbox (exec (transfer "18005551212") DemoMore.bare) = outbox DemoMore.bare ∧
  registry (exec (transfer "18005551212") DemoMore.bare) = registry DemoMore.bare.
Proof.
  assert (H : extractAddress (remotePeer (self DemoMore.bare)) = None ∨
              extractAddress (localPeer (self DemoMore.bare)) = None)
    by (left; vm_compute; reflexivity).
  pose proof (transfer_fails_without_address "18005551212" DemoMore.bare H)
    as (Ho & Hout & Hreg & _).
  exact (conj H (conj Ho (conj Hout Hreg))).
Defined.

Lemma own_notify_stands_aside :
  JsString.startsWith (subject DemoMore.ownNotify) "NOTIFY " = true ∧
  JsString.trim (body DemoMore.ownNotify) = "SIP/2.0 200 OK" ∧
  (Forall (fun h => isBye h = false) (registry Demo.transferring) ∨
   standsAside DemoMore.ownNotify (self Demo.transferring)) ∧
  NoDup (registry Demo.transferring).
Proof.
  split; [vm_compute; reflexivity|]. split; [vm_compute; reflexivity|]. split.
  - right. right. split; [vm_compute; reflexivity|]. exists "3 NOTIFY".
    split; vm_compute; reflexivity.
  - assert (Hreg : registry Demo.transferring = [ByeHandler 0; NotifyHandler 1])
      by (vm_compute; reflexivity).
    rewrite Hreg. apply (bool_decide_unpack _). vm_compute. exact I.
Defined.

Lemma notify_answered_once_per_listener_witness :
  JsString.startsWith (subject DemoMore.ownNotify) "NOTIFY " = true ∧
  (Forall (fun h => isBye h = false) (registry Demo.transferring) ∨
   standsAside DemoMore.ownNotify (self Demo.transferring)) ∧
  outbox (exec (softphone_message DemoMore.ownNotify) Demo.transferring) =
    outbox Demo.transferring ++
    replicate (length (filter isNotifyHandler (registry Demo.transferring)))
      (ResponseMessage DemoMore.ownNotify 200).
Proof.
  destruct own_notify_stands_aside as (Hn & _ & Hcase & _).
  pose proof (notify_answered_once_per_listener DemoMore.ownNotify Demo.transferring
    Hn Hcase) as (_ & Hout).
  exact (conj Hn (conj Hcase Hout)).
Defined.

Lemma final_notify_deregisters_all_witness :
  JsString.startsWith (subject DemoMore.ownNotify) "NOTIFY " = true ∧
  JsString.trim (body DemoMore.ownNotify) = "SIP/2.0 200 OK" ∧
  (Forall (fun h => isBye h = false) (registry Demo.transferring) ∨
   standsAside DemoMore.ownNotify (self Demo.transferring)) ∧
  NoDup (registry Demo.transferring) ∧
  filter isNotifyHandler
    (registry (exec (softphone_message DemoMore.ownNotify) Demo.transferring)) = [].
Proof.
  destruct own_notify_stands_aside as (Hn & Hb & Hcase & Hnd).
  pose proof (final_notify_deregisters_all DemoMore.ownNotify DemoMore.ownNotify
    Demo.transferring Hn Hb Hcase Hnd) as (Hnone & _).
  exact (conj Hn (conj Hb (conj Hcase (conj Hnd Hnone)))).
Defined.

Lemma teardown_keeps_notify_listeners_witness :
  JsString.startsWith (subject DemoMore.ownNotify) "NOTIFY " = true ∧
  filter isNotifyHandler (registry (exec (byeHandler 0 Demo.bye) Demo.transferring)) =
    filter isNotifyHandler (registry Demo.transferring).
Proof.
  assert (Hn : JsString.startsWith (subject DemoMore.ownNotify) "NOTIFY " = true)
    by (vm_compute; reflexivity).
  exact (conj Hn (proj1 (teardown_keeps_notify_listeners 0 1 Demo.bye DemoMore.ownNotify
                           Demo.transferring Hn))).
Defined.

Lemma disposal_happens_once_witness :
  fresh Demo.world0 ∧ disposals Demo.world0 = 0%nat ∧
  closeCount (performAll [InboundSip Demo.bye; InboundSip Demo.bye; CallHangup]
                (exec startLocalServices Demo.world0)) = 1%nat.
Proof.
  assert (Hfresh : fresh Demo.world0) by (split; reflexivity).
  pose proof (disposal_happens_once Demo.world0
    [InboundSip Demo.bye; InboundSip Demo.bye; CallHangup] Hfresh eq_refl)
    as (Hc & _).
  split; [exact Hfresh|]. split; [reflexivity|].
  rewrite Hc. vm_compute. reflexivity.
Defined.

Lemma every_datagram_goes_to_the_endpoint_witness :
  fresh Demo.world0 ∧
  Forall (addressedTo (remoteIP (self Demo.world0)) (remotePort (self Demo.world0)))
    (socketCalls (performAll [CallSendDTMF "5"; CallSend (Text "ping")]
                    (exec startLocalServices Demo.world0))).
Proof.
  assert (Hfresh : fresh Demo.world0) by (split; reflexivity).
  pose proof (every_datagram_goes_to_the_endpoint Demo.world0
    [CallSendDTMF "5"; CallSend (Text "ping")] Hfresh) as (_ & _ & H).
  exact (conj Hfresh H).
Defined.

Lemma every_request_carries_the_call_id_witness :
  fresh Demo.world0 ∧
  ∃ ms, outbox (performAll [CallTransfer "18005551212"; CallHangup]
                  (exec startLocalServices Demo.world0)) = outbox Demo.world0 ++ ms ∧
        Forall (carriesCallId (callId (self Demo.world0))) ms.
Proof.
  assert (Hfresh : fresh Demo.world0) by (split; reflexivity).
  pose proof (every_request_carries_the_call_id Demo.world0
    [CallTransfer "18005551212"; CallHangup] Hfresh) as (_ & H).
  exact (conj Hfresh H).
Defined.

Lemma disposed_is_never_reset_witness :
  disposed (self Demo.ended) = true ∧
  disposed (self (performAll [CallHangup; InboundSip Demo.bye; CallSend (Text "late")]
                    Demo.ended)) = true.
Proof.
  assert (H : disposed (self Demo.ended) = true) by (vm_compute; reflexivity).
  exact (conj H (disposed_is_never_reset
    [CallHangup; InboundSip Demo.bye; CallSend (Text "late")] Demo.ended H)).
Defined.

Lemma registered_closures_stay_distinct_witness :
  distinctClosures Demo.world0 ∧
  distinctClosures (performAll [CallTransfer "18005551212"; CallTransfer "18005551213"]
                      (exec startLocalServices Demo.world0)).
Proof.
  assert (H : distinctClosures Demo.world0).
  { split; [apply NoDup_nil_2 | apply Forall_nil_2]. }
  exact (conj H (proj2 (registered_closures_stay_distinct Demo.world0
    [CallTransfer "18005551212"; CallTransfer "18005551213"] H))).
Defined.

Lemma constructor_succeeds_iff_witness :
  hasConnectionLine (body Demo.invite) ∧ hasAudioLine (body Demo.invite) ∧
  ∃ s, constructor Demo.invite Demo.env0 = (Ok s, Demo.env0).
Proof.
  assert (H : ∃ s, constructor Demo.invite Demo.env0 = (Ok s, Demo.env0))
    by (exists (self DemoMore.bare); vm_compute; reflexivity).
  destruct (proj2 (constructor_succeeds_iff Demo.invite Demo.env0) H) as [Hc Ha].
  exact (conj Hc (conj Ha H)).
Defined.


Lemma set_remoteKey_makes_ready_witness :
  let key := "ABCDEFGHIJKLMNOPabcdefghijklmn" in
  outcome (set_remoteKey (K := DemoKeys.keys) key) DemoMore.bare = Ok tt ∧
  srtpSession (self (exec (set_remoteKey (K := DemoKeys.keys) key) DemoMore.bare)) =
    Some O ∧
  outcome (encrypt [Byte.x05] (header DemoMore.packet5)) DemoMore.bare = Throw TypeError ∧
  outcome (encrypt [Byte.x05] (header DemoMore.packet5))
    (exec (set_remoteKey (K := DemoKeys.keys) key) DemoMore.bare) = Ok [Byte.x05] ∧
  exec (set_remoteKey (K := DemoKeys.keys) "short") DemoMore.bare = DemoMore.bare.
Proof.
  intros key.
  pose proof (set_remoteKey_makes_ready (K := DemoKeys.keys) key DemoMore.bare
                [Byte.x05] (header DemoMore.packet5)) as H.
  pose proof (set_remoteKey_makes_ready (K := DemoKeys.keys) "short" DemoMore.bare
                [Byte.x05] (header DemoMore.packet5)) as H'.
  hnf in H, H'. destruct H as (Ho & Hs & _ & He). destruct H' as (_ & Hw).
  split; [exact Ho|]. split; [rewrite Hs; reflexivity|].
  split; [vm_compute; reflexivity|]. split; [rewrite He; vm_compute; reflexivity|].
  exact Hw.
Defined.

Lemma C5_witness :
  fresh Demo.world0 ∧
  disposed (self (performAll [InboundSip Demo.bye]
                    (exec startLocalServices Demo.world0))) = true ∧
  emitted (env (exec (perform (CallSendDTMF "1")) Demo.ended)) =
    emitted (env Demo.ended) ∧
  wire (env (exec (perform (CallSendDTMF "1")) Demo.ended)) =
    [(Text "hello", Integer 40002, "10.0.0.7")].
Proof.
  assert (Hfresh : fresh Demo.world0) by (split; reflexivity).
  assert (Hd : disposed (self (performAll [InboundSip Demo.bye]
                    (exec startLocalServices Demo.world0))) = true)
    by (vm_compute; reflexivity).
  pose proof (C5_disposed_session_emits_nothing Demo.world0 [InboundSip Demo.bye]
    (CallSendDTMF "1") Hfresh Hd) as (_ & He & _ & Hw & _).
  split; [exact Hfresh|]. split; [exact Hd|]. split; [exact He|].
  etransitivity; [exact Hw|]. vm_compute. reflexivity.
Defined.

Lemma refused_port_is_never_disposed_witness :
  fresh DemoMore.unreachable ∧
  remotePort (self DemoMore.unreachable) = 0 ∧
  validPort (remotePort (self DemoMore.unreachable)) = false ∧
  outcome startLocalServices DemoMore.unreachable = Throw ERR_SOCKET_BAD_PORT ∧
  disposed (self (performAll [InboundSip Demo.bye; InboundSip Demo.busyHere]
                    (exec startLocalServices DemoMore.unreachable))) = false.
Proof.
  assert (Hfresh : fresh DemoMore.unreachable) by (split; reflexivity).
  assert (Hport : validPort (remotePort (self DemoMore.unreachable)) = false)
    by (vm_compute; reflexivity).
  pose proof (refused_port_is_never_disposed DemoMore.unreachable
    [InboundSip Demo.bye; InboundSip Demo.busyHere] Hfresh Hport) as (Ho & Hd & _).
  split; [exact Hfresh|]. split; [vm_compute; reflexivity|].
  split; [exact Hport|]. split; [exact Ho | exact Hd].
Defined.
